(** * wc3ts: registry, LAN re-broadcaster, probe engine, join proxy, version strings

    A shallow embedding of the Go sources of wc3ts
    (game/registry.go, game/game.go, lan/broadcaster.go, peer/manager.go,
    peer/responder.go, proxy/tcp.go, config/config.go, and the parts of
    cmd/wc3ts/run.go and of the terminal interface that feed them) and
    the properties of its specification settled against that embedding,
    followed by further properties of the code.

    Conventions.
    - [uint16], [uint32], [uint64] and [byte] values are integers in [Z];
      every conversion and every operation that can wrap is written out.
    - A Go [string] is a Rocq [string] (a sequence of bytes).
    - Go leaves the iteration order of a [map] unspecified and the value of
      [time.Now()] to the environment: both are oracles of the class
      [Runtime], and every statement holds for every such oracle.
    - Heap objects that the program shares by reference (backing arrays of
      [[]byte] and [[]Game], [*Game] cells) live in an explicit store. *)

From Stdlib Require Import ZArith Lia List String Ascii.
From stdpp Require Import gmap strings list fin_maps.

Local Open Scope Z_scope.

(** ** Machine integers and bytes *)

Module Go.

Definition maxUint16 : Z := 65535.
Definition maxUint32 : Z := 4294967295.
Definition maxUint64 : Z := 18446744073709551615.

Definition is_uint16 (x : Z) : Prop := 0 <= x <= maxUint16.
Definition is_uint32 (x : Z) : Prop := 0 <= x <= maxUint32.
Definition is_byte (x : Z) : Prop := 0 <= x <= 255.

(** [byte(x)]: conversion of an unsigned integer to [byte] keeps the low
    eight bits. *)
Definition byte (x : Z) : Z := Z.land x 255.

(** [uint64] addition and multiplication wrap around. *)
Definition wrap64 (x : Z) : Z := x mod 2 ^ 64.

(** Little-endian reading of a byte sequence (the decoding the game client
    applies to the integer fields of a packet). *)
Fixpoint le_decode (bs : list Z) : Z :=
  match bs with
  | [] => 0
  | b :: bs' => b + 256 * le_decode bs'
  end.

End Go.

(** ** Strings: the parts of [strings], [strconv] and [fmt] that config.go uses

    These are functions of the Go standard library; they are written here
    after its sources ([strconv.ParseUint], [strings.CutPrefix],
    [strings.TrimSpace], the [%d] verb of [fmt]). *)

Module strconv.

Inductive NumError := ErrSyntax | ErrRange.

Inductive result (A : Type) :=
| Ok (a : A)
| Err (e : NumError).
Arguments Ok {A} a.
Arguments Err {A} e.

Definition code (c : ascii) : Z := Z.of_N (N_of_ascii c).
Definition char (z : Z) : ascii := ascii_of_N (Z.to_N z).

Definition isDigit (c : ascii) : bool := (48 <=? code c) && (code c <=? 57).

(** [unicode.IsSpace] on the ASCII range: tab, line feed, vertical tab,
    form feed, carriage return and space. (Go also trims white space
    outside ASCII; no string of this development contains a byte above
    0x7F.) *)
Definition isSpace (c : ascii) : bool :=
  ((9 <=? code c) && (code c <=? 13)) || (code c =? 32).

Fixpoint trimLeft (s : string) : string :=
  match s with
  | EmptyString => EmptyString
  | String c s' => if isSpace c then trimLeft s' else s
  end.

Fixpoint trimRight (s : string) : string :=
  match s with
  | EmptyString => EmptyString
  | String c s' =>
      match trimRight s' with
      | EmptyString => if isSpace c then EmptyString else String c EmptyString
      | t => String c t
      end
  end.

Definition TrimSpace (s : string) : string := trimRight (trimLeft s).

Fixpoint dropBytes (n : nat) (s : string) : string :=
  match n, s with
  | O, _ => s
  | S n', String _ s' => dropBytes n' s'
  | S _, EmptyString => EmptyString
  end.

(** [strings.CutPrefix]: [s[len(prefix):], true] when [s] starts with
    [prefix], and [s, false] otherwise. *)
Definition CutPrefix (s pre : string) : string * bool :=
  if String.prefix pre s then (dropBytes (String.length pre) s, true) else (s, false).

(** The digit loop of [strconv.ParseUint] in base 10: [n] is a [uint64],
    [cutoff] is the least number whose tenfold overflows [uint64] and
    [maxVal] the largest value of the requested bit size. *)
Fixpoint parseLoop (cutoff maxVal : Z) (s : string) (n : Z) : result Z :=
  match s with
  | EmptyString => Ok n
  | String c s' =>
      if isDigit c then
        let d := code c - 48 in
        if cutoff <=? n then Err ErrRange
        else
          let n10 := Go.wrap64 (n * 10) in
          let n1 := Go.wrap64 (n10 + d) in
          if (n1 <? n10) || (maxVal <? n1) then Err ErrRange
          else parseLoop cutoff maxVal s' n1
      else Err ErrSyntax
  end.

(** [strconv.ParseUint(s, 10, bitSize)] for [0 < bitSize <= 64]. *)
Definition ParseUint10 (s : string) (bitSize : Z) : result Z :=
  match s with
  | EmptyString => Err ErrSyntax
  | _ => parseLoop (Go.maxUint64 / 10 + 1) (2 ^ bitSize - 1) s 0
  end.

(** The [%d] verb on an unsigned integer: decimal digits, most significant
    first, no leading zero, ["0"] for zero. The digits are produced from
    the least significant one; a [uint64] has at most twenty of them. *)
Fixpoint fmtDecimal (more : nat) (u : Z) (acc : string) : string :=
  let acc' := String (char (48 + u mod 10)) acc in
  match more with
  | O => acc'
  | S k => if u / 10 =? 0 then acc' else fmtDecimal k (u / 10) acc'
  end.

Definition utoa (u : Z) : string := fmtDecimal 19 u EmptyString.

Fixpoint allChars (P : ascii -> bool) (s : string) : bool :=
  match s with
  | EmptyString => true
  | String c s' => P c && allChars P s'
  end.

End strconv.

(** ** External types: [netip.Addr] and the packets of [w3gs] *)

Module netip.
Import strconv.

(** The daemon opens [udp4] sockets only: an address is the zero [Addr] or
    an IPv4 address. *)
Inductive Addr :=
| AddrZero
| IPv4 (a b c d : Z).

#[export] Instance Addr_eq_dec : EqDecision Addr.
Proof. solve_decision. Defined.

Definition AddrString (ip : Addr) : string :=
  match ip with
  | AddrZero => "invalid IP"
  | IPv4 a b c d => utoa a +:+ "." +:+ utoa b +:+ "." +:+ utoa c +:+ "." +:+ utoa d
  end.

Definition IsLoopback (ip : Addr) : bool :=
  match ip with
  | AddrZero => false
  | IPv4 a _ _ _ => a =? 127
  end.

Record UDPAddr := mkUDPAddr { udpIP : Addr; udpPort : Z }.

End netip.

Module w3gs.

(** [w3gs.GameInfo]: the fields the daemon reads. *)
Record GameInfo := mkGameInfo {
  GameName : string;
  HostCounter : Z;
  SlotsUsed : Z;
  SlotsTotal : Z;
  SlotsAvailable : Z;
  GamePort : Z }.

Record GameVersion := mkGameVersion { Product : Z; Version : Z }.

Record SearchGame := mkSearchGame { sgGameVersion : GameVersion; sgHostCounter : Z }.

Record Join := mkJoin { jHostCounter : Z; jPlayerName : string }.

Inductive Packet :=
| PktGameInfo (info : GameInfo)
| PktSearchGame (q : SearchGame)
| PktJoin (j : Join)
| PktOther.

(** [w3gs.Deserialize] belongs to the protocol library; the development is
    parametric in it. It reads its argument and does not write to it. *)
Class Codec := { Deserialize : list Z -> option Packet }.

End w3gs.

(** ** game/game.go *)

Module game.
Import netip w3gs.

Definition Time := Z.

Definition loc := positive.

Definition SourceLocal : string := "local".
Definition SourceRemote : string := "remote".

(** A [[]byte] is the identity of its backing array ([None] is the nil
    slice); its bytes are in the store. Every [[]byte] of a [Game] spans
    its whole array. *)
Record Game := mkGame {
  Info : GameInfo;
  RawData : option loc;
  Source : string;
  PeerIP : Addr;
  PeerName : string;
  FirstSeen : Time;
  LastSeen : Time }.

Definition zeroGame : Game :=
  mkGame (mkGameInfo "" 0 0 0 0 0) None "" AddrZero "" 0 0.

Definition setFirstSeen (t : Time) (g : Game) : Game :=
  mkGame (Info g) (RawData g) (Source g) (PeerIP g) (PeerName g) t (LastSeen g).

Definition setLastSeen (t : Time) (g : Game) : Game :=
  mkGame (Info g) (RawData g) (Source g) (PeerIP g) (PeerName g) (FirstSeen g) t.

Definition Key (g : Game) : string :=
  if bool_decide (Source g = SourceLocal) then "local:" +:+ GameName (Info g)
  else AddrString (PeerIP g) +:+ ":" +:+ GameName (Info g).

End game.

(** ** The runtime: store, oracles, events and the monad of the daemon *)

Module rt.
Import netip w3gs game.

Class Runtime := {
  (** the [i]-th reading of the clock *)
  wall : nat -> Time;
  wall_mono : forall i j, (i <= j)%nat -> wall i <= wall j;
  (** the order in which the [i]-th [range] loop visits a map *)
  range : forall V, nat -> gmap string V -> list (string * V);
  range_perm : forall V i (m : gmap string V), range V i m ≡ₚ map_to_list m }.
Arguments range {_ _} _ _.

Inductive Level := LevelDebug | LevelInfo | LevelWarn | LevelError.

(** What the daemon does to its environment, in program order:
    - [OnChange s]: the registry calls [onChange] with the slice [s];
    - [WriteTo p dst]: [conn.WriteTo(p, dst)] on the broadcaster's socket;
    - [Send dst pkt]: [W3GSPacketConn.Send(dst, pkt)] on the probe socket;
    - [Log lvl msg]: a call of [slog] at level Info, Warn or Error;
    - [SetReadDeadline], [ConnRead], [CloseClient]: calls on the accepted
      connection; [Dial], [RemoteWrite], [CloseRemote]: the dial of the
      origin and calls on that connection;
    - [Relay]: the splice of the two connections. *)
Inductive Event :=
| OnChange (snapshot : option loc)
| WriteTo (payload : list Z) (dst : UDPAddr)
| Send (dst : UDPAddr) (pkt : SearchGame)
| Log (lvl : Level) (msg : string)
| SetReadDeadline (armed : bool)
| ConnRead (max : nat)
| Dial (address : string)
| RemoteWrite (payload : list Z)
| Relay
| CloseClient
| CloseRemote.

(** The store and the single [Registry] of the daemon. [steps] counts the
    uses of the oracles. *)
Record World := mkWorld {
  bytesAt : gmap loc (list Z);
  gameAt : gmap loc Game;
  gamesAt : gmap loc (list Game);
  games : gmap string loc;
  onChange : bool;
  steps : nat }.

Definition M (A : Type) : Type := World -> A * World * list Event.

#[export] Instance M_ret : MRet M := fun A a w => (a, w, []).
#[export] Instance M_bind : MBind M := fun A B f m w =>
  let '(a, w1, e1) := m w in
  let '(b, w2, e2) := f a w1 in
  (b, w2, e1 ++ e2).

Definition get : M World := fun w => (w, w, []).
Definition modify (f : World -> World) : M unit := fun w => (tt, f w, []).
Definition emit (e : Event) : M unit := fun w => (tt, w, [e]).

Definition tick (w : World) : World :=
  mkWorld (bytesAt w) (gameAt w) (gamesAt w) (games w) (onChange w) (S (steps w)).
Definition setBytesAt (f : gmap loc (list Z) -> gmap loc (list Z)) (w : World) : World :=
  mkWorld (f (bytesAt w)) (gameAt w) (gamesAt w) (games w) (onChange w) (steps w).
Definition setGameAt (f : gmap loc Game -> gmap loc Game) (w : World) : World :=
  mkWorld (bytesAt w) (f (gameAt w)) (gamesAt w) (games w) (onChange w) (steps w).
Definition setGamesAt (f : gmap loc (list Game) -> gmap loc (list Game)) (w : World) : World :=
  mkWorld (bytesAt w) (gameAt w) (f (gamesAt w)) (games w) (onChange w) (steps w).
Definition setGames (f : gmap string loc -> gmap string loc) (w : World) : World :=
  mkWorld (bytesAt w) (gameAt w) (gamesAt w) (f (games w)) (onChange w) (steps w).

(** [time.Now()] *)
Definition now `{Runtime} : M Time := fun w => (wall (steps w), tick w, []).

(** The sequence of entries a [for k, v := range m] loop visits. *)
Definition rangeMap `{Runtime} {V} (m : gmap string V) : M (list (string * V)) :=
  fun w => (range (steps w) m, tick w, []).

(** Allocation of a backing array of bytes, of a [Game] cell and of a
    backing array of games. *)
Definition makeBytes (bs : list Z) : M loc := fun w =>
  let a := fresh (dom (bytesAt w)) in (a, setBytesAt <[a := bs]> w, []).
Definition newGame (g : Game) : M loc := fun w =>
  let p := fresh (dom (gameAt w)) in (p, setGameAt <[p := g]> w, []).
Definition makeGames (gs : list Game) : M loc := fun w =>
  let a := fresh (dom (gamesAt w)) in (a, setGamesAt <[a := gs]> w, []).

(** Reading through a slice or a pointer. *)
Definition bytesOf (w : World) (s : option loc) : list Z :=
  match s with Some a => default [] (bytesAt w !! a) | None => [] end.
Definition gamesOf (w : World) (s : option loc) : list Game :=
  match s with Some a => default [] (gamesAt w !! a) | None => [] end.
Definition deref (w : World) (p : loc) : Game := default zeroGame (gameAt w !! p).

(** [s[i] = b] on a [[]byte]; [s[i] = g] on a [[]Game]. An index out of
    range panics in Go; the program never writes out of range. *)
Definition storeByte (a : loc) (i : nat) (b : Z) : M unit :=
  modify (setBytesAt (fun h => match h !! a with
                               | Some bs => <[a := <[i := b]> bs]> h
                               | None => h end)).
Definition storeGame (a : loc) (i : nat) (g : Game) : M unit :=
  modify (setGamesAt (fun h => match h !! a with
                               | Some gs => <[a := <[i := g]> gs]> h
                               | None => h end)).

(** [copy(dst, src)] on byte slices: the first [min(len dst, len src)]
    bytes of [src] replace those of [dst]. *)
Definition copyBytes (dst : loc) (src : list Z) : M unit :=
  modify (setBytesAt (fun h => match h !! dst with
                               | Some bs =>
                                   let n := Nat.min (length bs) (length src) in
                                   <[dst := take n src ++ drop n bs]> h
                               | None => h end)).

Abbreviation run m w := (m w) (only parsing).
Definition result {A} (x : A * World * list Event) : A := x.1.1.
Definition final {A} (x : A * World * list Event) : World := x.1.2.
Definition events {A} (x : A * World * list Event) : list Event := x.2.

Fixpoint forEach {A} (l : list A) (body : A -> M unit) : M unit :=
  match l with
  | [] => mret tt
  | x :: l' => body x ;; forEach l' body
  end.

End rt.

(** ** game/registry.go

    The fields of the [Registry] are [games] and [onChange] of the world.
    The lock serialises the methods: each one is a single step of the
    monad. Calls of [slog.Debug] are left out everywhere. *)

Module registry.
Import netip w3gs game rt.

Section with_runtime.
Context `{Runtime}.

(** [snapshot]: a fresh [[]Game] holding [*g] for every entry. *)
Definition snapshot : M (option loc) :=
  w ← get;
  it ← rangeMap (games w);
  a ← makeGames ((fun kp => deref w kp.2) <$> it);
  mret (Some a).

Definition notify : M unit :=
  w ← get;
  if onChange w then s ← snapshot; emit (OnChange s) else mret tt.

Definition Add (game : Game) : M bool :=
  w ← get;
  let key := Key game in
  let exists_ := bool_decide (is_Some (games w !! key)) in
  game ← (if exists_ then mret game
          else t ← now; mret (setFirstSeen t game));
  t ← now;
  p ← newGame (setLastSeen t game);
  modify (setGames <[key := p]>);;
  notify;;
  mret (negb exists_).

Definition Remove (key : string) : M bool :=
  w ← get;
  if bool_decide (is_Some (games w !! key)) then
    modify (setGames (delete key));;
    notify;;
    mret true
  else mret false.

Definition Games : M (option loc) := snapshot.

Definition filterSource (w : World) (src : string) (it : list (string * loc)) : list Game :=
  filter (fun g => Source g = src) ((fun kp => deref w kp.2) <$> it).

Definition LocalGames : M (option loc) :=
  w ← get;
  it ← rangeMap (games w);
  a ← makeGames (filterSource w SourceLocal it);
  mret (Some a).

Definition RemoteGames : M (option loc) :=
  w ← get;
  it ← rangeMap (games w);
  a ← makeGames (filterSource w SourceRemote it);
  mret (Some a).

(** The loop of [FindByHostCounter]: the first visited entry that is
    remote and carries the host counter. *)
Fixpoint findLoop (w : World) (hostCounter : Z) (it : list (string * loc)) : option Game :=
  match it with
  | [] => None
  | (_, p) :: rest =>
      let g := deref w p in
      if bool_decide (Source g = SourceRemote) && (HostCounter (Info g) =? hostCounter)
      then Some g
      else findLoop w hostCounter rest
  end.

(** [gameCopy := *g; return &gameCopy]: the result points to a new cell. *)
Definition FindByHostCounter (hostCounter : Z) : M (option loc) :=
  w ← get;
  it ← rangeMap (games w);
  match findLoop w hostCounter it with
  | Some g => p ← newGame g; mret (Some p)
  | None => mret None
  end.

(** [Game.IsStale] (game.go): [time.Since(g.LastSeen) > timeout]. *)
Definition IsStale (timeout : Z) (g : Game) : M bool :=
  t ← now;
  mret (timeout <? t - LastSeen g).

(** The loop of [Expire]; deleting the entry being visited does not
    disturb the iteration. *)
Fixpoint expireLoop (timeout : Z) (it : list (string * loc)) (removed : nat) : M nat :=
  match it with
  | [] => mret removed
  | (key, p) :: rest =>
      w ← get;
      stale ← IsStale timeout (deref w p);
      if (stale : bool) then
        modify (setGames (delete key));;
        expireLoop timeout rest (S removed)
      else expireLoop timeout rest removed
  end.

Definition Expire (timeout : Z) : M nat :=
  w ← get;
  it ← rangeMap (games w);
  removed ← expireLoop timeout it 0%nat;
  (if Nat.ltb 0 removed then notify else mret tt);;
  mret removed.

(** Vocabulary of the statements about reads. A caller sees a game
    together with the bytes its [RawData] holds at that moment. *)
Definition view (w : World) (g : Game) : Game * list Z := (g, bytesOf w (RawData g)).

Inductive Op :=
| OpAdd (g : Game)
| OpRemove (key : string)
| OpGames
| OpLocalGames
| OpRemoteGames
| OpFindByHostCounter (hostCounter : Z)
| OpExpire (timeout : Z).

Inductive Value :=
| VBool (b : bool)
| VInt (n : nat)
| VGames (s : option loc)
| VGame (p : option loc).

Definition exec (op : Op) : M Value :=
  match op with
  | OpAdd g => b ← Add g; mret (VBool b)
  | OpRemove key => b ← Remove key; mret (VBool b)
  | OpGames => s ← Games; mret (VGames s)
  | OpLocalGames => s ← LocalGames; mret (VGames s)
  | OpRemoteGames => s ← RemoteGames; mret (VGames s)
  | OpFindByHostCounter hc => p ← FindByHostCounter hc; mret (VGame p)
  | OpExpire timeout => n ← Expire timeout; mret (VInt n)
  end.

Inductive Seen :=
| SBool (b : bool)
| SInt (n : nat)
| SGames (gs : list (Game * list Z))
| SGame (g : option (Game * list Z))
| SNotified (gs : list (Game * list Z))
| SOther.

Definition see (w : World) (v : Value) : Seen :=
  match v with
  | VBool b => SBool b
  | VInt n => SInt n
  | VGames s => SGames (view w <$> gamesOf w s)
  | VGame p => SGame ((fun q => view w (deref w q)) <$> p)
  end.

Definition seeEvent (w : World) (e : Event) : Seen :=
  match e with
  | OnChange s => SNotified (view w <$> gamesOf w s)
  | _ => SOther
  end.

(** What a sequence of registry calls returns and notifies, call by call. *)
Fixpoint history (ops : list Op) (w : World) : list (Seen * list Seen) :=
  match ops with
  | [] => []
  | op :: rest =>
      let r := run (exec op) w in
      (see (final r) (result r), seeEvent (final r) <$> events r) :: history rest (final r)
  end.

(** The entry of the registry under a key, and the entries that
    [FindByHostCounter] looks for. *)
Definition stored (w : World) (key : string) : option Game :=
  deref w <$> games w !! key.

Definition isMatch (w : World) (hostCounter : Z) (key : string) (p : loc) : Prop :=
  games w !! key = Some p
  /\ Source (deref w p) = SourceRemote
  /\ HostCounter (Info (deref w p)) = hostCounter.

(** The holder of a [[]Game] assigns to its elements or to their fields:
    the array [a] ends up with some contents [gs]. *)
Definition writeGames (a : loc) (gs : list Game) (w : World) : World :=
  setGamesAt <[a := gs]> w.

(** The holder of a [[]byte] assigns to one of its bytes. *)
Definition writeByte (a : loc) (i : nat) (b : Z) (w : World) : World :=
  final (run (storeByte a i b) w).

(** A computation commutes with a write to the allocated array [a] when
    running it after the write gives what running it before the write
    gives. *)
Definition commutes {A} (a : loc) (gs : list Game) (m : M A) : Prop :=
  forall w, a ∈ dom (gamesAt w) ->
    run m (writeGames a gs w)
    = (result (run m w), writeGames a gs (final (run m w)), events (run m w))
    /\ a ∈ dom (gamesAt (final (run m w))).

End with_runtime.

Definition NewRegistry (withOnChange : bool) : World :=
  mkWorld ∅ ∅ ∅ ∅ withOnChange 0.

End registry.

(** ** lan/broadcaster.go *)

Module lan.
Import netip w3gs game rt.

Definition DefaultPort : Z := 6112.
Definition minPacketSize : nat := 4.
Definition portFieldSize : nat := 2.
Definition byteShift8 : Z := 8.
Definition byteShift16 : Z := 16.
Definition byteShift24 : Z := 24.

Record Broadcaster := mkBroadcaster {
  bGames : option loc;
  previousGameKeys : gmap string Z;
  proxyPort : Z;
  broadcastAddr : UDPAddr }.

Definition NewBroadcaster (proxyPort : Z) : Broadcaster :=
  mkBroadcaster None ∅ proxyPort (mkUDPAddr (IPv4 255 255 255 255) DefaultPort).

Definition OnGamesChanged (games : option loc) (b : Broadcaster) : Broadcaster :=
  mkBroadcaster games (previousGameKeys b) (proxyPort b) (broadcastAddr b).

Definition sendRawGameInfo (b : Broadcaster) (g : Game) : M unit :=
  w ← get;
  let raw := bytesOf w (RawData g) in
  if (length raw <? minPacketSize)%nat then mret tt
  else
    data ← makeBytes (replicate (length raw) 0);
    copyBytes data raw;;
    let portIdx := (length raw - portFieldSize)%nat in
    storeByte data portIdx (Go.byte (proxyPort b));;
    storeByte data (portIdx + 1)%nat (Go.byte (Z.shiftr (proxyPort b) byteShift8));;
    w' ← get;
    emit (WriteTo (bytesOf w' (Some data)) (broadcastAddr b)).

Definition refreshPacket (hostCounter slotsUsed slotsAvailable : Z) : list Z :=
  [ 247; 50; 16; 0;
    Go.byte hostCounter; Go.byte (Z.shiftr hostCounter byteShift8);
    Go.byte (Z.shiftr hostCounter byteShift16); Go.byte (Z.shiftr hostCounter byteShift24);
    Go.byte slotsUsed; Go.byte (Z.shiftr slotsUsed byteShift8);
    Go.byte (Z.shiftr slotsUsed byteShift16); Go.byte (Z.shiftr slotsUsed byteShift24);
    Go.byte slotsAvailable; Go.byte (Z.shiftr slotsAvailable byteShift8);
    Go.byte (Z.shiftr slotsAvailable byteShift16); Go.byte (Z.shiftr slotsAvailable byteShift24) ].

Definition sendRefreshGame (b : Broadcaster) (hostCounter slotsUsed slotsAvailable : Z) : M unit :=
  emit (WriteTo (refreshPacket hostCounter slotsUsed slotsAvailable) (broadcastAddr b)).

Definition decreatePacket (hostCounter : Z) : list Z :=
  [ 247; 51; 8; 0;
    Go.byte hostCounter; Go.byte (Z.shiftr hostCounter byteShift8);
    Go.byte (Z.shiftr hostCounter byteShift16); Go.byte (Z.shiftr hostCounter byteShift24) ].

Definition sendDecreateGame (b : Broadcaster) (hostCounter : Z) : M unit :=
  emit (WriteTo (decreatePacket hostCounter) (broadcastAddr b)).

(** The first loop of [broadcastGames], over [b.games]. *)
Fixpoint announceLoop (b : Broadcaster) (gs : list Game) (currentKeys : gmap string Z)
  : M (gmap string Z) :=
  match gs with
  | [] => mret currentKeys
  | g :: rest =>
      if bool_decide (Source g ≠ SourceRemote) then announceLoop b rest currentKeys
      else
        let key := Key g in
        let currentKeys := <[key := HostCounter (Info g)]> currentKeys in
        sendRawGameInfo b g;;
        sendRefreshGame b (HostCounter (Info g)) (SlotsUsed (Info g)) (SlotsAvailable (Info g));;
        announceLoop b rest currentKeys
  end.

(** The second loop, over [b.previousGameKeys]. *)
Definition cancelLoop (b : Broadcaster) (currentKeys : gmap string Z)
    (it : list (string * Z)) : M unit :=
  forEach it (fun kh =>
    if bool_decide (is_Some (currentKeys !! kh.1)) then mret tt
    else sendDecreateGame b kh.2).

Definition broadcastGames `{Runtime} (b : Broadcaster) : M Broadcaster :=
  w ← get;
  currentKeys ← announceLoop b (gamesOf w (bGames b)) ∅;
  it ← rangeMap (previousGameKeys b);
  cancelLoop b currentKeys it;;
  mret (mkBroadcaster (bGames b) currentKeys (proxyPort b) (broadcastAddr b)).

(** Vocabulary of the statements about a tick: the keys of the remote
    games of a list, and the host counter last seen for each of them. *)
Definition isRemote (g : Game) : bool := bool_decide (Source g = SourceRemote).

Definition remoteKeys (gs : list Game) : gset string :=
  list_to_set (Key <$> List.filter isRemote gs).

Definition lastHostCounters (gs : list Game) : gmap string Z :=
  list_to_map (reverse ((fun g => (Key g, HostCounter (Info g))) <$> List.filter isRemote gs)).

Definition isRemoved (current : gset string) (kh : string * Z) : Prop := kh.1 ∉ current.

(** An event of the first loop: the announcement or the RefreshGame of a
    remote game of the list. *)
Definition isAnnouncement (b : Broadcaster) (gs : list Game) (e : Event) : Prop :=
  exists g, g ∈ gs /\ Source g = SourceRemote
    /\ (e = WriteTo (refreshPacket (HostCounter (Info g)) (SlotsUsed (Info g))
                       (SlotsAvailable (Info g))) (broadcastAddr b)
        \/ exists w', e ∈ events (run (sendRawGameInfo b g) w')).

#[export] Instance isRemoved_dec current kh : Decision (isRemoved current kh).
Proof. unfold isRemoved. apply _. Defined.

End lan.

(** ** tailscale (the [Peer] record) and peer/manager.go *)

Module tailscale.
Import netip.

Record Peer := mkPeer {
  Name : string;
  IP : Addr;
  Online : bool;
  OS : string }.

End tailscale.

Module peer.
Import netip w3gs game rt tailscale.

Definition udpBufferSize : nat := 512.

Record Manager := mkManager {
  version : GameVersion;
  peers : list Peer }.

Definition SetVersion (v : GameVersion) (m : Manager) : Manager :=
  mkManager v (peers m).

Definition probeLocal (version : GameVersion) : M unit :=
  emit (Send (mkUDPAddr (IPv4 127 0 0 1) lan.DefaultPort) (mkSearchGame version 0)).

Definition probePeer (peerIP : Addr) (version : GameVersion) : M unit :=
  emit (Send (mkUDPAddr peerIP lan.DefaultPort) (mkSearchGame version 0)).

Definition probeAllPeers (m : Manager) : M unit :=
  let peers := peers m in
  let version := version m in
  if Version version =? 0 then mret tt
  else
    probeLocal version;;
    forEach peers (fun peer =>
      if Online peer then probePeer (IP peer) version else mret tt).

Definition Refresh (m : Manager) : M unit := probeAllPeers m.

Definition OnPeersChanged (peers : list Peer) (m : Manager) : M Manager :=
  let m := mkManager (version m) peers in
  probeAllPeers m;;
  mret m.

(** One firing of the ticker in [Run]. *)
Definition onTick (m : Manager) : M unit := probeAllPeers m.

Fixpoint findPeerName (ip : Addr) (peers : list Peer) : string :=
  match peers with
  | [] => ""
  | peer :: rest => if bool_decide (IP peer = ip) then Name peer else findPeerName ip rest
  end.

Section with_runtime.
Context `{Runtime} `{Codec}.

(** [handleGameInfo]: the literal passed to [Add] leaves [FirstSeen] and
    [LastSeen] at their zero value. *)
Definition handleGameInfo (m : Manager) (pkt : GameInfo) (rawData : loc) (peerIP : Addr)
  : M unit :=
  let '(source, peerName) :=
    if IsLoopback peerIP then (SourceLocal, "local"%string)
    else (SourceRemote, findPeerName peerIP (peers m)) in
  registry.Add (mkGame pkt (Some rawData) source peerIP peerName 0 0);;
  mret tt.

(** One iteration of [receiveLoop] on a datagram [data] from [from]:
    [ReadFrom] keeps what fits the buffer. *)
Definition receive (m : Manager) (data : list Z) (from : Addr) : M unit :=
  let data := take udpBufferSize data in
  rawData ← makeBytes data;
  match Deserialize data with
  | Some (PktGameInfo info) => handleGameInfo m info rawData from
  | _ => mret tt
  end.

End with_runtime.

End peer.

(** ** proxy/tcp.go *)

Module proxy.
Import netip w3gs game rt strconv.

Definition maxJoinPacketSize : nat := 512.

(** What the two connections answer during one run of [handleConnection]:
    [incoming] is the data [Read] finds on the client connection ([None]
    when it returns an error, a timeout included). *)
Record ConnEnv := mkConnEnv {
  armDeadlineFails : bool;
  incoming : option (list Z);
  clearDeadlineFails : bool;
  dialFails : bool;
  writeFails : bool }.

Inductive JoinError :=
| ErrSetDeadline
| ErrRead
| ErrClearDeadline
| ErrDeserialize
| ErrUnexpectedPacketType.

Definition JoinHostPort (host port : string) : string := host +:+ ":" +:+ port.

Section with_runtime.
Context `{Runtime} `{Codec}.

(** [Read] fills at most [len(buf)] bytes of [buf]; [initialPacket] is
    [buf[:n]], the bytes read. *)
Definition readJoinPacket (env : ConnEnv) : M (Join * list Z + JoinError) :=
  emit (SetReadDeadline true);;
  if armDeadlineFails env then mret (inr ErrSetDeadline)
  else
    emit (ConnRead maxJoinPacketSize);;
    match incoming env with
    | None => mret (inr ErrRead)
    | Some data =>
        emit (SetReadDeadline false);;
        if clearDeadlineFails env then mret (inr ErrClearDeadline)
        else
          let initialPacket := take maxJoinPacketSize data in
          match Deserialize initialPacket with
          | None => mret (inr ErrDeserialize)
          | Some (PktJoin joinPkt) => mret (inl (joinPkt, initialPacket))
          | Some _ => mret (inr ErrUnexpectedPacketType)
          end
    end.

Definition connectToRemote (g : Game) : M unit :=
  emit (Dial (JoinHostPort (AddrString (PeerIP g)) (utoa (GamePort (Info g))))).

(** [handleConnection]; the deferred closes run when it returns, the
    remote one first. *)
Definition handleConnection (env : ConnEnv) : M unit :=
  emit (Log LevelInfo "received TCP connection");;
  r ← readJoinPacket env;
  match r with
  | inr _ =>
      emit (Log LevelError "failed to read Join packet");;
      emit CloseClient
  | inl (joinPkt, initialPacket) =>
      emit (Log LevelInfo "parsed Join packet");;
      remoteGame ← registry.FindByHostCounter (jHostCounter joinPkt);
      match remoteGame with
      | None =>
          allGames ← registry.Games;
          w ← get;
          forEach (gamesOf w allGames) (fun _ => emit (Log LevelInfo "registry game"));;
          emit (Log LevelWarn "no remote game found for HostCounter");;
          emit CloseClient
      | Some p =>
          w ← get;
          let remoteGame := deref w p in
          emit (Log LevelInfo "found remote game");;
          connectToRemote remoteGame;;
          if dialFails env then
            emit (Log LevelError "failed to connect to remote game");;
            emit CloseClient
          else
            emit (Log LevelInfo "proxying connection");;
            emit (RemoteWrite initialPacket);;
            if writeFails env then
              emit (Log LevelError "failed to forward Join packet");;
              emit CloseRemote;;
              emit CloseClient
            else
              emit Relay;;
              emit CloseRemote;;
              emit CloseClient
      end
  end.

End with_runtime.

(** Events that involve the origin host. Every write to the client
    happens inside the splice, [Relay]. *)
Definition reachesOrigin (e : Event) : bool :=
  match e with
  | Dial _ | RemoteWrite _ | Relay | CloseRemote => true
  | _ => false
  end.

(** The trace of a connection whose Join is read and decoded, up to the
    registry lookup. *)
Definition joinRead : list Event :=
  [ Log LevelInfo "received TCP connection";
    SetReadDeadline true; ConnRead maxJoinPacketSize; SetReadDeadline false;
    Log LevelInfo "parsed Join packet" ].

(** The trace from a successful lookup of [g] on. *)
Definition forwarding (env : ConnEnv) (g : Game) (initialPacket : list Z) : list Event :=
  [ Log LevelInfo "found remote game";
    Dial (JoinHostPort (AddrString (PeerIP g)) (utoa (GamePort (Info g)))) ]
  ++ (if dialFails env then
        [ Log LevelError "failed to connect to remote game"; CloseClient ]
      else
        [ Log LevelInfo "proxying connection"; RemoteWrite initialPacket ]
        ++ (if writeFails env then
              [ Log LevelError "failed to forward Join packet"; CloseRemote; CloseClient ]
            else [ Relay; CloseRemote; CloseClient ])).

Definition beforeSplice (e : Event) : Prop :=
  e ≠ Relay /\ forall payload, e ≠ RemoteWrite payload.

End proxy.

(** ** config/config.go *)

Module config.
Import strconv.

(** [ParseVersion]: the error of [ParseUint] is returned wrapped in a
    message; the model keeps its kind. *)
Definition ParseVersion (s : string) : result Z :=
  let s := TrimSpace s in
  let s := let '(after, found) := CutPrefix s "1." in if found then after else s in
  match ParseUint10 s 32 with
  | Err e => Err e
  | Ok v => Ok (v mod 2 ^ 32)
  end.

Definition FormatVersion (v : Z) : string := "1." +:+ utoa v.

Definition SupportedVersions : list Z := [26; 27; 28].

End config.


(** ** Concrete oracles and states used to instantiate the statements *)

Module sample.
Import netip w3gs game rt.

(** A clock that advances by one unit per reading from 1000 on, and maps
    visited in the order of [map_to_list]. *)
#[export] Instance runtime : Runtime.
Proof.
  refine {| wall := fun i => 1000 + Z.of_nat i;
            range := fun V _ m => map_to_list m |}.
  - intros i j Hij. lia.
  - intros V i m. reflexivity.
Defined.

(** A decoder that recognises the header of a [Join] (F7 1E) and of a
    [GameInfo] (F7 30) and reads the host counter that follows it. *)
Definition decode (bs : list Z) : option Packet :=
  match bs with
  | m :: op :: _ :: _ :: h0 :: h1 :: h2 :: h3 :: _ =>
      if negb (m =? 247) then None
      else if op =? 30 then Some (PktJoin (mkJoin (Go.le_decode [h0; h1; h2; h3]) "p"))
      else if op =? 48 then
        Some (PktGameInfo (mkGameInfo "g1" (Go.le_decode [h0; h1; h2; h3]) 1 8 7 6112))
      else Some PktOther
  | _ => None
  end.

#[export] Instance codec : Codec := {| Deserialize := decode |}.

Definition p1 : Addr := IPv4 100 64 0 2.

(** A [GameInfo] datagram for game "g1" with host counter 7 and game
    port 6112 (E0 17), and a [Join] for host counter 7. *)
Definition gameInfoBytes : list Z := [247; 48; 12; 0; 7; 0; 0; 0; 1; 8; 224; 23].
Definition joinBytes (hc : Z) : list Z := [247; 30; 10; 0; hc; 0; 0; 0; 0; 0].

Definition manager : peer.Manager :=
  peer.mkManager (mkGameVersion 1462982736 26)
    [tailscale.mkPeer "P1" p1 true "linux"; tailscale.mkPeer "P2" (IPv4 100 64 0 3) false "linux"].

(** The registry after one datagram from P1 (scenario 1 of the
    specification), and after the same datagram a second time. *)
Definition world0 : World := registry.NewRegistry true.
Definition world1 : World := final (run (peer.receive manager gameInfoBytes p1) world0).
Definition world2 : World := final (run (peer.receive manager gameInfoBytes p1) world1).

End sample.

(** ** peer/responder.go *)

Module responder.
Import netip w3gs game rt.

Section with_runtime.
Context `{Runtime}.

(** [onSearchGame]: [from] is the requester address of the event, [None]
    when it is not a [*net.UDPAddr]. *)
Definition onSearchGame (from : option UDPAddr) : M unit :=
  match from with
  | None => mret tt
  | Some udpAddr =>
      games ← registry.LocalGames;
      w ← get;
      forEach (gamesOf w games) (fun g =>
        if (length (bytesOf w (RawData g)) =? 0)%nat
        then emit (Log LevelWarn "game has no RawData, skipping")
        else emit (WriteTo (bytesOf w (RawData g)) udpAddr))
  end.

End with_runtime.

End responder.

(** ** cmd/wc3ts/run.go *)

Module cmd.
Import netip w3gs game rt.

(** [safeUint16]: an [int] clamped to the range of [uint16]. *)
Definition safeUint16 (n : Z) : Z :=
  if n <? 0 then 0
  else if Go.maxUint16 <? n then Go.maxUint16
  else n.

(** [initServices] creates the broadcaster from the port of the proxy. *)
Definition newBroadcaster (proxyPort : Z) : lan.Broadcaster :=
  lan.NewBroadcaster (safeUint16 proxyPort).

(** [versionCallback] of [runExec]: the version chosen in the terminal is
    put into the configured [GameVersion] and handed to the probe engine. *)
Definition versionCallback (cfgGameVersion : GameVersion) (v : Z) (m : peer.Manager)
  : M peer.Manager :=
  let newVersion := mkGameVersion (Product cfgGameVersion) v in
  let m := peer.SetVersion newVersion m in
  emit (Log LevelInfo "version changed");;
  mret m.

(** [refreshCallback] of [runExec]. *)
Definition refreshCallback (m : peer.Manager) : M unit := peer.Refresh m.

End cmd.

(** ** tui/update.go: the parts that feed the core *)

Module tui.
Import config.

Definition maxLogLines : nat := 10.

(** [Update] on a [LogMsg]: append, then keep the last [maxLogLines]. *)
Definition updateLog (logs : list string) (message : string) : list string :=
  let logs := logs ++ [message] in
  if (maxLogLines <? length logs)%nat then drop (length logs - maxLogLines) logs
  else logs.

(** Go's [int] is 64 bits wide and wraps. *)
Definition wrapInt (x : Z) : Z := (x + 2 ^ 63) mod 2 ^ 64 - 2 ^ 63.

(** The search loop of [cycleVersion]: the first index that holds the
    version, [-1] when there is none. *)
Fixpoint findVersion (versions : list Z) (version : Z) (i : Z) : Z :=
  match versions with
  | [] => -1
  | v :: rest => if v =? version then i else findVersion rest version (i + 1)
  end.

(** [cycleVersion]: the new [m.version.Version], which is also what the
    callback receives; [None] stands for an index out of range. *)
Definition cycleVersion (delta : Z) (version : Z) : option Z :=
  let versions := SupportedVersions in
  let currentIdx := findVersion versions version 0 in
  let currentIdx :=
    if currentIdx =? -1 then 0
    else
      let currentIdx := wrapInt (currentIdx + delta) in
      if currentIdx <? 0 then Z.of_nat (length versions) - 1
      else if Z.of_nat (length versions) <=? currentIdx then 0
      else currentIdx in
  if currentIdx <? 0 then None else versions !! Z.to_nat currentIdx.

(** [updatePeerGameCounts]: the shared map is emptied, visiting its keys
    in the order [it], then the remote games are counted by the text of
    their peer address; a missing key reads as 0. *)
Definition updatePeerGameCounts (it : list string) (peerGames : gmap string Z)
    (games : list game.Game) : gmap string Z :=
  let peerGames := foldl (fun m k => delete k m) peerGames it in
  foldl (fun m g =>
           if bool_decide (game.Source g = game.SourceRemote) then
             let ip := netip.AddrString (game.PeerIP g) in
             <[ip := wrapInt (default 0 (m !! ip) + 1)]> m
           else m) peerGames games.

(** The log pane of [View] (view.go): the placeholder, or the lines of
    [m.logs[startIdx:]]; a slice bound out of range panics. *)
Inductive LogPane :=
| NoLogsYet
| LogLines (lines : list string)
| SliceOutOfRange.

Definition viewLogs (logHeight : Z) (logs : list string) : LogPane :=
  if (length logs =? 0)%nat then NoLogsYet
  else
    let displayLines :=
      if (logHeight <=? 0) || (Z.of_nat maxLogLines <? logHeight) then Z.of_nat maxLogLines
      else logHeight in
    let startIdx :=
      if displayLines <? Z.of_nat (length logs) then Z.of_nat (length logs) - displayLines
      else 0 in
    if (startIdx <? 0) || (Z.of_nat (length logs) <? startIdx) then SliceOutOfRange
    else LogLines (drop (Z.to_nat startIdx) logs).

End tui.

(** ** Vocabulary of the further statements *)

Module vocabulary.
Import netip w3gs game rt registry lan strconv.

(** The games of the registry, one per key. *)
Definition entries (w : World) : list Game :=
  deref w <$> (map_to_list (games w)).*2.

(** Every pointer of the registry points to a cell of the store. *)
Definition wellFormed (w : World) : Prop :=
  forall k p, games w !! k = Some p -> p ∈ dom (gameAt w).

(** The world after a sequence of registry calls. *)
Fixpoint execAll `{Runtime} (ops : list Op) (w : World) : World :=
  match ops with
  | [] => w
  | op :: rest => execAll rest (final (run (exec op) w))
  end.

(** The keys a sequence of calls leaves, when none of them is [Expire]. *)
Definition keysAfter (ops : list Op) (keys : gset string) : gset string :=
  foldl (fun keys op =>
           match op with
           | OpAdd g => {[Key g]} ∪ keys
           | OpRemove k => keys ∖ {[k]}
           | _ => keys
           end) keys ops.

Definition isExpire (op : Op) : bool :=
  match op with OpExpire _ => true | _ => false end.

(** What a tick sends for one remote game: the raw packet with the port
    rewritten, unless it is shorter than four bytes, then the RefreshGame. *)
Definition announcementOf (b : Broadcaster) (w : World) (g : Game) : list Event :=
  let raw := bytesOf w (RawData g) in
  (if (length raw <? 4)%nat then []
   else [WriteTo (take (length raw - 2) raw
                    ++ [Go.byte (proxyPort b); Go.byte (Z.shiftr (proxyPort b) 8)])
           (broadcastAddr b)])
  ++ [WriteTo (refreshPacket (HostCounter (Info g)) (SlotsUsed (Info g))
                 (SlotsAvailable (Info g))) (broadcastAddr b)].

(** The raw packets of the games are arrays of the store. *)
Definition rawAllocated (w : World) (gs : list Game) : Prop :=
  forall g a, g ∈ gs -> RawData g = Some a -> a ∈ dom (bytesAt w).




Definition isIPv4 (ip : Addr) : Prop :=
  match ip with
  | IPv4 a b c d => Go.is_byte a /\ Go.is_byte b /\ Go.is_byte c /\ Go.is_byte d
  | AddrZero => False
  end.

(** The first read of a connection yields a Join: both deadline calls
    succeed, the read returns [data] and its first 512 bytes decode. *)
Definition joinArrives `{Codec} (env : proxy.ConnEnv) (data : list Z) (j : Join) : Prop :=
  proxy.armDeadlineFails env = false
  /\ proxy.incoming env = Some data
  /\ proxy.clearDeadlineFails env = false
  /\ Deserialize (take proxy.maxJoinPacketSize data) = Some (PktJoin j).

(** Kinds of events, and how many events of a kind a trace holds. *)
Definition isCloseClient (e : Event) : bool :=
  match e with CloseClient => true | _ => false end.
Definition isCloseRemote (e : Event) : bool :=
  match e with CloseRemote => true | _ => false end.
Definition isDial (e : Event) : bool :=
  match e with Dial _ => true | _ => false end.
Definition isRemoteWrite (e : Event) : bool :=
  match e with RemoteWrite _ => true | _ => false end.
Definition isRelay (e : Event) : bool :=
  match e with Relay => true | _ => false end.

Definition countEvents (p : Event -> bool) (evs : list Event) : nat :=
  length (List.filter p evs).

End vocabulary.

(** * Properties *)

(** ** Integers and bytes *)

Module GoFacts.
Import Go.

Lemma byte_mod x : byte x = x mod 256.
Proof. unfold byte. exact (Z.land_ones x 8 ltac:(lia)). Qed.

Lemma byte_range x : is_byte (byte x).
Proof.
  unfold is_byte. rewrite byte_mod.
  pose proof (Z.mod_pos_bound x 256). lia.
Qed.

Lemma le_decode_uint16 x :
  is_uint16 x -> le_decode [byte x; byte (Z.shiftr x 8)] = x.
Proof.
  unfold is_uint16, maxUint16. intros Hx. cbn [le_decode].
  rewrite !byte_mod, Z.shiftr_div_pow2 by lia. change (2 ^ 8) with 256.
  rewrite (Z.mod_small (x / 256)) by (split; [apply Z.div_pos | apply Z.div_lt_upper_bound]; lia).
  pose proof (Z.div_mod x 256). lia.
Qed.

Lemma le_decode_uint32 x :
  is_uint32 x ->
  le_decode [byte x; byte (Z.shiftr x 8); byte (Z.shiftr x 16); byte (Z.shiftr x 24)] = x.
Proof.
  unfold is_uint32, maxUint32. intros Hx. cbn [le_decode].
  rewrite !byte_mod, !Z.shiftr_div_pow2 by lia.
  change (2 ^ 8) with 256. change (2 ^ 16) with 65536. change (2 ^ 24) with 16777216.
  Z.div_mod_to_equations. lia.
Qed.

End GoFacts.

(** ** Decimal strings *)

Module StrconvFacts.
Import strconv.

Lemma code_char z : 0 <= z < 256 -> code (char z) = z.
Proof.
  intros Hz. unfold code, char.
  rewrite N_ascii_embedding by lia. lia.
Qed.

Lemma digit_char d :
  0 <= d < 10 -> isDigit (char (48 + d)) = true /\ code (char (48 + d)) - 48 = d.
Proof.
  intros Hd. unfold isDigit. rewrite code_char by lia. split; [|lia].
  apply andb_true_intro. split; apply Z.leb_le; lia.
Qed.

Lemma digit_not_space c : isDigit c = true -> isSpace c = false.
Proof.
  unfold isDigit, isSpace. intros [H1 H2]%andb_prop.
  apply Z.leb_le in H1. apply Z.leb_le in H2.
  apply orb_false_intro; [apply andb_false_intro2 | ]; lia.
Qed.

(** Parsing the digits that [fmtDecimal] puts in front of [acc] amounts to
    continuing with the number they denote. *)
Lemma parseLoop_fmtDecimal bits more :
  forall u acc,
    32 <= bits <= 64 ->
    0 <= u < 10 ^ Z.of_nat (S more) -> u <= Go.maxUint32 ->
    parseLoop (Go.maxUint64 / 10 + 1) (2 ^ bits - 1) (fmtDecimal more u acc) 0
    = parseLoop (Go.maxUint64 / 10 + 1) (2 ^ bits - 1) acc u.
Proof.
  intros u acc Hbits. revert u acc.
  assert (Hmax : Go.maxUint32 <= 2 ^ bits - 1).
  { assert (2 ^ 32 <= 2 ^ bits) by (apply Z.pow_le_mono_r; lia).
    unfold Go.maxUint32. lia. }
  assert (step : forall n u acc,
             0 <= n -> 0 <= u -> u <= Go.maxUint32 -> n * 10 + u mod 10 = u ->
             parseLoop (Go.maxUint64 / 10 + 1) (2 ^ bits - 1)
               (String (char (48 + u mod 10)) acc) n
             = parseLoop (Go.maxUint64 / 10 + 1) (2 ^ bits - 1) acc u).
  { intros n u acc Hn Hu Hle Hnu.
    pose proof (Z.mod_pos_bound u 10 ltac:(lia)) as Hd.
    destruct (digit_char (u mod 10) Hd) as [Hdig Hval].
    cbn [parseLoop]. rewrite Hdig, Hval.
    unfold Go.maxUint32, Go.maxUint64 in *.
    change (18446744073709551615 / 10 + 1) with 1844674407370955162.
    destruct (Z.leb_spec 1844674407370955162 n); [lia|].
    unfold Go.wrap64.
    rewrite (Z.mod_small (n * 10)) by lia.
    rewrite (Z.mod_small (n * 10 + u mod 10)) by lia.
    rewrite Hnu.
    destruct (Z.ltb_spec u (n * 10)); [lia|].
    destruct (Z.ltb_spec (2 ^ bits - 1) u); [lia|].
    reflexivity. }
  induction more as [|k IH]; intros u acc Hu Hle.
  - cbn [fmtDecimal]. apply step; try lia.
    change (10 ^ Z.of_nat 1) with 10 in Hu. rewrite Z.mod_small; lia.
  - cbn [fmtDecimal].
    assert (Hpow : 10 ^ Z.of_nat (S (S k)) = 10 * 10 ^ Z.of_nat (S k)).
    { rewrite (Nat2Z.inj_succ (S k)), Z.pow_succ_r by lia. reflexivity. }
    destruct (Z.eqb_spec (u / 10) 0) as [Hz|Hnz].
    + apply step; try lia.
      pose proof (Z.div_mod u 10 ltac:(lia)). lia.
    + rewrite IH.
      * apply step.
        -- apply Z.div_pos; lia.
        -- lia.
        -- lia.
        -- pose proof (Z.div_mod u 10 ltac:(lia)). lia.
      * split; [apply Z.div_pos; lia|].
        apply Z.div_lt_upper_bound; lia.
      * pose proof (Z.div_mod u 10 ltac:(lia)).
        pose proof (Z.mod_pos_bound u 10 ltac:(lia)). lia.
Qed.

Lemma fmtDecimal_nonempty more u acc : fmtDecimal more u acc <> EmptyString.
Proof.
  revert u acc. induction more as [|k IH]; intros u acc; cbn [fmtDecimal]; [done|].
  destruct (u / 10 =? 0); [done | apply IH].
Qed.

Lemma fmtDecimal_digits more :
  forall u acc, 0 <= u -> allChars isDigit acc = true ->
                allChars isDigit (fmtDecimal more u acc) = true.
Proof.
  assert (one : forall u acc, 0 <= u -> allChars isDigit acc = true ->
                              allChars isDigit (String (char (48 + u mod 10)) acc) = true).
  { intros u acc Hu Hacc. cbn [allChars]. rewrite Hacc.
    destruct (digit_char (u mod 10)) as [-> _]; [|done].
    apply Z.mod_pos_bound. lia. }
  induction more as [|k IH]; intros u acc Hu Hacc; cbn [fmtDecimal]; [by apply one|].
  destruct (u / 10 =? 0); [by apply one|].
  apply IH; [apply Z.div_pos; lia | by apply one].
Qed.

Lemma utoa_digits u : 0 <= u -> allChars isDigit (utoa u) = true.
Proof. intros Hu. by apply fmtDecimal_digits. Qed.

Lemma ParseUint10_utoa u : Go.is_uint32 u -> ParseUint10 (utoa u) 32 = Ok u.
Proof.
  unfold Go.is_uint32. intros Hu. unfold ParseUint10.
  pose proof (fmtDecimal_nonempty 19 u EmptyString) as Hne. fold (utoa u) in Hne.
  destruct (utoa u) eqn:E; [done|]. rewrite <- E. unfold utoa.
  rewrite parseLoop_fmtDecimal; [reflexivity | lia | | lia].
  unfold Go.maxUint32 in Hu. change (10 ^ Z.of_nat 20) with 100000000000000000000. lia.
Qed.

Lemma trimRight_id s : allChars (fun c => negb (isSpace c)) s = true -> trimRight s = s.
Proof.
  induction s as [|c s IH]; [done|]. cbn [allChars trimRight].
  intros [Hc Hs]%andb_prop. rewrite (IH Hs).
  apply negb_true_iff in Hc. rewrite Hc. by destruct s.
Qed.

Lemma TrimSpace_id s : allChars (fun c => negb (isSpace c)) s = true -> TrimSpace s = s.
Proof.
  intros Hs. unfold TrimSpace.
  assert (trimLeft s = s) as ->; [|by apply trimRight_id].
  destruct s as [|c s]; [done|]. cbn [allChars] in Hs. cbn [trimLeft].
  apply andb_prop in Hs as [Hc _]. apply negb_true_iff in Hc. by rewrite Hc.
Qed.

Lemma allChars_impl (P Q : ascii -> bool) s :
  (forall c, P c = true -> Q c = true) -> allChars P s = true -> allChars Q s = true.
Proof.
  intros HPQ. induction s as [|c s IH]; [done|]. cbn [allChars].
  intros [Hc Hs]%andb_prop. by rewrite (HPQ c Hc), (IH Hs).
Qed.

Lemma digits_no_space s :
  allChars isDigit s = true -> allChars (fun c => negb (isSpace c)) s = true.
Proof.
  apply allChars_impl. intros c Hc. by rewrite (digit_not_space c Hc).
Qed.

(** A string of digits does not start with ["1."]. *)
Lemma digits_CutPrefix s : allChars isDigit s = true -> CutPrefix s "1." = (s, false).
Proof.
  intros Hs. unfold CutPrefix.
  assert (String.prefix "1." s = false) as ->; [|done].
  destruct s as [|c [|c' s]]; [done| |].
  - cbn [String.prefix]. by destruct (ascii_dec _ _).
  - cbn [allChars] in Hs. apply andb_prop in Hs as [_ [Hc' _]%andb_prop].
    cbn [String.prefix]. destruct (ascii_dec _ c); [|done].
    destruct (ascii_dec _ c') as [<-|]; [|done]. discriminate Hc'.
Qed.

End StrconvFacts.

(** ** config/config.go: version strings *)

Module ConfigFacts.
Import strconv config StrconvFacts.

(** C10. For every [uint32] [v], [ParseVersion (FormatVersion v)] succeeds
    with exactly [v]; [ParseVersion] returns [v] for the plain decimal
    string of [v] and for that string prefixed with ["1."]. *)
Theorem ParseVersion_FormatVersion (v : Z) :
  Go.is_uint32 v ->
  ParseVersion (FormatVersion v) = Ok v
  /\ ParseVersion (utoa v) = Ok v
  /\ ParseVersion ("1." +:+ utoa v) = Ok v.
Proof.
  intros Hv.
  assert (Hd : allChars isDigit (utoa v) = true) by (apply utoa_digits; apply Hv).
  assert (Hmod : v mod 2 ^ 32 = v).
  { unfold Go.is_uint32, Go.maxUint32 in Hv. apply Z.mod_small. lia. }
  assert (Hdotted : ParseVersion ("1." +:+ utoa v) = Ok v).
  { change ("1." +:+ utoa v) with (String "1" (String "." (utoa v))).
    unfold ParseVersion.
    rewrite TrimSpace_id.
    - unfold CutPrefix. cbn [String.prefix String.length dropBytes].
      destruct (ascii_dec "1" "1"); [|done]. destruct (ascii_dec "." "."); [|done].
      assert (String.prefix "" (utoa v) = true) as -> by (by destruct (utoa v)).
      rewrite ParseUint10_utoa by done. by rewrite Hmod.
    - cbn [allChars]. by rewrite digits_no_space. }
  split; [exact Hdotted|]. split; [|exact Hdotted].
  unfold ParseVersion.
  rewrite TrimSpace_id by (by apply digits_no_space).
  rewrite digits_CutPrefix by done.
  rewrite ParseUint10_utoa by done. by rewrite Hmod.
Qed.

Lemma ParseVersion_FormatVersion_witness :
  Go.is_uint32 4294967295 /\ ParseVersion (FormatVersion 4294967295) = Ok 4294967295.
Proof.
  assert (H : Go.is_uint32 4294967295) by (unfold Go.is_uint32, Go.maxUint32; lia).
  split; [exact H | exact (proj1 (ParseVersion_FormatVersion 4294967295 H))].
Defined.

End ConfigFacts.

(** ** The monad *)

Module RtFacts.
Import netip w3gs game rt.

Lemma run_bind {A B} (m : M A) (f : A -> M B) (w : World) :
  run (m ≫= f) w =
  let '(a, w1, e1) := run m w in
  let '(b, w2, e2) := run (f a) w1 in
  (b, w2, e1 ++ e2).
Proof. reflexivity. Qed.

(** A loop whose body only emits leaves the world as it is and emits the
    outputs of its iterations in order. *)
Lemma forEach_emits {A} (out : A -> list Event) (body : A -> M unit) (l : list A) (w : World) :
  (forall x w, run (body x) w = (tt, w, out x)) ->
  run (forEach l body) w = (tt, w, concat (out <$> l)).
Proof.
  intros Hbody. induction l as [|x l IH]; [reflexivity|].
  cbn [forEach]. unfold mbind, M_bind.
  rewrite Hbody, IH. reflexivity.
Qed.

End RtFacts.

(** ** lan/broadcaster.go: control packets *)

Module LanWire.
Import netip w3gs game rt lan GoFacts RtFacts.

(** C8. Every RefreshGame packet is exactly the 16 bytes F7 32 10 00
    followed by hostCounter, slotsUsed and slotsAvailable as 4-byte
    little-endian integers; every DecreateGame packet is exactly the
    8 bytes F7 33 08 00 followed by hostCounter as 4-byte little-endian. *)
Theorem control_packets_wire_format (b : Broadcaster) (hostCounter slotsUsed slotsAvailable : Z)
    (w : World) :
  Go.is_uint32 hostCounter -> Go.is_uint32 slotsUsed -> Go.is_uint32 slotsAvailable ->
  (exists p,
      events (run (sendRefreshGame b hostCounter slotsUsed slotsAvailable) w)
      = [WriteTo p (broadcastAddr b)]
      /\ length p = 16%nat
      /\ Forall Go.is_byte p
      /\ take 4 p = [247; 50; 16; 0]
      /\ Go.le_decode (take 4 (drop 4 p)) = hostCounter
      /\ Go.le_decode (take 4 (drop 8 p)) = slotsUsed
      /\ Go.le_decode (take 4 (drop 12 p)) = slotsAvailable)
  /\ (exists p,
      events (run (sendDecreateGame b hostCounter) w) = [WriteTo p (broadcastAddr b)]
      /\ length p = 8%nat
      /\ Forall Go.is_byte p
      /\ take 4 p = [247; 51; 8; 0]
      /\ Go.le_decode (drop 4 p) = hostCounter).
Proof.
  intros Hh Hu Ha.
  assert (Hconst : forall c, 0 <= c <= 255 -> Go.is_byte c) by (intros c Hc; exact Hc).
  split.
  - exists (refreshPacket hostCounter slotsUsed slotsAvailable).
    split; [reflexivity|]. split; [reflexivity|]. split.
    + unfold refreshPacket.
      repeat (apply Forall_cons; split; [first [apply byte_range | apply Hconst; lia]|]).
      apply Forall_nil_2.
    + split; [reflexivity|].
      unfold refreshPacket; cbn [take drop].
      unfold byteShift8, byteShift16, byteShift24.
      rewrite !le_decode_uint32 by assumption. done.
  - exists (decreatePacket hostCounter).
    split; [reflexivity|]. split; [reflexivity|]. split.
    + unfold decreatePacket.
      repeat (apply Forall_cons; split; [first [apply byte_range | apply Hconst; lia]|]).
      apply Forall_nil_2.
    + split; [reflexivity|].
      unfold decreatePacket; cbn [take drop].
      unfold byteShift8, byteShift16, byteShift24.
      by rewrite le_decode_uint32.
Qed.

Lemma control_packets_wire_format_witness :
  events (run (sendRefreshGame (NewBroadcaster 40000) 7 1 7) sample.world1)
  = [WriteTo [247; 50; 16; 0; 7; 0; 0; 0; 1; 0; 0; 0; 7; 0; 0; 0]
       (mkUDPAddr (IPv4 255 255 255 255) 6112)]
  /\ events (run (sendDecreateGame (NewBroadcaster 40000) 4294967295) sample.world1)
  = [WriteTo [247; 51; 8; 0; 255; 255; 255; 255] (mkUDPAddr (IPv4 255 255 255 255) 6112)].
Proof.
  assert (H7 : Go.is_uint32 7) by (unfold Go.is_uint32, Go.maxUint32; lia).
  assert (H1 : Go.is_uint32 1) by (unfold Go.is_uint32, Go.maxUint32; lia).
  assert (Hm : Go.is_uint32 4294967295) by (unfold Go.is_uint32, Go.maxUint32; lia).
  split.
  - destruct (control_packets_wire_format (NewBroadcaster 40000) 7 1 7 sample.world1 H7 H1 H7)
      as [[p [Hp _]] _].
    rewrite Hp. vm_compute in Hp. inversion Hp. reflexivity.
  - destruct (control_packets_wire_format (NewBroadcaster 40000) 4294967295 1 7 sample.world1 Hm H1 H7)
      as [_ [p [Hp _]]].
    rewrite Hp. vm_compute in Hp. inversion Hp. reflexivity.
Defined.

End LanWire.

(** ** peer/manager.go: probe cycles *)

Module PeerFacts.
Import netip w3gs game rt tailscale peer RtFacts.

Lemma probeAllPeers_run (m : Manager) (w : World) :
  run (probeAllPeers m) w =
  (tt, w,
   if Version (version m) =? 0 then []
   else Send (mkUDPAddr (IPv4 127 0 0 1) 6112) (mkSearchGame (version m) 0)
        :: ((fun p => Send (mkUDPAddr (IP p) 6112) (mkSearchGame (version m) 0))
              <$> List.filter Online (peers m))).
Proof.
  unfold probeAllPeers. destruct (Version (version m) =? 0); [reflexivity|].
  rewrite run_bind. unfold probeLocal, emit.
  rewrite (forEach_emits
             (fun p => if Online p then [Send (mkUDPAddr (IP p) 6112) (mkSearchGame (version m) 0)]
                       else [])).
  - cbn. do 2 f_equal.
    induction (peers m) as [|p l IH]; [reflexivity|].
    cbn [fmap list_fmap concat List.filter]. destruct (Online p); cbn; by rewrite <- IH.
  - intros p w'. by destruct (Online p).
Qed.

(** C9. While the stored version has [Version = 0] a probe cycle sends no
    datagram, whether the ticker, [Refresh] or [OnPeersChanged] starts it;
    with a non-zero version each cycle sends one SearchGame to
    127.0.0.1:6112 and one to port 6112 of each online peer. *)
Theorem version_zero_suppresses_probing (m : Manager) (v : GameVersion) (ps : list Peer)
    (w : World) :
  let m' := SetVersion v m in
  let query := mkSearchGame v 0 in
  let cycle (peers : list Peer) :=
    Send (mkUDPAddr (IPv4 127 0 0 1) 6112) query
    :: ((fun p => Send (mkUDPAddr (IP p) 6112) query) <$> List.filter Online peers) in
  (Version v = 0 ->
     events (run (onTick m') w) = []
     /\ events (run (Refresh m') w) = []
     /\ events (run (OnPeersChanged ps m') w) = [])
  /\ (Version v <> 0 ->
     events (run (onTick m') w) = cycle (peers m)
     /\ events (run (Refresh m') w) = cycle (peers m)
     /\ events (run (OnPeersChanged ps m') w) = cycle ps).
Proof.
  intros m' query cycle.
  assert (Hev : forall m0, events (run (OnPeersChanged ps m0) w)
                           = events (run (probeAllPeers (mkManager (version m0) ps)) w)).
  { intros m0. unfold OnPeersChanged. rewrite run_bind, probeAllPeers_run.
    unfold events. cbn. by rewrite app_nil_r. }
  unfold onTick, Refresh. rewrite Hev, !probeAllPeers_run. unfold events. cbn.
  split; intros Hv.
  - rewrite Hv. done.
  - destruct (Z.eqb_spec (Version v) 0); done.
Qed.

Lemma version_zero_suppresses_probing_witness :
  (events (run (onTick (SetVersion (mkGameVersion 1462982736 0) sample.manager)) sample.world0) = [])
  /\ events (run (onTick (SetVersion (mkGameVersion 1462982736 26) sample.manager)) sample.world0)
     = [Send (mkUDPAddr (IPv4 127 0 0 1) 6112) (mkSearchGame (mkGameVersion 1462982736 26) 0);
        Send (mkUDPAddr (IPv4 100 64 0 2) 6112) (mkSearchGame (mkGameVersion 1462982736 26) 0)].
Proof.
  split.
  - apply (version_zero_suppresses_probing sample.manager (mkGameVersion 1462982736 0) []
             sample.world0).
    reflexivity.
  - apply (version_zero_suppresses_probing sample.manager (mkGameVersion 1462982736 26) []
             sample.world0).
    cbn. lia.
Defined.

End PeerFacts.

(** ** lan/broadcaster.go: announcements and cancellations *)

Module LanFacts.
Import netip w3gs game rt lan GoFacts RtFacts.

Lemma rewrite_tail (raw : list Z) (b0 b1 : Z) :
  (2 <= length raw)%nat ->
  <[(length raw - 2 + 1)%nat := b1]> (<[(length raw - 2)%nat := b0]> raw)
  = take (length raw - 2) raw ++ [b0; b1].
Proof.
  intros Hlen.
  assert (exists pre x y, raw = pre ++ [x; y]) as (pre & x & y & ->).
  { exists (take (length raw - 2) raw).
    assert (Hd : length (drop (length raw - 2) raw) = 2%nat) by (rewrite length_drop; lia).
    destruct (drop (length raw - 2) raw) as [|x [|y [|z d]]] eqn:E; try discriminate Hd.
    exists x, y. by rewrite <- E, take_drop. }
  rewrite length_app. cbn [length].
  replace (length pre + 2 - 2)%nat with (length pre + 0)%nat by lia.
  rewrite insert_app_r. cbn [insert list_insert].
  replace (length pre + 0 + 1)%nat with (length pre + 1)%nat by lia.
  rewrite insert_app_r. cbn.
  replace (length pre + 0)%nat with (length pre) by lia.
  by rewrite take_app_length.
Qed.

(** What one call of [sendRawGameInfo] does: nothing on a short packet;
    otherwise one datagram, built in a fresh array. *)
Lemma sendRawGameInfo_run (b : Broadcaster) (g : Game) (w : World) :
  let raw := bytesOf w (RawData g) in
  let data :=
    take (length raw - 2) raw
      ++ [Go.byte (proxyPort b); Go.byte (Z.shiftr (proxyPort b) 8)] in
  run (sendRawGameInfo b g) w =
  if (length raw <? 4)%nat then (tt, w, [])
  else (tt, setBytesAt <[fresh (dom (bytesAt w)) := data]> w,
        [WriteTo data (broadcastAddr b)]).
Proof.
  intros raw data. unfold sendRawGameInfo. rewrite run_bind. cbn [get].
  fold raw. unfold minPacketSize.
  destruct (Nat.ltb_spec (length raw) 4) as [Hlt|Hge]; [reflexivity|].
  set (a := fresh (dom (bytesAt w))).
  unfold mbind, M_bind, makeBytes, copyBytes, storeByte, modify, emit, get, setBytesAt.
  cbn [bytesAt gameAt gamesAt games onChange steps]. fold a.
  rewrite !lookup_insert_eq. rewrite !insert_insert_eq.
  rewrite length_replicate, Nat.min_id.
  rewrite (take_ge raw) by lia.
  rewrite (drop_ge (replicate _ _)) by (rewrite length_replicate; lia).
  rewrite app_nil_r. unfold portFieldSize, byteShift8.
  cbn [bytesOf bytesAt app]. rewrite lookup_insert_eq. cbn [default].
  rewrite (rewrite_tail raw) by lia. reflexivity.
Qed.

(** C3. Every announcement datagram has the length of the stored raw
    packet, agrees with it on all bytes but the last two, and ends with
    the proxy port in little-endian; the stored RawData, as every array
    already in the store, is left unchanged. A raw packet of at least four
    bytes is announced by exactly one datagram. *)
Theorem broadcast_port_rewrite (b : Broadcaster) (g : Game) (w : World) :
  Go.is_uint16 (proxyPort b) ->
  let raw := bytesOf w (RawData g) in
  let n := length raw in
  let r := run (sendRawGameInfo b g) w in
  (forall payload dst, WriteTo payload dst ∈ events r ->
     dst = broadcastAddr b
     /\ length payload = n
     /\ take (n - 2) payload = take (n - 2) raw
     /\ drop (n - 2) payload = [Go.byte (proxyPort b); Go.byte (Z.shiftr (proxyPort b) 8)]
     /\ Go.le_decode (drop (n - 2) payload) = proxyPort b)
  /\ ((4 <= n)%nat -> exists payload, events r = [WriteTo payload (broadcastAddr b)])
  /\ bytesOf (final r) (RawData g) = raw
  /\ (forall a bs, bytesAt w !! a = Some bs -> bytesAt (final r) !! a = Some bs).
Proof.
  intros Hport raw n r. subst r. rewrite sendRawGameInfo_run. fold raw. fold n.
  destruct (Nat.ltb_spec n 4) as [Hlt|Hge].
  - unfold events, final. cbn [fst snd].
    split; [intros payload dst Hin; by apply elem_of_nil in Hin|].
    split; [lia|]. done.
  - set (data := take (n - 2) raw ++ _).
    set (a := fresh (dom (bytesAt w))).
    assert (Hfresh : bytesAt w !! a = None).
    { apply not_elem_of_dom. apply is_fresh. }
    unfold events, final. cbn [fst snd].
    split; [|split; [|split]].
    + intros payload dst Hin. apply list_elem_of_singleton in Hin.
      injection Hin as -> ->.
      assert (Hpre : length (take (n - 2) raw) = (n - 2)%nat) by (rewrite length_take; lia).
      split; [done|]. split; [|split; [|split]].
      * unfold data. rewrite length_app, Hpre. cbn. lia.
      * unfold data. by rewrite take_app_length' by done.
      * unfold data. by rewrite drop_app_length' by done.
      * unfold data. rewrite drop_app_length' by done. by apply le_decode_uint16.
    + intros _. by exists data.
    + destruct (RawData g) as [a0|] eqn:Eraw; [|done].
      cbn [bytesOf setBytesAt bytesAt]. destruct (decide (a0 = a)) as [->|Hne].
      * exfalso. subst raw n. cbn [bytesOf] in Hge. rewrite Hfresh in Hge. cbn in Hge. lia.
      * by rewrite lookup_insert_ne.
    + intros a0 bs Ha0. cbn [setBytesAt bytesAt].
      rewrite lookup_insert_ne; [done|]. intros <-. congruence.
Qed.

Lemma broadcast_port_rewrite_witness :
  events (run (sendRawGameInfo (NewBroadcaster 40000)
                 (deref sample.world1 1%positive)) sample.world1)
  = [WriteTo [247; 48; 12; 0; 7; 0; 0; 0; 1; 8; 64; 156] (mkUDPAddr (IPv4 255 255 255 255) 6112)]
  /\ bytesOf (final (run (sendRawGameInfo (NewBroadcaster 40000)
                            (deref sample.world1 1%positive)) sample.world1))
       (RawData (deref sample.world1 1%positive))
     = sample.gameInfoBytes.
Proof.
  assert (Hp : Go.is_uint16 (proxyPort (NewBroadcaster 40000))).
  { unfold Go.is_uint16, Go.maxUint16. cbn. lia. }
  pose proof (broadcast_port_rewrite (NewBroadcaster 40000)
                (deref sample.world1 1%positive) sample.world1 Hp) as (_ & _ & Hraw & _).
  split; [vm_compute; reflexivity|].
  rewrite Hraw. vm_compute. reflexivity.
Defined.

(** The first loop: its events are announcements of remote games, it
    consults neither oracle, and it records the host counter last seen
    for every remote key. *)
Lemma announceLoop_run (b : Broadcaster) (gs : list Game) :
  forall (cur : gmap string Z) (w : World),
    let r := run (announceLoop b gs cur) w in
    result r
    = list_to_map (reverse ((fun g => (Key g, HostCounter (Info g))) <$> List.filter isRemote gs))
        ∪ cur
    /\ steps (final r) = steps w
    /\ Forall (isAnnouncement b gs) (events r).
Proof.
  induction gs as [|g rest IH]; intros cur w r.
  - subst r. cbn. split; [by rewrite (left_id_L ∅ (∪))|]. split; [done|]. apply Forall_nil_2.
  - subst r. cbn [announceLoop List.filter]. unfold isRemote at 1.
    assert (Hweaken : forall l, Forall (isAnnouncement b rest) l ->
                                Forall (isAnnouncement b (g :: rest)) l).
    { intros l Hl. eapply Forall_impl; [exact Hl|]. intros e (g0 & Hin & Hrest).
      exists g0. split; [by apply list_elem_of_further | exact Hrest]. }
    destruct (decide (Source g = SourceRemote)) as [Hrem|Hloc].
    + rewrite (bool_decide_eq_false_2 (Source g ≠ SourceRemote)) by tauto.
      rewrite (bool_decide_eq_true_2 _ Hrem).
      rewrite run_bind.
      pose proof (sendRawGameInfo_run b g w) as Hsend. cbn zeta in Hsend.
      destruct (run (sendRawGameInfo b g) w) as [[[] w1] e1] eqn:E1.
      rewrite run_bind. unfold sendRefreshGame, emit. cbv beta iota zeta.
      set (cur1 := <[Key g := HostCounter (Info g)]> cur).
      specialize (IH cur1 w1).
      destruct (run (announceLoop b rest cur1) w1) as [[res w2] e2] eqn:E2.
      unfold result, final, events in *. cbn [fst snd] in *.
      destruct IH as (Hres & Hsteps & Hev).
      split; [|split].
      * rewrite Hres. cbn [fmap list_fmap]. rewrite reverse_cons, list_to_map_app.
        cbn [list_to_map foldr fst snd]. subst cur1.
        rewrite insert_union_singleton_l, insert_empty. by rewrite (assoc_L (∪)).
      * rewrite Hsteps.
        destruct (length (bytesOf w (RawData g)) <? 4)%nat; by injection Hsend as -> _.
      * apply Forall_app. split; [|apply Forall_cons; split; [|by apply Hweaken]].
        -- apply Forall_forall. intros e He. exists g.
           split; [apply list_elem_of_here|]. split; [done|]. right. exists w.
           by rewrite E1.
        -- exists g. split; [apply list_elem_of_here|]. split; [done|]. by left.
    + rewrite (bool_decide_eq_true_2 (Source g ≠ SourceRemote)) by done.
      rewrite (bool_decide_eq_false_2 _ Hloc).
      destruct (IH cur w) as (Hres & Hsteps & Hev).
      split; [done|]. split; [done|]. by apply Hweaken.
Qed.

Lemma cancelLoop_run (b : Broadcaster) (cur : gmap string Z) (it : list (string * Z))
    (w : World) :
  run (cancelLoop b cur it) w =
  (tt, w, (fun kh => WriteTo (decreatePacket kh.2) (broadcastAddr b))
            <$> filter (isRemoved (dom cur)) it).
Proof.
  unfold cancelLoop.
  rewrite (forEach_emits
             (fun kh => if bool_decide (is_Some (cur !! kh.1)) then []
                        else [WriteTo (decreatePacket kh.2) (broadcastAddr b)])).
  - f_equal. induction it as [|kh it IH]; [reflexivity|].
    cbn [fmap list_fmap concat]. rewrite filter_cons, IH.
    destruct (decide (is_Some (cur !! kh.1))) as [Hin|Hout].
    + rewrite (bool_decide_eq_true_2 _ Hin).
      rewrite decide_False; [done|]. unfold isRemoved. intros Hn. apply Hn. by apply elem_of_dom.
    + rewrite (bool_decide_eq_false_2 _ Hout).
      rewrite decide_True; [done|]. unfold isRemoved. by rewrite elem_of_dom.
  - intros kh w'. by destruct (bool_decide (is_Some (cur !! kh.1))).
Qed.

Lemma lastHostCounters_dom (gs : list Game) : dom (lastHostCounters gs) = remoteKeys gs.
Proof.
  unfold lastHostCounters, remoteKeys. rewrite dom_list_to_map_L.
  rewrite fmap_reverse, <- list_fmap_compose.
  apply set_eq. intros k. rewrite !elem_of_list_to_set, elem_of_reverse. done.
Qed.

Lemma broadcastGames_run `{Runtime} (b : Broadcaster) (w : World) :
  run (broadcastGames b) w =
  let '(cur, w1, e1) := run (announceLoop b (gamesOf w (bGames b)) ∅) w in
  (mkBroadcaster (bGames b) cur (proxyPort b) (broadcastAddr b), tick w1,
   e1 ++ ((fun kh => WriteTo (decreatePacket kh.2) (broadcastAddr b))
            <$> filter (isRemoved (dom cur)) (range (steps w1) (previousGameKeys b)))).
Proof.
  unfold broadcastGames, mbind, M_bind, get, rangeMap.
  destruct (announceLoop b (gamesOf w (bGames b)) ∅ w) as [[cur w1] e1].
  rewrite cancelLoop_run. cbn [mret M_ret]. by rewrite !app_nil_r.
Qed.

(** C4. On a tick the trace is the announcements followed by the
    cancellations; the cancellations are, up to their order, one
    DecreateGame per entry of the previous tick's key set whose key is not
    a current remote key, carrying the host counter recorded for it; no
    other key gets one. The tick records the current remote keys. *)
Theorem cancellation_completeness `{Runtime} (b : Broadcaster) (w : World) :
  let gs := gamesOf w (bGames b) in
  let r := run (broadcastGames b) w in
  exists announcements cancellations,
    events r = announcements ++ cancellations
    /\ Forall (isAnnouncement b gs) announcements
    /\ cancellations
       ≡ₚ (fun kh => WriteTo (decreatePacket kh.2) (broadcastAddr b))
            <$> filter (isRemoved (remoteKeys gs)) (map_to_list (previousGameKeys b))
    /\ previousGameKeys (result r) = lastHostCounters gs
    /\ dom (previousGameKeys (result r)) = remoteKeys gs.
Proof.
  intros gs r. subst r. rewrite broadcastGames_run. fold gs.
  destruct (announceLoop_run b gs ∅ w) as (Hres & Hsteps & Hev).
  destruct (run (announceLoop b gs ∅) w) as [[cur w1] e1] eqn:E1.
  unfold result, final, events in *. cbn [fst snd previousGameKeys] in *.
  rewrite (right_id_L ∅ (∪)) in Hres. fold (lastHostCounters gs) in Hres. subst cur.
  exists e1, ((fun kh => WriteTo (decreatePacket kh.2) (broadcastAddr b))
                <$> filter (isRemoved (dom (lastHostCounters gs)))
                      (range (steps w1) (previousGameKeys b))).
  rewrite lastHostCounters_dom.
  split; [done|]. split; [done|]. split; [|done].
  by rewrite range_perm.
Qed.

End LanFacts.

(** ** game/registry.go *)

Module RegistryFacts.
Import netip w3gs game rt registry RtFacts.

Section commutation.
Context `{Runtime} (a : loc) (gs' : list Game).

Lemma commutes_ret {A} (x : A) : commutes a gs' (mret x).
Proof. intros w Hin. done. Qed.

Lemma commutes_bind {A B} (m : M A) (f : A -> M B) :
  commutes a gs' m -> (forall x, commutes a gs' (f x)) -> commutes a gs' (m ≫= f).
Proof.
  intros Hm Hf w Hin. unfold mbind, M_bind.
  destruct (Hm w Hin) as [Em Hin1]. rewrite Em.
  destruct (m w) as [[x w1] e1]. unfold result, final, events in *. cbn [fst snd] in *.
  destruct (Hf x w1 Hin1) as [Ef Hin2]. rewrite Ef.
  destruct (f x w1) as [[y w2] e2]. done.
Qed.

(** Reading the state, when the continuation does not look at the
    contents of the arrays of games. *)
Lemma commutes_get {B} (f : World -> M B) :
  (forall w0 w, f (writeGames a gs' w0) w = f w0 w) ->
  (forall w0, commutes a gs' (f w0)) ->
  commutes a gs' (get ≫= f).
Proof.
  intros Hext Hf w Hin. unfold mbind, M_bind, get.
  rewrite Hext. destruct (Hf w w Hin) as [Ef Hin1]. rewrite Ef.
  destruct (f w w) as [[y w2] e2]. done.
Qed.

Lemma commutes_emit (e : Event) : commutes a gs' (emit e).
Proof. intros w Hin. done. Qed.

Lemma commutes_now : commutes a gs' now.
Proof. intros w Hin. done. Qed.

Lemma commutes_rangeMap {V} (m : gmap string V) : commutes a gs' (rangeMap m).
Proof. intros w Hin. done. Qed.

Lemma commutes_newGame (g : Game) : commutes a gs' (newGame g).
Proof. intros w Hin. done. Qed.

Lemma commutes_setGames (f : gmap string loc -> gmap string loc) :
  commutes a gs' (modify (setGames f)).
Proof. intros w Hin. done. Qed.

Lemma commutes_makeGames (gs : list Game) : commutes a gs' (makeGames gs).
Proof.
  intros w Hin. unfold makeGames, writeGames, setGamesAt, result, final, events.
  cbn [fst snd bytesAt gameAt gamesAt games onChange steps].
  assert (Hdom : dom (<[a := gs']> (gamesAt w)) = dom (gamesAt w)).
  { rewrite dom_insert_L. apply subseteq_union_1_L. by apply singleton_subseteq_l. }
  rewrite Hdom. set (a2 := fresh (dom (gamesAt w))).
  assert (Hne : a2 ≠ a).
  { intros Heq. apply (is_fresh (dom (gamesAt w))). fold a2. by rewrite Heq. }
  split; [|rewrite dom_insert_L; by apply elem_of_union_r].
  by rewrite (insert_insert_ne (gamesAt w) a a2) by done.
Qed.

Lemma findLoop_writeGames (w : World) (hostCounter : Z) (it : list (string * loc)) :
  findLoop (writeGames a gs' w) hostCounter it = findLoop w hostCounter it.
Proof.
  induction it as [|[k p] it IH]; [reflexivity|]. cbn [findLoop]. by rewrite IH.
Qed.

Ltac commutes_step :=
  first
    [ apply commutes_ret | apply commutes_emit | apply commutes_now
    | apply commutes_rangeMap | apply commutes_newGame | apply commutes_setGames
    | apply commutes_makeGames
    | apply commutes_get;
      [intros;
       first [reflexivity
             | unfold mbind, M_bind, rangeMap; rewrite findLoop_writeGames; reflexivity]
      | intros]
    | apply commutes_bind; [|intros]
    | match goal with |- commutes _ _ (if ?c then _ else _) => destruct c end
    | match goal with |- commutes _ _ (match ?c with _ => _ end) => destruct c end ].

Lemma commutes_expireLoop (timeout : Z) (it : list (string * loc)) :
  forall removed, commutes a gs' (expireLoop timeout it removed).
Proof.
  induction it as [|[key p] it IH]; intros removed; cbn [expireLoop]; unfold IsStale;
    repeat first [apply IH | commutes_step].
Qed.

Lemma commutes_exec (op : Op) : commutes a gs' (exec op).
Proof.
  destruct op;
    unfold exec, Add, Remove, Games, LocalGames, RemoteGames, FindByHostCounter, Expire,
      snapshot, notify;
    repeat first [apply commutes_expireLoop | commutes_step].
Qed.

End commutation.

Section reads.
Context `{Runtime}.

Lemma snapshot_run (w : World) :
  run snapshot w =
  (Some (fresh (dom (gamesAt w))),
   setGamesAt <[fresh (dom (gamesAt w)) := (fun kp => deref w kp.2) <$> range (steps w) (games w)]>
     (tick w),
   []).
Proof. reflexivity. Qed.

Lemma notify_run (w : World) :
  run notify w =
  if onChange w then
    (tt,
     setGamesAt <[fresh (dom (gamesAt w)) := (fun kp => deref w kp.2) <$> range (steps w) (games w)]>
       (tick w),
     [OnChange (Some (fresh (dom (gamesAt w))))])
  else (tt, w, []).
Proof. unfold notify, mbind, M_bind, get. destruct (onChange w); reflexivity. Qed.

Lemma Add_run (game : Game) (w : World) :
  let key := Key game in
  let exists_ := bool_decide (is_Some (games w !! key)) in
  let w1 := if exists_ then w else tick w in
  let game1 := if exists_ then game else setFirstSeen (wall (steps w)) game in
  let p := fresh (dom (gameAt w)) in
  let w2 := setGames <[key := p]>
              (setGameAt <[p := setLastSeen (wall (steps w1)) game1]> (tick w1)) in
  run (Add game) w = (negb exists_, final (run notify w2), events (run notify w2)).
Proof.
  intros key exists_ w1 game1 p w2. subst w2 p game1 w1.
  unfold Add, mbind, M_bind, get. fold key. fold exists_.
  destruct exists_;
    cbn [mret M_ret now newGame modify tick gameAt bytesAt gamesAt games onChange steps
           setGames setGameAt];
    match goal with |- context [notify ?w] => destruct (notify w) as [[[] w3] e3] end;
    unfold final, events; cbn [fst snd]; by rewrite ?app_nil_r.
Qed.

Lemma Remove_run (key : string) (w : World) :
  run (Remove key) w =
  if bool_decide (is_Some (games w !! key)) then
    (true, final (run notify (setGames (delete key) w)),
     events (run notify (setGames (delete key) w)))
  else (false, w, []).
Proof.
  unfold Remove, mbind, M_bind, get.
  destruct (bool_decide (is_Some (games w !! key))); [|reflexivity].
  cbn [modify mret M_ret].
  match goal with |- context [notify ?w] => destruct (notify w) as [[[] w3] e3] end.
  unfold final, events; cbn [fst snd]; by rewrite !app_nil_r.
Qed.

Lemma FindByHostCounter_run (hostCounter : Z) (w : World) :
  run (FindByHostCounter hostCounter) w =
  match findLoop w hostCounter (range (steps w) (games w)) with
  | Some g => (Some (fresh (dom (gameAt w))), setGameAt <[fresh (dom (gameAt w)) := g]> (tick w), [])
  | None => (None, tick w, [])
  end.
Proof.
  unfold FindByHostCounter, mbind, M_bind, get, rangeMap.
  by destruct (findLoop w hostCounter (range (steps w) (games w))).
Qed.

(** The loop of [Expire] touches only the map of the registry and the
    clock. *)
Lemma expireLoop_frame (timeout : Z) (it : list (string * loc)) :
  forall removed w,
    gamesAt (final (run (expireLoop timeout it removed) w)) = gamesAt w
    /\ events (run (expireLoop timeout it removed) w) = [].
Proof.
  induction it as [|[key p] it IH]; intros removed w; [done|].
  cbn [expireLoop]. unfold IsStale, mbind, M_bind, get, now, modify.
  cbn [mret M_ret]. destruct (timeout <? wall (steps w) - LastSeen (deref w p)).
  - match goal with |- context [expireLoop _ _ ?n ?w1] =>
      destruct (IH n w1) as [Hg He]; destruct (expireLoop timeout it n w1) as [[r w2] e2] end.
    unfold final, events in *. cbn [fst snd] in *. by rewrite Hg, He.
  - match goal with |- context [expireLoop _ _ ?n ?w1] =>
      destruct (IH n w1) as [Hg He]; destruct (expireLoop timeout it n w1) as [[r w2] e2] end.
    unfold final, events in *. cbn [fst snd] in *. by rewrite Hg, He.
Qed.

Lemma Expire_run (timeout : Z) (w : World) :
  run (Expire timeout) w =
  let '(removed, w1, e1) :=
    run (expireLoop timeout (range (steps w) (games w)) 0%nat) (tick w) in
  if Nat.ltb 0 removed
  then (removed, final (run notify w1), e1 ++ events (run notify w1))
  else (removed, w1, e1).
Proof.
  unfold Expire, mbind, M_bind, get, rangeMap.
  destruct (expireLoop timeout (range (steps w) (games w)) 0%nat (tick w)) as [[removed w1] e1].
  destruct (Nat.ltb 0 removed).
  - destruct (notify w1) as [[[] w2] e2]. unfold final, events. cbn [fst snd mret M_ret].
    by rewrite !app_nil_r.
  - cbn [mret M_ret]. by rewrite !app_nil_r.
Qed.

(** The slices a call returns or hands to the callback are fresh. *)
Lemma exec_allocates (op : Op) (w : World) (s : loc) :
  result (run (exec op) w) = VGames (Some s)
  \/ OnChange (Some s) ∈ events (run (exec op) w) ->
  (s ∉ dom (gamesAt w)) /\ s ∈ dom (gamesAt (final (run (exec op) w))).
Proof.
  assert (Hnotify : forall w0, OnChange (Some s) ∈ events (run notify w0) ->
                               (s ∉ dom (gamesAt w0)) /\ s ∈ dom (gamesAt (final (run notify w0)))).
  { intros w0. rewrite notify_run. destruct (onChange w0); unfold events, final; cbn [fst snd].
    - intros Hin. apply list_elem_of_singleton in Hin. injection Hin as ->.
      split; [apply is_fresh|]. cbn. rewrite dom_insert_L. apply elem_of_union_l.
      by apply elem_of_singleton.
    - intros Hin. by apply elem_of_nil in Hin. }
  assert (Hfresh : forall (l : list Game), 
             s = fresh (dom (gamesAt w)) ->
             (s ∉ dom (gamesAt w)) /\ s ∈ dom (<[fresh (dom (gamesAt w)) := l]> (gamesAt w))).
  { intros l ->. split; [apply is_fresh|]. rewrite dom_insert_L. apply elem_of_union_l.
    by apply elem_of_singleton. }
  destruct op; unfold exec; rewrite run_bind.
  - pose proof (Add_run g w) as E. cbn zeta in E. rewrite E. clear E.
    unfold result, final, events. cbn [fst snd mret M_ret]. rewrite app_nil_r.
    intros [Hres|Hin]; [discriminate Hres|].
    destruct (bool_decide (is_Some (games w !! Key g)));
      (destruct (Hnotify _ Hin) as [Hn Hi]; split; [exact Hn | exact Hi]).
  - rewrite Remove_run. destruct (bool_decide (is_Some (games w !! key)));
      unfold result, final, events; cbn [fst snd mret M_ret]; rewrite ?app_nil_r.
    + intros [Hres|Hin]; [discriminate Hres|].
      destruct (Hnotify _ Hin) as [Hn Hi]. split; [exact Hn | exact Hi].
    + intros [Hres|Hin]; [discriminate Hres|]. by apply elem_of_nil in Hin.
  - unfold Games. rewrite snapshot_run. unfold result, final, events. cbn [fst snd mret M_ret].
    intros [Hres|Hin]; [|by apply elem_of_nil in Hin]. injection Hres as <-.
    by apply Hfresh.
  - unfold LocalGames, mbind, M_bind, get, rangeMap, makeGames, result, final, events.
    cbn [fst snd mret M_ret].
    intros [Hres|Hin]; [|by apply elem_of_nil in Hin]. injection Hres as <-.
    by apply Hfresh.
  - unfold RemoteGames, mbind, M_bind, get, rangeMap, makeGames, result, final, events.
    cbn [fst snd mret M_ret].
    intros [Hres|Hin]; [|by apply elem_of_nil in Hin]. injection Hres as <-.
    by apply Hfresh.
  - rewrite FindByHostCounter_run.
    destruct (findLoop w hostCounter (range (steps w) (games w)));
      unfold result, final, events; cbn [fst snd mret M_ret];
      (intros [Hres|Hin]; [discriminate Hres | by apply elem_of_nil in Hin]).
  - rewrite Expire_run.
    destruct (expireLoop_frame timeout (range (steps w) (games w)) 0%nat (tick w)) as [Hg He].
    destruct (run (expireLoop timeout (range (steps w) (games w)) 0%nat) (tick w))
      as [[removed w1] e1].
    unfold final, events in Hg, He. cbn [fst snd tick gamesAt] in Hg, He. subst e1.
    destruct (Nat.ltb 0 removed).
    + specialize (Hnotify w1).
      unfold result, final, events in *. cbn [fst snd mret M_ret] in *.
      rewrite ?app_nil_r, ?app_nil_l. rewrite <- Hg.
      intros [Hres|Hin]; [discriminate Hres | by apply Hnotify].
    + unfold result, final, events. cbn [fst snd mret M_ret].
      intros [Hres|Hin]; [discriminate Hres | by apply elem_of_nil in Hin].
Qed.

Lemma findLoop_Some (w : World) (hc : Z) (it : list (string * loc)) (g : Game) :
  findLoop w hc it = Some g ->
  exists k p, (k, p) ∈ it /\ g = deref w p
              /\ Source g = SourceRemote /\ HostCounter (Info g) = hc.
Proof.
  induction it as [|[k p] it IH]; [discriminate|]. cbn [findLoop].
  destruct (bool_decide (Source (deref w p) = SourceRemote)) eqn:Es;
    [destruct (Z.eqb_spec (HostCounter (Info (deref w p))) hc) as [Eh|Eh]|]; cbn [andb].
  - intros [= <-]. exists k, p. apply bool_decide_eq_true_1 in Es.
    split; [apply list_elem_of_here | done].
  - intros (k' & p' & Hin & Hrest)%IH. exists k', p'.
    split; [by apply list_elem_of_further | done].
  - intros (k' & p' & Hin & Hrest)%IH. exists k', p'.
    split; [by apply list_elem_of_further | done].
Qed.

Lemma findLoop_None (w : World) (hc : Z) (it : list (string * loc)) :
  findLoop w hc it = None ->
  forall k p, (k, p) ∈ it ->
              ~ (Source (deref w p) = SourceRemote /\ HostCounter (Info (deref w p)) = hc).
Proof.
  induction it as [|[k p] it IH]; intros Hnone k' p' Hin; [by apply elem_of_nil in Hin|].
  cbn [findLoop] in Hnone.
  destruct (bool_decide (Source (deref w p) = SourceRemote)) eqn:Es;
    [destruct (Z.eqb_spec (HostCounter (Info (deref w p))) hc) as [Eh|Eh]|];
    cbn [andb] in Hnone; try discriminate Hnone.
  - apply elem_of_cons in Hin as [[= -> ->]|Hin]; [tauto | by apply (IH Hnone k' p')].
  - apply bool_decide_eq_false_1 in Es.
    apply elem_of_cons in Hin as [[= -> ->]|Hin]; [tauto | by apply (IH Hnone k' p')].
Qed.

Lemma range_lookup {V} (i : nat) (m : gmap string V) (k : string) (v : V) :
  (k, v) ∈ range i m <-> m !! k = Some v.
Proof. rewrite range_perm. apply elem_of_map_to_list. Qed.

Lemma findLoop_no_match (w : World) (hc : Z) (i : nat) :
  (forall k p, ~ isMatch w hc k p) -> findLoop w hc (range i (games w)) = None.
Proof.
  intros Hno. destruct (findLoop w hc (range i (games w))) as [g|] eqn:E; [|done].
  apply findLoop_Some in E as (k & p & Hin & -> & Hsrc & Hhc).
  apply range_lookup in Hin. by destruct (Hno k p).
Qed.

(** C5 (as amended). [FindByHostCounter hc] returns a pointer to a new
    cell holding a copy of the [Game] struct of a stored game that is
    Remote and has host counter [hc] when there is one, and nothing
    otherwise; it never returns a Local game; the registry and the cells
    already in the store are unchanged. The copy's [RawData] is the backing
    array of the stored game. *)
Theorem FindByHostCounter_spec (hc : Z) (w : World) :
  let r := run (FindByHostCounter hc) w in
  match result r with
  | Some q =>
      (q ∉ dom (gameAt w))
      /\ exists k p, isMatch w hc k p
                    /\ gameAt (final r) !! q = Some (deref w p)
                    /\ Source (deref (final r) q) ≠ SourceLocal
                    /\ RawData (deref (final r) q) = RawData (deref w p)
  | None => forall k p, ~ isMatch w hc k p
  end
  /\ ((exists k p, isMatch w hc k p) -> is_Some (result r))
  /\ ((forall k p, ~ isMatch w hc k p) -> result r = None)
  /\ games (final r) = games w
  /\ bytesAt (final r) = bytesAt w
  /\ (forall p g, gameAt w !! p = Some g -> gameAt (final r) !! p = Some g).
Proof.
  intros r. subst r. rewrite FindByHostCounter_run.
  destruct (findLoop w hc (range (steps w) (games w))) as [g|] eqn:E;
    unfold result, final; cbn [fst snd].
  - apply findLoop_Some in E as (k & p & Hin & -> & Hsrc & Hhc).
    apply range_lookup in Hin.
    assert (Hm : isMatch w hc k p) by done.
    split; [|split; [|split; [|split; [|split]]]].
    + split; [apply is_fresh|]. exists k, p. split; [done|].
      set (q := fresh (dom (gameAt w))).
      assert (Hq : deref (setGameAt <[q := deref w p]> (tick w)) q = deref w p).
      { unfold deref at 1. cbn [setGameAt gameAt tick]. by rewrite lookup_insert_eq. }
      rewrite Hq. cbn [setGameAt gameAt tick]. rewrite lookup_insert_eq.
      split; [done|]. split; [|done]. rewrite Hsrc. discriminate.
    + intros _. by eexists.
    + intros Hno. by destruct (Hno k p).
    + done.
    + done.
    + intros p0 g0 Hp0. cbn [setGameAt gameAt]. rewrite lookup_insert_ne; [done|].
      intros <-. apply (is_fresh (dom (gameAt w))). apply elem_of_dom. by eexists.
  - pose proof (findLoop_None _ _ _ E) as Hnone.
    assert (Hno : forall k p, ~ isMatch w hc k p).
    { intros k p (Hk & Hs & Hh). apply (Hnone k p); [by apply range_lookup | done]. }
    split; [done|]. split; [|done].
    intros (k & p & Hm). by destruct (Hno k p).
Qed.

Lemma see_writeGames (a : loc) (gs' : list Game) (w : World) (v : Value) :
  v ≠ VGames (Some a) -> see (writeGames a gs' w) v = see w v.
Proof.
  intros Hv. destruct v as [b|n|[s|]|p]; try reflexivity.
  cbn [see gamesOf writeGames setGamesAt gamesAt].
  rewrite lookup_insert_ne; [reflexivity|]. intros <-. by apply Hv.
Qed.

Lemma seeEvent_writeGames (a : loc) (gs' : list Game) (w : World) (e : Event) :
  e ≠ OnChange (Some a) -> seeEvent (writeGames a gs' w) e = seeEvent w e.
Proof.
  intros He. destruct e as [[s|]| | | | | | | | | |]; try reflexivity.
  cbn [seeEvent gamesOf writeGames setGamesAt gamesAt].
  rewrite lookup_insert_ne; [reflexivity|]. intros <-. by apply He.
Qed.

(** Writing to an allocated array of games changes nothing of what later
    calls return or notify. *)
Lemma history_writeGames (a : loc) (gs' : list Game) (ops : list Op) :
  forall w, a ∈ dom (gamesAt w) -> history ops (writeGames a gs' w) = history ops w.
Proof.
  induction ops as [|op ops IH]; intros w Hin; [reflexivity|].
  cbn [history].
  destruct (commutes_exec a gs' op w Hin) as [E Hin']. rewrite E.
  pose proof (exec_allocates op w a) as Hfresh.
  destruct (run (exec op) w) as [[v w1] evs].
  unfold result, final, events in *. cbn [fst snd] in *.
  rewrite (IH w1 Hin'). f_equal. f_equal.
  - apply see_writeGames. intros ->. destruct Hfresh as [Hn _]; [by left | done].
  - apply list_fmap_ext. intros i e He. apply seeEvent_writeGames. intros ->.
    destruct Hfresh as [Hn _]; [right; by eapply list_elem_of_lookup_2 | done].
Qed.

(** An assignment [s[i] = g] to a slice of games is such a write. *)
Lemma storeGame_writeGames (a : loc) (i : nat) (g : Game) (gs : list Game) (w : World) :
  gamesAt w !! a = Some gs ->
  final (run (storeGame a i g) w) = writeGames a (<[i := g]> gs) w.
Proof.
  intros Ha. unfold storeGame, modify, final, writeGames, setGamesAt. cbn [fst snd].
  by rewrite Ha.
Qed.

(** C2 (as amended). A slice returned by [Games] (or by [LocalGames] or
    [RemoteGames]), and a snapshot handed to the change-notification
    callback, is independent of the registry as far as the slice and the
    fields of its elements go: whatever is assigned to them, every later
    sequence of registry calls returns and notifies what it would have
    without the assignment. *)
Theorem snapshot_independence (w0 : World) (op0 : Op) (a : loc) (gs' : list Game)
    (ops : list Op) :
  let r0 := run (exec op0) w0 in
  result r0 = VGames (Some a) \/ OnChange (Some a) ∈ events r0 ->
  history ops (writeGames a gs' (final r0)) = history ops (final r0).
Proof.
  intros r0 Hsnap. apply history_writeGames.
  by apply (exec_allocates op0 w0 a).
Qed.

Lemma notify_keeps (w : World) :
  games (final (run notify w)) = games w /\ gameAt (final (run notify w)) = gameAt w.
Proof. rewrite notify_run. by destruct (onChange w). Qed.

(** [Add] returns true exactly when the key was absent. *)
Lemma Add_result (g : Game) (w : World) :
  result (run (Add g) w) = true <-> games w !! Key g = None.
Proof.
  pose proof (Add_run g w) as E. cbn zeta in E. rewrite E.
  unfold result. cbn [fst]. rewrite negb_true_iff, bool_decide_eq_false.
  by rewrite eq_None_not_Some.
Qed.

(** What [Add] leaves under the key: on insertion the game with both
    timestamps read from the clock; on refresh the game as the caller
    passed it, with [LastSeen] read from the clock. *)
Lemma Add_stored (g : Game) (w : World) :
  stored (final (run (Add g) w)) (Key g) =
  Some (if bool_decide (is_Some (games w !! Key g))
        then setLastSeen (wall (steps w)) g
        else setLastSeen (wall (S (steps w))) (setFirstSeen (wall (steps w)) g)).
Proof.
  pose proof (Add_run g w) as E. cbn zeta in E. rewrite E.
  unfold final at 1. cbn [fst snd]. unfold stored, deref.
  match goal with |- context [notify ?w2] => destruct (notify_keeps w2) as [-> ->] end.
  cbn [setGames setGameAt games gameAt]. rewrite lookup_insert_eq. cbn [fmap option_fmap option_map].
  rewrite lookup_insert_eq. cbn [default].
  by destruct (bool_decide (is_Some (games w !! Key g))).
Qed.

(** On a refresh the stored [FirstSeen] is the one of the argument, not
    the one recorded at insertion. *)
Lemma Add_refresh_FirstSeen (g : Game) (w : World) :
  is_Some (games w !! Key g) ->
  FirstSeen <$> stored (final (run (Add g) w)) (Key g) = Some (FirstSeen g).
Proof. intros Hex. rewrite Add_stored. by rewrite (bool_decide_eq_true_2 _ Hex). Qed.

Lemma Add_LastSeen (g : Game) (w : World) :
  exists t, LastSeen <$> stored (final (run (Add g) w)) (Key g) = Some t
            /\ wall (steps w) <= t.
Proof.
  rewrite Add_stored. destruct (bool_decide (is_Some (games w !! Key g))).
  - exists (wall (steps w)). split; [done | lia].
  - exists (wall (S (steps w))). split; [done | apply wall_mono; lia].
Qed.

End reads.

Import sample.

(** C1, on the code. The first [Add] of a game inserts it, records
    [FirstSeen] and returns true; [Add] of the identical game again returns
    false, advances [LastSeen] and replaces the recorded [FirstSeen] by the
    zero time the argument carries. The same happens when the probe engine
    receives the same GameInfo datagram twice. *)
Theorem Add_again_resets_FirstSeen :
  let g := mkGame (mkGameInfo "g1" 7 1 8 7 6112) (Some 1%positive) SourceRemote p1 "P1" 0 0 in
  let r1 := run (Add g) world0 in
  let r2 := run (Add g) (final r1) in
  (result r1 = true /\ result r2 = false)
  /\ (FirstSeen <$> stored (final r1) (Key g) = Some 1000
      /\ LastSeen <$> stored (final r1) (Key g) = Some 1001)
  /\ (FirstSeen <$> stored (final r2) (Key g) = Some 0
      /\ LastSeen <$> stored (final r2) (Key g) = Some 1003)
  /\ (FirstSeen <$> stored world1 "100.64.0.2:g1" = Some 1000
      /\ FirstSeen <$> stored world2 "100.64.0.2:g1" = Some 0).
Proof. vm_compute. repeat split; reflexivity. Qed.

Lemma snapshot_independence_witness :
  history [OpGames; OpFindByHostCounter 7; OpAdd (deref world1 1%positive); OpRemoteGames]
    (writeGames 2%positive [] (final (run (exec OpGames) world1)))
  = history [OpGames; OpFindByHostCounter 7; OpAdd (deref world1 1%positive); OpRemoteGames]
      (final (run (exec OpGames) world1)).
Proof.
  apply (snapshot_independence world1 OpGames 2%positive []).
  left. vm_compute. reflexivity.
Defined.

(** The claim C2 as stated fails on the bytes of [RawData]: the element
    of the slice that [Games] returns has the backing array of the stored
    game, and a byte written through it is read back by the next
    [Games]. *)
Lemma snapshot_shares_RawData :
  let r0 := run Games world1 in
  result r0 = Some 2%positive
  /\ RawData <$> gamesOf (final r0) (result r0) = [Some 1%positive]
  /\ RawData <$> stored (final r0) "100.64.0.2:g1" = Some (Some 1%positive)
  /\ history [OpGames] (writeByte 1%positive 0 0 (final r0)) ≠ history [OpGames] (final r0).
Proof.
  cbv zeta. split; [vm_compute; reflexivity|]. split; [vm_compute; reflexivity|].
  split; [vm_compute; reflexivity|].
  intros Heq. vm_compute in Heq. discriminate Heq.
Qed.

(** The claim C5 as stated fails on "deep copy": the game that
    [FindByHostCounter] returns has the backing array of the stored game,
    and a byte written through it is read back by the next call. *)
Lemma FindByHostCounter_shares_RawData :
  let r0 := run (FindByHostCounter 7) world1 in
  result r0 = Some 2%positive
  /\ RawData (deref (final r0) 2%positive) = Some 1%positive
  /\ RawData <$> stored (final r0) "100.64.0.2:g1" = Some (Some 1%positive)
  /\ history [OpFindByHostCounter 7] (writeByte 1%positive 0 0 (final r0))
     ≠ history [OpFindByHostCounter 7] (final r0).
Proof.
  cbv zeta. split; [vm_compute; reflexivity|]. split; [vm_compute; reflexivity|].
  split; [vm_compute; reflexivity|].
  intros Heq. vm_compute in Heq. discriminate Heq.
Qed.

Lemma FindByHostCounter_spec_witness :
  is_Some (result (run (FindByHostCounter 7) sample.world1))
  /\ result (run (FindByHostCounter 0) sample.world1) = None.
Proof.
  split.
  - apply (FindByHostCounter_spec 7 sample.world1).
    exists "100.64.0.2:g1"%string, 1%positive. vm_compute. done.
  - apply (FindByHostCounter_spec 0 sample.world1).
    intros k p (Hk & _ & Hh).
    assert (Hp : p = 1%positive).
    { apply elem_of_map_to_list in Hk. vm_compute in Hk.
      apply list_elem_of_singleton in Hk. by injection Hk. }
    subst p. vm_compute in Hh. discriminate Hh.
Defined.

End RegistryFacts.

(** ** proxy/tcp.go *)

Module ProxyFacts.
Import netip w3gs game rt registry proxy strconv RtFacts RegistryFacts.

Section with_runtime.
Context `{Runtime} `{Codec}.

Lemma readJoinPacket_run (env : ConnEnv) (w : World) (data : list Z) (j : Join) :
  armDeadlineFails env = false -> incoming env = Some data -> clearDeadlineFails env = false ->
  Deserialize (take maxJoinPacketSize data) = Some (PktJoin j) ->
  run (readJoinPacket env) w =
  (inl (j, take maxJoinPacketSize data), w,
   [SetReadDeadline true; ConnRead maxJoinPacketSize; SetReadDeadline false]).
Proof.
  intros Harm Hin Hclear Hdec. unfold readJoinPacket, mbind, M_bind, emit.
  rewrite Harm, Hin, Hclear, Hdec. reflexivity.
Qed.

Lemma concat_const {A B} (x : B) (l : list A) :
  concat ((fun _ => [x]) <$> l) = replicate (length l) x.
Proof. induction l as [|y l IH]; [reflexivity|]. cbn. by rewrite <- IH. Qed.

(** C7. When the first packet decodes as a Join whose host counter
    matches no Remote game of the registry, the handler logs the registry,
    logs a warning and closes the client: it dials no origin, writes
    nothing and splices nothing. *)
Theorem unknown_game_closes_client (env : ConnEnv) (w : World) (data : list Z) (j : Join) :
  armDeadlineFails env = false -> incoming env = Some data -> clearDeadlineFails env = false ->
  Deserialize (take maxJoinPacketSize data) = Some (PktJoin j) ->
  (forall k p, ~ isMatch w (jHostCounter j) k p) ->
  let evs := events (run (handleConnection env) w) in
  evs = joinRead
          ++ replicate (size (games w)) (Log LevelInfo "registry game")
          ++ [Log LevelWarn "no remote game found for HostCounter"; CloseClient]
  /\ Forall (fun e => reachesOrigin e = false) evs
  /\ Log LevelWarn "no remote game found for HostCounter" ∈ evs
  /\ last evs = Some CloseClient.
Proof.
  intros Harm Hin Hclear Hdec Hno evs.
  assert (Hevs : evs = joinRead
          ++ replicate (size (games w)) (Log LevelInfo "registry game")
          ++ [Log LevelWarn "no remote game found for HostCounter"; CloseClient]).
  { subst evs. unfold handleConnection. rewrite run_bind. unfold emit at 1. cbv beta iota zeta.
    rewrite run_bind, (readJoinPacket_run env w data j) by done. cbv beta iota zeta.
    rewrite run_bind. unfold emit at 1. cbv beta iota zeta.
    rewrite run_bind, FindByHostCounter_run, (findLoop_no_match _ _ _ Hno).
    cbv beta iota zeta. unfold Games. rewrite run_bind, snapshot_run. cbv beta iota zeta.
    rewrite run_bind. unfold get at 1. cbv beta iota zeta.
    rewrite run_bind.
    rewrite (forEach_emits (fun _ => [Log LevelInfo "registry game"]))
      by (intros; reflexivity).
    cbv beta iota zeta. rewrite concat_const.
    unfold gamesOf. cbn [setGamesAt gamesAt tick]. rewrite lookup_insert_eq. cbn [default].
    unfold id. cbn [games steps].
    rewrite length_fmap, (Permutation_length (range_perm _ _ _)), length_map_to_list.
    reflexivity. }
  split; [exact Hevs|]. rewrite Hevs. split; [|split].
  - apply Forall_app. split; [by repeat constructor|].
    apply Forall_app. split; [|by repeat constructor].
    apply Forall_forall. intros e [-> _]%elem_of_replicate. reflexivity.
  - apply elem_of_app. right. apply elem_of_app. right. apply list_elem_of_here.
  - change [Log LevelWarn "no remote game found for HostCounter"; CloseClient]
      with ([Log LevelWarn "no remote game found for HostCounter"] ++ [CloseClient]).
    rewrite !app_assoc. apply last_snoc.
Qed.

Lemma handleConnection_found (env : ConnEnv) (w : World) (data : list Z) (j : Join)
    (k : string) (p : loc) :
  armDeadlineFails env = false -> incoming env = Some data -> clearDeadlineFails env = false ->
  Deserialize (take maxJoinPacketSize data) = Some (PktJoin j) ->
  isMatch w (jHostCounter j) k p ->
  exists k' p', isMatch w (jHostCounter j) k' p'
    /\ events (run (handleConnection env) w)
       = joinRead ++ forwarding env (deref w p') (take maxJoinPacketSize data).
Proof.
  intros Harm Hin Hclear Hdec Hm.
  unfold handleConnection. rewrite run_bind. unfold emit at 1. cbv beta iota zeta.
  rewrite run_bind, (readJoinPacket_run env w data j) by done. cbv beta iota zeta.
  rewrite run_bind. unfold emit at 1. cbv beta iota zeta.
  rewrite run_bind, FindByHostCounter_run.
  destruct (findLoop w (jHostCounter j) (range (steps w) (games w))) as [g|] eqn:E.
  - apply findLoop_Some in E as (k' & p' & Hin' & -> & Hsrc & Hhc).
    apply range_lookup in Hin'. exists k', p'. split; [done|].
    cbv beta iota zeta. rewrite run_bind. unfold get at 1. cbv beta iota zeta.
    assert (Hq : deref (setGameAt <[fresh (dom (gameAt w)) := deref w p']> (tick w))
                   (fresh (dom (gameAt w))) = deref w p').
    { unfold deref at 1. cbn [setGameAt gameAt tick]. by rewrite lookup_insert_eq. }
    rewrite Hq. unfold forwarding, connectToRemote, mbind, M_bind, emit, events.
    destruct (dialFails env); [reflexivity|]. destruct (writeFails env); reflexivity.
  - exfalso. destruct Hm as (Hk & Hs & Hh).
    apply (findLoop_None _ _ _ E k p); [by apply range_lookup | done].
Qed.

(** C6. When the first read decodes as a Join whose host counter
    resolves to a registered Remote game, every write to the origin
    carries exactly the bytes read from the client (at most 512, all of
    the data when it fits), and when splicing begins that write is the
    one event to the origin's stream before it. *)
Theorem join_forwarded_verbatim (env : ConnEnv) (w : World) (data : list Z) (j : Join)
    (k : string) (p : loc) :
  armDeadlineFails env = false -> incoming env = Some data -> clearDeadlineFails env = false ->
  Deserialize (take maxJoinPacketSize data) = Some (PktJoin j) ->
  isMatch w (jHostCounter j) k p ->
  let bytesRead := take maxJoinPacketSize data in
  let evs := events (run (handleConnection env) w) in
  (length bytesRead <= maxJoinPacketSize)%nat
  /\ ((length data <= maxJoinPacketSize)%nat -> bytesRead = data)
  /\ (forall payload, RemoteWrite payload ∈ evs -> payload = bytesRead)
  /\ (Relay ∈ evs ->
      exists pre, evs = pre ++ [RemoteWrite bytesRead; Relay; CloseRemote; CloseClient]
                  /\ Forall beforeSplice pre)
  /\ (dialFails env = false -> RemoteWrite bytesRead ∈ evs)
  /\ (dialFails env = false -> writeFails env = false -> Relay ∈ evs).
Proof.
  intros Harm Hin Hclear Hdec Hm bytesRead evs.
  destruct (handleConnection_found env w data j k p Harm Hin Hclear Hdec Hm)
    as (k' & p' & _ & Hevs).
  fold evs in Hevs. fold bytesRead in Hevs. clearbody evs. subst evs.
  assert (Hdistinct : forall e : Event,
             e ∈ joinRead ++ [Log LevelInfo "found remote game";
                              Dial (JoinHostPort (AddrString (PeerIP (deref w p')))
                                      (utoa (GamePort (Info (deref w p')))));
                              Log LevelInfo "proxying connection"] ->
             beforeSplice e).
  { intros e He. unfold joinRead in He. cbn [app] in He.
    repeat (apply elem_of_cons in He as [->|He]; [by split|]).
    by apply elem_of_nil in He. }
  split; [unfold bytesRead; rewrite length_take; lia|].
  split; [intros Hlen; by apply take_ge|].
  unfold forwarding. destruct (dialFails env), (writeFails env);
    (split; [|split; [|split]]); try done.
  all: try (intros payload Hp; unfold joinRead in Hp; cbn [app] in Hp;
            repeat (apply elem_of_cons in Hp as [Hp|Hp];
                    [first [discriminate Hp | by injection Hp] |]);
            by apply elem_of_nil in Hp).
  all: try (intros Hr; exfalso; unfold joinRead in Hr; cbn [app] in Hr;
            repeat (apply elem_of_cons in Hr as [Hr|Hr]; [discriminate Hr|]);
            by apply elem_of_nil in Hr).
  all: try (intros _; unfold joinRead; cbn [app]; by repeat constructor).
  intros _.
  exists (joinRead ++ [Log LevelInfo "found remote game";
                       Dial (JoinHostPort (AddrString (PeerIP (deref w p')))
                               (utoa (GamePort (Info (deref w p')))));
                       Log LevelInfo "proxying connection"]).
  split; [by rewrite <- !app_assoc|].
  apply Forall_forall. exact Hdistinct.
Qed.

End with_runtime.

Import sample.

Lemma unknown_game_closes_client_witness :
  events (run (handleConnection (mkConnEnv false (Some (joinBytes 99)) false false false)) world1)
  = [ Log LevelInfo "received TCP connection";
      SetReadDeadline true; ConnRead 512; SetReadDeadline false;
      Log LevelInfo "parsed Join packet";
      Log LevelInfo "registry game";
      Log LevelWarn "no remote game found for HostCounter"; CloseClient ].
Proof.
  refine (proj1 (unknown_game_closes_client
                   (mkConnEnv false (Some (joinBytes 99)) false false false) world1
                   (joinBytes 99) (mkJoin 99 "p") eq_refl eq_refl eq_refl eq_refl _)).
  intros k p (Hk & _ & Hh).
  assert (Hp : p = 1%positive).
  { apply elem_of_map_to_list in Hk. vm_compute in Hk.
    apply list_elem_of_singleton in Hk. by injection Hk. }
  subst p. vm_compute in Hh. discriminate Hh.
Defined.

Lemma join_forwarded_verbatim_witness :
  RemoteWrite (joinBytes 7)
  ∈ events (run (handleConnection (mkConnEnv false (Some (joinBytes 7)) false false false)) world1).
Proof.
  assert (Hm : isMatch world1 (jHostCounter (mkJoin 7 "p")) "100.64.0.2:g1" 1%positive).
  { vm_compute. done. }
  assert (Hdec : Deserialize (take maxJoinPacketSize (joinBytes 7)) = Some (PktJoin (mkJoin 7 "p"))).
  { vm_compute. reflexivity. }
  destruct (join_forwarded_verbatim
              (mkConnEnv false (Some (joinBytes 7)) false false false) world1
              (joinBytes 7) (mkJoin 7 "p") "100.64.0.2:g1" 1%positive
              eq_refl eq_refl eq_refl Hdec Hm) as (_ & _ & _ & _ & Hw & _).
  exact (Hw eq_refl).
Defined.

End ProxyFacts.

(** ** The scenarios of the specification, evaluated *)

Module Scenarios.
Import netip w3gs game rt registry lan peer proxy sample.

(** Scenario 1: one remote game. The probe goes to the peer and to
    loopback; the reply is stored under ["100.64.0.2:g1"]; the next tick
    announces it with the proxy port (40000 = 0x9C40) in the last two
    bytes and refreshes it. *)
Example single_remote_game :
  events (run (probeAllPeers manager) world0)
  = [Send (mkUDPAddr (IPv4 127 0 0 1) 6112) (mkSearchGame (mkGameVersion 1462982736 26) 0);
     Send (mkUDPAddr p1 6112) (mkSearchGame (mkGameVersion 1462982736 26) 0)]
  /\ dom (games world1) = {["100.64.0.2:g1"%string]}
  /\ events (run (broadcastGames (OnGamesChanged (Some 1%positive) (NewBroadcaster 40000))) world1)
     = [WriteTo [247; 48; 12; 0; 7; 0; 0; 0; 1; 8; 64; 156] (mkUDPAddr (IPv4 255 255 255 255) 6112);
        WriteTo [247; 50; 16; 0; 7; 0; 0; 0; 1; 0; 0; 0; 7; 0; 0; 0]
          (mkUDPAddr (IPv4 255 255 255 255) 6112)].
Proof. split; [|split]; vm_compute; reflexivity. Qed.

(** Scenario 2: a Join for host counter 7 is dialled to the origin and
    forwarded as read. *)
Example join_routing :
  events (run (handleConnection (mkConnEnv false (Some (joinBytes 7)) false false false)) world1)
  = [Log LevelInfo "received TCP connection";
     SetReadDeadline true; ConnRead 512; SetReadDeadline false;
     Log LevelInfo "parsed Join packet";
     Log LevelInfo "found remote game";
     Dial "100.64.0.2:6112";
     Log LevelInfo "proxying connection";
     RemoteWrite (joinBytes 7);
     Relay; CloseRemote; CloseClient].
Proof. vm_compute. reflexivity. Qed.

(** Scenario 4: the game expires; the tick after that sends one
    DecreateGame with host counter 7 and no announcement. *)
Example game_disappears :
  let b0 := OnGamesChanged (Some 1%positive) (NewBroadcaster 40000) in
  let t1 := run (broadcastGames b0) world1 in
  let x := run (Expire 1) (final t1) in
  let b1 := OnGamesChanged (Some 2%positive) (result t1) in
  result x = 1%nat
  /\ events x = [OnChange (Some 2%positive)]
  /\ events (run (broadcastGames b1) (final x))
     = [WriteTo [247; 51; 8; 0; 7; 0; 0; 0] (mkUDPAddr (IPv4 255 255 255 255) 6112)].
Proof. cbv zeta. split; [|split]; vm_compute; reflexivity. Qed.

(** Scenario 6: a GameInfo from loopback is stored as a Local game under
    ["local:g1"]. *)
Example loopback_classification :
  (fun g => (Source g, Key g)) <$>
    stored (final (run (receive manager gameInfoBytes (IPv4 127 0 0 1)) world0)) "local:g1"
  = Some (SourceLocal, "local:g1"%string).
Proof. vm_compute. reflexivity. Qed.

End Scenarios.

(** * Further properties of the code *)

(** ** game/registry.go: the contract of the mutators and of the reads *)

Module RegistryMore.
Import netip w3gs game rt registry vocabulary RtFacts RegistryFacts.

Section with_runtime.
Context `{Runtime}.

Lemma range_entries (w : World) (i : nat) :
  (fun kp : string * loc => deref w kp.2) <$> range i (games w) ≡ₚ entries w.
Proof.
  unfold entries. rewrite (range_perm _ i (games w)).
  by rewrite <- list_fmap_compose.
Qed.

Lemma entries_ext (w w' : World) :
  games w' = games w -> gameAt w' = gameAt w -> entries w' = entries w.
Proof. intros Hg Hc. unfold entries, deref. by rewrite Hg, Hc. Qed.

(** The callback, when there is one, receives a fresh slice holding the
    games of the registry at that moment. *)
Lemma notify_spec (w : World) :
  let r := run notify w in
  games (final r) = games w /\ gameAt (final r) = gameAt w /\ bytesAt (final r) = bytesAt w
  /\ (onChange w = true ->
      exists s, events r = [OnChange (Some s)] /\ (s ∉ dom (gamesAt w))
                /\ gamesOf (final r) (Some s) ≡ₚ entries (final r))
  /\ (onChange w = false -> final r = w /\ events r = []).
Proof.
  cbv zeta. rewrite notify_run. destruct (onChange w) eqn:E; unfold final, events; cbn [fst snd].
  - split; [done|]. split; [done|]. split; [done|]. split; [|done].
    intros _. exists (fresh (dom (gamesAt w))). split; [done|]. split; [apply is_fresh|].
    cbn [gamesOf setGamesAt gamesAt tick]. rewrite lookup_insert_eq. cbn [default].
    rewrite (entries_ext w) by done. apply range_entries.
  - split; [done|]. split; [done|]. split; [done|]. split; [done|]. done.
Qed.

Lemma Remove_final (key : string) (w : World) :
  (result (run (Remove key) w) = true <-> is_Some (games w !! key))
  /\ games (final (run (Remove key) w)) = delete key (games w).
Proof.
  rewrite Remove_run.
  destruct (decide (is_Some (games w !! key))) as [Hin|Hout].
  - rewrite (bool_decide_eq_true_2 _ Hin).
    pose proof (notify_spec (setGames (delete key) w)) as (Hg & _).
    unfold result, final in *. cbn [fst snd] in *. by rewrite Hg.
  - rewrite (bool_decide_eq_false_2 _ Hout). unfold result, final. cbn [fst snd].
    split; [split; [discriminate | done]|].
    rewrite delete_id; [done|]. by apply eq_None_not_Some.
Qed.

(** X1. [Remove] returns true exactly when the key was present; it
    leaves the map without the key and every cell and byte array as they
    were; with a callback it notifies once, with the games left, when it
    deleted, and never otherwise. *)
Theorem Remove_contract (key : string) (w : World) :
  let r := run (Remove key) w in
  (result r = true <-> is_Some (games w !! key))
  /\ games (final r) = delete key (games w)
  /\ gameAt (final r) = gameAt w
  /\ bytesAt (final r) = bytesAt w
  /\ (games w !! key = None -> final r = w /\ events r = [])
  /\ (onChange w = false -> events r = [])
  /\ (is_Some (games w !! key) -> onChange w = true ->
      exists s, events r = [OnChange (Some s)] /\ (s ∉ dom (gamesAt w))
                /\ gamesOf (final r) (Some s) ≡ₚ entries (final r)).
Proof.
  cbv zeta. rewrite Remove_run.
  destruct (decide (is_Some (games w !! key))) as [Hin|Hout].
  - rewrite (bool_decide_eq_true_2 _ Hin).
    pose proof (notify_spec (setGames (delete key) w)) as (Hg & Hc & Hb & Hon & Hoff).
    unfold result, final, events in *. cbn [fst snd] in *.
    split; [done|]. split; [exact Hg|]. split; [exact Hc|]. split; [exact Hb|].
    split; [intros Hnone; rewrite Hnone in Hin; by destruct Hin|].
    split; [intros Hf; by apply Hoff|].
    intros _ Hon'. exact (Hon Hon').
  - rewrite (bool_decide_eq_false_2 _ Hout).
    unfold result, final, events. cbn [fst snd].
    assert (Hnone : games w !! key = None) by (by apply eq_None_not_Some).
    split; [split; [discriminate | done]|].
    split; [by rewrite delete_id|]. split; [done|]. split; [done|].
    split; [done|]. split; [done|]. done.
Qed.

Lemma Add_final (g : Game) (w : World) :
  exists t1 g',
    games (final (run (Add g) w)) = <[Key g := fresh (dom (gameAt w))]> (games w)
    /\ gameAt (final (run (Add g) w)) = <[fresh (dom (gameAt w)) := g']> (gameAt w)
    /\ bytesAt (final (run (Add g) w)) = bytesAt w
    /\ g' = setLastSeen t1 (if bool_decide (is_Some (games w !! Key g)) then g
                            else setFirstSeen (wall (steps w)) g)
    /\ wall (steps w) <= t1.
Proof.
  pose proof (Add_run g w) as E. cbn zeta in E. rewrite E.
  match goal with |- context [notify ?w2] =>
    destruct (notify_spec w2) as (Hg & Hc & Hb & _) end.
  unfold final in *. cbn [fst snd] in *. rewrite Hg, Hc, Hb.
  cbn [setGames setGameAt games gameAt bytesAt tick].
  destruct (bool_decide (is_Some (games w !! Key g))).
  - exists (wall (steps w)), (setLastSeen (wall (steps w)) g). repeat split; [done..|lia].
  - exists (wall (S (steps w))),
      (setLastSeen (wall (S (steps w))) (setFirstSeen (wall (steps w)) g)).
    repeat split; [done..|apply wall_mono; lia].
Qed.

(** X2. [Add] puts the game under its key with the fields of the
    argument and [LastSeen] read from the clock; on an insertion
    [FirstSeen] is read from the clock too and is not later than
    [LastSeen]. The key set grows by that key, every other key keeps its
    pointer, and no existing cell or byte array changes. *)
Theorem Add_contract (g : Game) (w : World) :
  let r := run (Add g) w in
  (result r = true <-> games w !! Key g = None)
  /\ dom (games (final r)) = {[Key g]} ∪ dom (games w)
  /\ (forall k, k ≠ Key g -> games (final r) !! k = games w !! k)
  /\ (forall p g0, gameAt w !! p = Some g0 -> gameAt (final r) !! p = Some g0)
  /\ bytesAt (final r) = bytesAt w
  /\ exists g', stored (final r) (Key g) = Some g'
       /\ Info g' = Info g /\ RawData g' = RawData g /\ Source g' = Source g
       /\ PeerIP g' = PeerIP g /\ PeerName g' = PeerName g
       /\ wall (steps w) <= LastSeen g'
       /\ (games w !! Key g = None ->
           FirstSeen g' = wall (steps w) /\ FirstSeen g' <= LastSeen g').
Proof.
  cbv zeta. destruct (Add_final g w) as (t1 & g' & Hg & Hc & Hb & Hg' & Ht).
  split; [apply Add_result|]. rewrite Hg, Hc, Hb.
  split; [apply dom_insert_L|].
  split; [intros k Hk; by rewrite lookup_insert_ne|].
  split.
  { intros p g0 Hp. rewrite lookup_insert_ne; [done|]. intros <-.
    apply (is_fresh (dom (gameAt w))). apply elem_of_dom. by eexists. }
  split; [done|]. exists g'.
  split.
  { unfold stored, deref. rewrite Hg, Hc, lookup_insert_eq. cbn. by rewrite lookup_insert_eq. }
  subst g'. destruct (bool_decide (is_Some (games w !! Key g))) eqn:E;
    cbn [setLastSeen setFirstSeen Info RawData Source PeerIP PeerName FirstSeen LastSeen];
    (do 5 (split; [done|])); (split; [exact Ht|]).
  - intros Hnone. apply bool_decide_eq_true_1 in E. rewrite Hnone in E. by destruct E.
  - intros _. split; [done|]. etrans; [|exact Ht]. lia.
Qed.

(** X3. [Remove] of the key right after [Add] succeeds and leaves the
    map as it was without that key: an insertion is undone exactly. *)
Theorem Add_then_Remove (g : Game) (w : World) :
  let r1 := run (Add g) w in
  let r2 := run (Remove (Key g)) (final r1) in
  result r2 = true
  /\ games (final r2) = delete (Key g) (games w)
  /\ (games w !! Key g = None -> games (final r2) = games w).
Proof.
  cbv zeta. destruct (Add_final g w) as (t1 & g' & Hg & _).
  destruct (Remove_final (Key g) (final (run (Add g) w))) as (Hres & Hdel).
  split.
  { apply Hres. rewrite Hg, lookup_insert_eq. by eexists. }
  rewrite Hdel, Hg, delete_insert_eq.
  split; [done|]. intros Hnone. by apply delete_id.
Qed.

(** X4. With a callback, [Add] notifies exactly once, after the
    mutation, with a fresh slice holding the games of the registry as
    [Add] leaves it, the added game included; without one it notifies
    nothing. *)
Theorem Add_notifies (g : Game) (w : World) :
  let r := run (Add g) w in
  (onChange w = false -> events r = [])
  /\ (onChange w = true ->
      exists s, events r = [OnChange (Some s)] /\ (s ∉ dom (gamesAt w))
                /\ gamesOf (final r) (Some s) ≡ₚ entries (final r)
                /\ exists g', stored (final r) (Key g) = Some g'
                              /\ g' ∈ gamesOf (final r) (Some s)).
Proof.
  cbv zeta. pose proof (Add_stored g w) as Hst.
  set (g' := if bool_decide (is_Some (games w !! Key g)) then _ else _) in Hst.
  pose proof (Add_run g w) as E. cbn zeta in E. rewrite E in *. clear E.
  match goal with |- context [notify ?w2] =>
    pose proof (notify_spec w2) as (_ & _ & _ & Hon & Hoff); set (w2' := w2) in * end.
  assert (Hoc : onChange w2' = onChange w /\ gamesAt w2' = gamesAt w).
  { subst w2'. by destruct (bool_decide (is_Some (games w !! Key g))). }
  destruct Hoc as [Hoc Hga]. rewrite Hoc, Hga in *.
  unfold result, final, events in *. cbn [fst snd] in *.
  split; [intros Hf; by apply Hoff|].
  intros Ht. destruct (Hon Ht) as (s & He & Hs & Hp). exists s.
  split; [done|]. split; [done|]. split; [done|]. exists g'. split; [done|].
  rewrite Hp. unfold stored in Hst. unfold entries.
  destruct (games (notify w2').1.2 !! Key g) as [p|] eqn:Ep; [|discriminate Hst].
  injection Hst as <-. apply list_elem_of_fmap. exists p. split; [done|].
  apply list_elem_of_fmap. exists (Key g, p). split; [done|]. by apply elem_of_map_to_list.
Qed.

Lemma exec_keys (op : Op) (w : World) :
  isExpire op = false ->
  dom (games (final (run (exec op) w))) = keysAfter [op] (dom (games w)).
Proof.
  intros Hop. destruct op; try discriminate Hop; unfold exec; rewrite run_bind;
    cbn [keysAfter foldl].
  - destruct (Add_final g w) as (t1 & g' & Hg & _).
    destruct (run (Add g) w) as [[b w1] e1]. unfold final in *. cbn [fst snd mret M_ret] in *.
    rewrite Hg. apply dom_insert_L.
  - destruct (Remove_final key w) as (_ & Hg).
    destruct (run (Remove key) w) as [[b w1] e1]. unfold final in *. cbn [fst snd mret M_ret] in *.
    rewrite Hg. apply dom_delete_L.
  - done.
  - done.
  - done.
  - rewrite FindByHostCounter_run.
    by destruct (findLoop w hostCounter (range (steps w) (games w))).
Qed.

(** X5. After any sequence of registry calls without [Expire], the keys
    present are those there before, plus the keys added, minus the keys
    removed, in the order of the calls. *)
Theorem keys_after_calls (ops : list Op) :
  forall w, Forall (fun op => isExpire op = false) ops ->
            dom (games (execAll ops w)) = keysAfter ops (dom (games w)).
Proof.
  induction ops as [|op ops IH]; intros w Hops; [reflexivity|].
  apply Forall_cons in Hops as [Hop Hops]. cbn [execAll].
  rewrite (IH _ Hops), (exec_keys op w Hop). reflexivity.
Qed.

(** X6. [Games] returns a fresh slice that holds every game of the
    registry exactly once, in some order; [LocalGames] and [RemoteGames]
    return those of them whose source is local, respectively remote. None
    of the three changes the registry or notifies. *)
Theorem reads_return_entries (w : World) :
  let rg := run Games w in
  let rl := run LocalGames w in
  let rr := run RemoteGames w in
  (gamesOf (final rg) (result rg) ≡ₚ entries w
   /\ length (gamesOf (final rg) (result rg)) = size (games w))
  /\ gamesOf (final rl) (result rl) ≡ₚ filter (fun g => Source g = SourceLocal) (entries w)
  /\ gamesOf (final rr) (result rr) ≡ₚ filter (fun g => Source g = SourceRemote) (entries w)
  /\ (forall r, r = rg \/ r = rl \/ r = rr ->
       games (final r) = games w /\ gameAt (final r) = gameAt w
       /\ bytesAt (final r) = bytesAt w /\ events r = []
       /\ exists s, result r = Some s /\ s ∉ dom (gamesAt w)).
Proof.
  cbv zeta.
  assert (Hread : forall l : list Game,
             gamesOf (setGamesAt <[fresh (dom (gamesAt w)) := l]> (tick w))
               (Some (fresh (dom (gamesAt w)))) = l).
  { intros l. cbn [gamesOf setGamesAt gamesAt tick]. by rewrite lookup_insert_eq. }
  split; [|split; [|split]].
  - unfold Games. rewrite snapshot_run. unfold result, final. cbn [fst snd].
    rewrite Hread. split; [apply range_entries|].
    by rewrite length_fmap, (Permutation_length (range_perm _ _ _)), length_map_to_list.
  - unfold LocalGames, mbind, M_bind, get, rangeMap, makeGames, result, final.
    cbn [fst snd mret M_ret]. rewrite Hread. unfold filterSource.
    by rewrite range_entries.
  - unfold RemoteGames, mbind, M_bind, get, rangeMap, makeGames, result, final.
    cbn [fst snd mret M_ret]. rewrite Hread. unfold filterSource.
    by rewrite range_entries.
  - intros r [-> | [-> | ->]];
      (repeat split; try done; eexists; split; [reflexivity | apply is_fresh]).
Qed.

Lemma expireLoop_cons (timeout : Z) (key : string) (p : loc) (rest : list (string * loc))
    (removed : nat) (w : World) :
  run (expireLoop timeout ((key, p) :: rest) removed) w =
  if timeout <? wall (steps w) - LastSeen (deref w p)
  then run (expireLoop timeout rest (S removed)) (setGames (delete key) (tick w))
  else run (expireLoop timeout rest removed) (tick w).
Proof.
  cbn [expireLoop]. unfold IsStale, mbind, M_bind, get, now, modify. cbn [mret M_ret].
  destruct (timeout <? wall (steps w) - LastSeen (deref w p)).
  - by destruct (expireLoop timeout rest (S removed) (setGames (delete key) (tick w)))
      as [[n w3] e3].
  - by destruct (expireLoop timeout rest removed (tick w)) as [[n w3] e3].
Qed.

(** The sweep of [Expire] over entries with distinct keys: an entry is
    deleted when it is stale at the clock reading taken for it and is kept
    as it is otherwise. *)
Lemma expireLoop_spec (timeout : Z) (it : list (string * loc)) :
  NoDup it.*1 ->
  forall removed w,
    (forall k p, (k, p) ∈ it -> games w !! k = Some p) ->
    let r := run (expireLoop timeout it removed) w in
    (gameAt (final r) = gameAt w /\ bytesAt (final r) = bytesAt w
     /\ gamesAt (final r) = gamesAt w /\ onChange (final r) = onChange w)
    /\ steps (final r) = (steps w + length it)%nat
    /\ events r = []
    /\ games (final r) ⊆ games w
    /\ (result r + size (games (final r)) = removed + size (games w))%nat
    /\ (forall k p, (k, p) ∈ it ->
         (games (final r) !! k = None
          /\ exists j, (steps w <= j < steps (final r))%nat
                       /\ timeout < wall j - LastSeen (deref w p))
         \/ (games (final r) !! k = Some p
             /\ exists j, (steps w <= j)%nat /\ wall j - LastSeen (deref w p) <= timeout))
    /\ (forall k, k ∉ it.*1 -> games (final r) !! k = games w !! k).
Proof.
  induction it as [|[key p] rest IH]; intros Hnd removed w Hit; cbv zeta.
  { unfold result, final, events. cbn [expireLoop mret M_ret fst snd length].
    split; [repeat split|]. split; [lia|]. split; [done|]. split; [done|]. split; [done|].
    split; [|done]. intros k p Hin. by apply elem_of_nil in Hin. }
  cbn [fmap list_fmap fst] in Hnd. apply NoDup_cons in Hnd as [Hkey Hnd].
  rewrite expireLoop_cons.
  assert (Hkp : games w !! key = Some p) by (apply Hit; apply list_elem_of_here).
  destruct (Z.ltb_spec timeout (wall (steps w) - LastSeen (deref w p))) as [Hstale|Hfresh].
  - set (w2 := setGames (delete key) (tick w)).
    assert (Hit2 : forall k p0, (k, p0) ∈ rest -> games w2 !! k = Some p0).
    { intros k p0 Hin. subst w2. cbn [setGames games tick].
      rewrite lookup_delete_ne; [apply Hit; by apply list_elem_of_further|].
      intros <-. apply Hkey. apply list_elem_of_fmap. by exists (key, p0). }
    specialize (IH Hnd (S removed) w2 Hit2). cbv zeta in IH.
    destruct (expireLoop timeout rest (S removed) w2) as [[n w3] e3].
    unfold result, final, events in *. cbn [fst snd] in *.
    destruct IH as ((Hc & Hb & Hga & Hon) & Hst & He & Hsub & Hsize & Hcases & Hother).
    subst w2. cbn [setGames games gameAt bytesAt gamesAt onChange steps tick length] in *.
    split; [repeat split; assumption|]. split; [lia|]. split; [by rewrite He|].
    split; [etrans; [exact Hsub | apply delete_subseteq]|].
    split.
    { rewrite Hsize. rewrite map_size_delete_Some by (by eexists).
      assert (size (games w) ≠ 0%nat); [|lia].
      intros Hz. apply map_size_empty_inv in Hz. rewrite Hz in Hkp. by rewrite lookup_empty in Hkp. }
    split.
    + intros k p0 Hin. apply elem_of_cons in Hin as [[= -> ->]|Hin].
      * left. split.
        -- rewrite Hother by done. apply lookup_delete_eq.
        -- exists (steps w). split; [lia | done].
      * destruct (Hcases k p0 Hin) as [(Hn & j & Hj & Hs)|(Hs & j & Hj & Hf)].
        -- left. split; [done|]. exists j. split; [lia | done].
        -- right. split; [done|]. exists j. split; [lia | done].
    + intros k Hk. cbn [fmap list_fmap fst] in Hk. apply not_elem_of_cons in Hk as [Hne Hk].
      rewrite (Hother k Hk). by apply lookup_delete_ne.
  - assert (Hit2 : forall k p0, (k, p0) ∈ rest -> games (tick w) !! k = Some p0).
    { intros k p0 Hin. apply Hit. by apply list_elem_of_further. }
    specialize (IH Hnd removed (tick w) Hit2). cbv zeta in IH.
    destruct (expireLoop timeout rest removed (tick w)) as [[n w3] e3].
    unfold result, final, events in *. cbn [fst snd] in *.
    destruct IH as ((Hc & Hb & Hga & Hon) & Hst & He & Hsub & Hsize & Hcases & Hother).
    cbn [games gameAt bytesAt gamesAt onChange steps tick length] in *.
    split; [repeat split; assumption|]. split; [lia|]. split; [by rewrite He|].
    split; [done|]. split; [done|]. split.
    + intros k p0 Hin. apply elem_of_cons in Hin as [[= -> ->]|Hin].
      * right. split; [by rewrite Hother|]. exists (steps w). split; [lia | done].
      * destruct (Hcases k p0 Hin) as [(Hn & j & Hj & Hs)|(Hs & j & Hj & Hf)].
        -- left. split; [done|]. exists j. split; [lia | done].
        -- right. split; [done|]. exists j. split; [lia | done].
    + intros k Hk. cbn [fmap list_fmap fst] in Hk. apply not_elem_of_cons in Hk as [Hne Hk].
      by apply Hother.
Qed.

(** X7. [Expire] returns the number of entries it deleted; the entries
    it keeps are untouched. Every deleted entry is stale by the end of the
    sweep and every kept entry was not stale when the sweep began. It
    notifies once, with the games left, when it deleted something and
    there is a callback, and nothing otherwise. *)
Theorem Expire_contract (timeout : Z) (w : World) :
  let r := run (Expire timeout) w in
  games (final r) ⊆ games w
  /\ size (games w) = (result r + size (games (final r)))%nat
  /\ (gameAt (final r) = gameAt w /\ bytesAt (final r) = bytesAt w)
  /\ (forall k p, games w !! k = Some p -> games (final r) !! k = None ->
       timeout < wall (steps (final r)) - LastSeen (deref w p))
  /\ (forall k p, games (final r) !! k = Some p ->
       wall (steps w) - LastSeen (deref w p) <= timeout)
  /\ (result r = 0%nat -> events r = [])
  /\ (onChange w = false -> events r = [])
  /\ ((0 < result r)%nat -> onChange w = true ->
      exists s, events r = [OnChange (Some s)]
                /\ gamesOf (final r) (Some s) ≡ₚ entries (final r)).
Proof.
  cbv zeta. rewrite Expire_run.
  assert (Hnd : NoDup (range (steps w) (games w)).*1).
  { rewrite (range_perm _ (steps w) (games w)). apply NoDup_fst_map_to_list. }
  assert (Hit : forall k p, (k, p) ∈ range (steps w) (games w) -> games (tick w) !! k = Some p).
  { intros k p Hin. by apply range_lookup in Hin. }
  pose proof (expireLoop_spec timeout _ Hnd 0%nat (tick w) Hit) as Hloop. cbv zeta in Hloop.
  destruct (run (expireLoop timeout (range (steps w) (games w)) 0%nat) (tick w))
    as [[removed w1] e1].
  unfold result, final, events in Hloop. cbn [fst snd games gameAt bytesAt gamesAt onChange steps tick] in Hloop.
  destruct Hloop as ((Hc & Hb & Hga & Hon) & Hst & He & Hsub & Hsize & Hcases & Hother).
  subst e1.
  assert (Hrem : forall k p, games w !! k = Some p -> games w1 !! k = None ->
                             exists j, (j < steps w1)%nat
                                       /\ timeout < wall j - LastSeen (deref w p)).
  { intros k p Hk Hnone. apply range_lookup with (i := steps w) in Hk.
    destruct (Hcases k p Hk) as [(_ & j & Hj & Hs)|(Hs & _)]; [|congruence].
    exists j. split; [lia | exact Hs]. }
  assert (Hkept : forall k p, games w1 !! k = Some p ->
                              wall (steps w) - LastSeen (deref w p) <= timeout).
  { intros k p Hk. pose proof (lookup_weaken _ _ _ _ Hk Hsub) as Hk0.
    apply range_lookup with (i := steps w) in Hk0.
    destruct (Hcases k p Hk0) as [(Hn & _)|(_ & j & Hj & Hf)]; [congruence|].
    assert (wall (steps w) <= wall j) by (apply wall_mono; lia).
    assert (deref (tick w) p = deref w p) as Hd by done. rewrite Hd in Hf. lia. }
  assert (Hstale : forall j p, (j < steps w1)%nat ->
                     forall n, (steps w1 <= n)%nat ->
                     timeout < wall j - LastSeen (deref w p) ->
                     timeout < wall n - LastSeen (deref w p)).
  { intros j p Hj n Hn Hlt. assert (wall j <= wall n) by (apply wall_mono; lia). lia. }
  destruct (Nat.ltb_spec 0 removed) as [Hpos|Hzero].
  - pose proof (notify_spec w1) as (Hg & Hc' & Hb' & Hon' & Hoff'). cbv zeta in *.
    assert (Hsteps : (steps w1 <= steps (final (run notify w1)))%nat).
    { rewrite notify_run. destruct (onChange w1); unfold final; cbn; lia. }
    unfold result, final, events in *. cbn [fst snd] in *.
    rewrite Hg, Hc', Hb', Hc, Hb. cbn [app].
    split; [done|]. split; [lia|]. split; [done|].
    split.
    { intros k p Hk Hnone. destruct (Hrem k p Hk Hnone) as (j & Hj & Hlt).
      by apply (Hstale j p Hj). }
    split; [exact Hkept|].
    split; [lia|].
    split; [intros Hf; apply Hoff'; by rewrite Hon|].
    intros _ Ht. rewrite <- Hon in Ht. destruct (Hon' Ht) as (s & Hev & _ & Hp). by exists s.
  - unfold result, final, events. cbn [fst snd].
    rewrite Hc, Hb.
    split; [done|]. split; [lia|]. split; [done|].
    split.
    { intros k p Hk Hnone. destruct (Hrem k p Hk Hnone) as (j & Hj & Hlt).
      by apply (Hstale j p Hj). }
    split; [exact Hkept|].
    split; [done|]. split; [done|]. intros Hpos. lia.
Qed.

End with_runtime.

Import sample.

Lemma keys_after_calls_witness :
  dom (games (execAll [OpAdd (deref world1 1%positive); OpGames; OpRemove "x";
                       OpRemove "100.64.0.2:g1"] world0)) = ∅.
Proof.
  rewrite (keys_after_calls _ world0).
  - vm_compute. reflexivity.
  - repeat constructor.
Defined.

End RegistryMore.

(** ** game/game.go: keys *)

Module KeyFacts.
Import netip w3gs game strconv vocabulary StrconvFacts.

Lemma append_cons (c : ascii) (r x : string) : String c r +:+ x = String c (r +:+ x).
Proof. reflexivity. Qed.

Lemma append_assoc (a b c : string) : (a +:+ b) +:+ c = a +:+ (b +:+ c).
Proof. induction a as [|x a IH]; [reflexivity|]. by rewrite !append_cons, IH. Qed.

Lemma fmtDecimal_head (more : nat) :
  forall u acc, exists c rest, fmtDecimal more u acc = String c rest /\ isDigit c = true.
Proof.
  assert (one : forall u, isDigit (char (48 + u mod 10)) = true).
  { intros u. apply digit_char. apply Z.mod_pos_bound. lia. }
  induction more as [|k IH]; intros u acc; cbn [fmtDecimal].
  - eexists _, _. split; [reflexivity | apply one].
  - destruct (u / 10 =? 0); [|apply IH].
    eexists _, _. split; [reflexivity | apply one].
Qed.

(** A string of digits followed by a separator that is no digit
    determines both the digits and what follows the separator. *)
Lemma split_digits (sep : ascii) (s1 : string) :
  forall s2 t1 t2,
    isDigit sep = false ->
    allChars isDigit s1 = true -> allChars isDigit s2 = true ->
    s1 +:+ String sep t1 = s2 +:+ String sep t2 ->
    s1 = s2 /\ t1 = t2.
Proof.
  induction s1 as [|c s1 IH]; intros [|c2 s2] t1 t2 Hsep H1 H2 Heq.
  - by injection Heq.
  - rewrite append_cons in Heq. injection Heq as <- _.
    cbn [allChars] in H2. apply andb_prop in H2 as [H2 _]. congruence.
  - rewrite append_cons in Heq. injection Heq as -> _.
    cbn [allChars] in H1. apply andb_prop in H1 as [H1 _]. congruence.
  - rewrite !append_cons in Heq. injection Heq as -> Heq.
    cbn [allChars] in H1, H2.
    apply andb_prop in H1 as [_ H1]. apply andb_prop in H2 as [_ H2].
    destruct (IH s2 t1 t2 Hsep H1 H2 Heq) as [-> ->]. done.
Qed.

Lemma utoa_inj (a b : Z) : Go.is_uint32 a -> Go.is_uint32 b -> utoa a = utoa b -> a = b.
Proof.
  intros Ha Hb Heq. pose proof (ParseUint10_utoa a Ha) as Pa.
  rewrite Heq, (ParseUint10_utoa b Hb) in Pa. by injection Pa.
Qed.

(** X8. A game learned from loopback and a game with any other source
    never have the same key, and two local games have the same key exactly
    when they have the same name. *)
Theorem Key_local (g1 g2 : Game) :
  Source g1 = SourceLocal ->
  (Source g2 ≠ SourceLocal -> Key g1 ≠ Key g2)
  /\ (Source g2 = SourceLocal ->
      (Key g1 = Key g2 <-> GameName (Info g1) = GameName (Info g2))).
Proof.
  intros H1. unfold Key. rewrite (bool_decide_eq_true_2 _ H1). split.
  - intros H2. rewrite (bool_decide_eq_false_2 _ H2).
    change ("local:" +:+ GameName (Info g1))
      with (String "l" ("ocal:" +:+ GameName (Info g1))).
    destruct (PeerIP g2) as [|a b c d]; cbn [AddrString].
    + change ("invalid IP" +:+ ":" +:+ GameName (Info g2))
        with (String "i" ("nvalid IP" +:+ ":" +:+ GameName (Info g2))).
      discriminate.
    + destruct (fmtDecimal_head 19 a EmptyString) as (ch & rest & Hd & Hdig).
      unfold utoa at 1. rewrite Hd, !append_cons. intros [= <- _]. discriminate Hdig.
  - intros H2. rewrite (bool_decide_eq_true_2 _ H2). split.
    + intros Heq. by injection Heq.
    + by intros ->.
Qed.

Lemma Key_local_witness :
  Key (mkGame (mkGameInfo "g1" 7 1 8 7 6112) None SourceLocal (IPv4 127 0 0 1) "local" 0 0)
  ≠ Key (mkGame (mkGameInfo "g1" 7 1 8 7 6112) None SourceRemote (IPv4 127 0 0 1) "" 0 0).
Proof. apply Key_local; [reflexivity | discriminate]. Defined.

(** X9. Two games that are not local and come from IPv4 peers have the
    same key exactly when they have the same peer address and the same
    name. *)
Theorem Key_remote_injective (g1 g2 : Game) :
  Source g1 ≠ SourceLocal -> Source g2 ≠ SourceLocal ->
  isIPv4 (PeerIP g1) -> isIPv4 (PeerIP g2) ->
  (Key g1 = Key g2 <-> PeerIP g1 = PeerIP g2 /\ GameName (Info g1) = GameName (Info g2)).
Proof.
  intros H1 H2 I1 I2. unfold Key.
  rewrite (bool_decide_eq_false_2 _ H1), (bool_decide_eq_false_2 _ H2).
  split; [|by intros [-> ->]].
  destruct (PeerIP g1) as [|a b c d]; [done|]. destruct (PeerIP g2) as [|a' b' c' d']; [done|].
  cbn [isIPv4] in I1, I2. unfold Go.is_byte in *.
  destruct I1 as (Ia & Ib & Ic & Id). destruct I2 as (Ia' & Ib' & Ic' & Id').
  assert (Hu : forall x, 0 <= x <= 255 -> Go.is_uint32 x).
  { intros x Hx. unfold Go.is_uint32, Go.maxUint32. lia. }
  assert (Hdig : forall x, 0 <= x <= 255 -> allChars isDigit (utoa x) = true).
  { intros x Hx. apply utoa_digits. lia. }
  cbn [AddrString]. rewrite !append_assoc.
  change ("." +:+ ?x) with (String "." x).
  intros Heq.
  apply split_digits in Heq as [Ea Heq]; [|reflexivity|by apply Hdig..].
  change ("." +:+ utoa c +:+ "." +:+ utoa d +:+ ":" +:+ GameName (Info g1))
    with (String "." (utoa c +:+ "." +:+ utoa d +:+ ":" +:+ GameName (Info g1))) in Heq.
  change ("." +:+ utoa c' +:+ "." +:+ utoa d' +:+ ":" +:+ GameName (Info g2))
    with (String "." (utoa c' +:+ "." +:+ utoa d' +:+ ":" +:+ GameName (Info g2))) in Heq.
  apply split_digits in Heq as [Eb Heq]; [|reflexivity|by apply Hdig..].
  change ("." +:+ utoa d +:+ ":" +:+ GameName (Info g1))
    with (String "." (utoa d +:+ ":" +:+ GameName (Info g1))) in Heq.
  change ("." +:+ utoa d' +:+ ":" +:+ GameName (Info g2))
    with (String "." (utoa d' +:+ ":" +:+ GameName (Info g2))) in Heq.
  apply split_digits in Heq as [Ec Heq]; [|reflexivity|by apply Hdig..].
  change (":" +:+ GameName (Info g1)) with (String ":" (GameName (Info g1))) in Heq.
  change (":" +:+ GameName (Info g2)) with (String ":" (GameName (Info g2))) in Heq.
  apply split_digits in Heq as [Ed Heq]; [|reflexivity|by apply Hdig..].
  apply utoa_inj in Ea, Eb, Ec, Ed; try by apply Hu.
  by subst.
Qed.

Lemma Key_remote_injective_witness :
  Key (mkGame (mkGameInfo "g1" 7 1 8 7 6112) None SourceRemote (IPv4 100 64 0 2) "P1" 0 0)
  ≠ Key (mkGame (mkGameInfo "g1" 7 1 8 7 6112) None SourceRemote (IPv4 100 64 0 3) "P2" 0 0).
Proof.
  intros Heq.
  apply (Key_remote_injective _ _) in Heq as [Hip _];
    [discriminate Hip | discriminate | discriminate | | ];
    cbn; unfold Go.is_byte; lia.
Defined.

End KeyFacts.

(** ** lan/broadcaster.go: one tick *)

Module LanMore.
Import netip w3gs game rt lan vocabulary GoFacts RtFacts LanFacts.

Lemma bytesOf_allocated (w0 w : World) (gs : list Game) (g : Game) :
  rawAllocated w0 gs -> bytesAt w0 ⊆ bytesAt w -> g ∈ gs ->
  bytesOf w (RawData g) = bytesOf w0 (RawData g).
Proof.
  intros Hal Hsub Hin. destruct (RawData g) as [a|] eqn:E; [|done].
  apply (Hal g a Hin) in E. apply elem_of_dom in E as [bs Hbs].
  cbn [bytesOf]. by rewrite (lookup_weaken _ _ _ _ Hbs Hsub), Hbs.
Qed.

(** The first loop changes nothing of the store but for the arrays it
    allocates for the datagrams. *)
Lemma announceLoop_frame (b : Broadcaster) (gs : list Game) :
  forall (cur : gmap string Z) (w : World),
    let r := run (announceLoop b gs cur) w in
    bytesAt w ⊆ bytesAt (final r)
    /\ gameAt (final r) = gameAt w /\ gamesAt (final r) = gamesAt w
    /\ games (final r) = games w /\ onChange (final r) = onChange w.
Proof.
  induction gs as [|g rest IH]; intros cur w; cbv zeta.
  - done.
  - cbn [announceLoop]. destruct (bool_decide (Source g ≠ SourceRemote)); [apply IH|].
    rewrite run_bind.
    pose proof (sendRawGameInfo_run b g w) as Hsend. cbn zeta in Hsend. rewrite Hsend.
    clear Hsend.
    destruct (length (bytesOf w (RawData g)) <? 4)%nat;
      cbv beta iota zeta; rewrite run_bind; unfold sendRefreshGame, emit; cbv beta iota zeta;
      set (cur1 := <[Key g := HostCounter (Info g)]> cur).
    + specialize (IH cur1 w).
      destruct (run (announceLoop b rest cur1) w) as [[res w2] e2].
      unfold final in *. cbn [fst snd] in *. exact IH.
    + match goal with |- context [announceLoop b rest cur1 ?w1] =>
        specialize (IH cur1 w1);
        destruct (run (announceLoop b rest cur1) w1) as [[res w2] e2] end.
      unfold final in *. cbn [fst snd setBytesAt bytesAt gameAt gamesAt games onChange] in *.
      destruct IH as (Hb & Hrest). split; [|exact Hrest].
      etrans; [|exact Hb]. apply insert_subseteq, not_elem_of_dom, is_fresh.
Qed.

(** The datagrams of the first loop, in the order of the slice. *)
Lemma announceLoop_trace (b : Broadcaster) (w0 : World) (gs : list Game) :
  forall (cur : gmap string Z) (w : World),
    rawAllocated w0 gs -> bytesAt w0 ⊆ bytesAt w ->
    events (run (announceLoop b gs cur) w)
    = concat (announcementOf b w0 <$> List.filter isRemote gs).
Proof.
  induction gs as [|g rest IH]; intros cur w Hal Hsub.
  - done.
  - assert (Hal' : rawAllocated w0 rest).
    { intros g' a Hin. apply Hal. by apply list_elem_of_further. }
    cbn [announceLoop List.filter]. unfold isRemote at 1.
    destruct (decide (Source g = SourceRemote)) as [Hrem|Hloc].
    + rewrite (bool_decide_eq_false_2 (Source g ≠ SourceRemote)) by tauto.
      rewrite (bool_decide_eq_true_2 _ Hrem).
      cbn [fmap list_fmap concat].
      rewrite run_bind.
      pose proof (sendRawGameInfo_run b g w) as Hsend. cbn zeta in Hsend. rewrite Hsend.
      clear Hsend.
      unfold announcementOf at 1.
      rewrite <- (bytesOf_allocated w0 w (g :: rest) g Hal Hsub (list_elem_of_here _ _)).
      destruct (length (bytesOf w (RawData g)) <? 4)%nat;
        cbv beta iota zeta; rewrite run_bind; unfold sendRefreshGame, emit; cbv beta iota zeta;
        set (cur1 := <[Key g := HostCounter (Info g)]> cur).
      * specialize (IH cur1 w Hal' Hsub).
        destruct (run (announceLoop b rest cur1) w) as [[res w2] e2].
        unfold events in *. cbn [fst snd] in *. by rewrite IH.
      * match goal with |- context [announceLoop b rest cur1 ?w1] =>
          assert (Hsub1 : bytesAt w0 ⊆ bytesAt w1);
          [|specialize (IH cur1 w1 Hal' Hsub1);
            destruct (run (announceLoop b rest cur1) w1) as [[res w2] e2]] end.
        { cbn [setBytesAt bytesAt]. etrans; [exact Hsub|].
          apply insert_subseteq, not_elem_of_dom, is_fresh. }
        unfold events in *. cbn [fst snd] in *. by rewrite IH.
    + rewrite (bool_decide_eq_true_2 (Source g ≠ SourceRemote)) by done.
      rewrite (bool_decide_eq_false_2 _ Hloc). by apply IH.
Qed.

(** X10. The datagrams of a tick, in order: for every remote game of
    the broadcaster's slice, in slice order, its raw packet with the port
    rewritten (unless the packet is shorter than four bytes) followed by
    its RefreshGame; then the DecreateGames, in the order the loop visits
    the previous keys. Games that are not remote get nothing. *)
Theorem tick_trace `{Runtime} (b : Broadcaster) (w : World) :
  rawAllocated w (gamesOf w (bGames b)) ->
  events (run (broadcastGames b) w)
  = concat (announcementOf b w <$> List.filter isRemote (gamesOf w (bGames b)))
    ++ ((fun kh => WriteTo (decreatePacket kh.2) (broadcastAddr b))
          <$> filter (isRemoved (remoteKeys (gamesOf w (bGames b))))
                (range (steps w) (previousGameKeys b))).
Proof.
  intros Hal. rewrite broadcastGames_run.
  set (gs := gamesOf w (bGames b)) in *.
  destruct (announceLoop_run b gs ∅ w) as (Hres & Hsteps & _).
  pose proof (announceLoop_trace b w gs ∅ w Hal (reflexivity _)) as Hev.
  destruct (run (announceLoop b gs ∅) w) as [[cur w1] e1].
  unfold result, final, events in *. cbn [fst snd] in *.
  rewrite (right_id_L ∅ (∪)) in Hres. fold (lastHostCounters gs) in Hres.
  by rewrite Hev, Hsteps, Hres, lastHostCounters_dom.
Qed.

(** X11. A tick leaves the registry, every game cell, every slice of
    games and every byte array already in the store as they were; the
    arrays it builds for its datagrams are new. The broadcaster keeps its
    slice, its port and its destination, and the map is iterated once. *)
Theorem tick_frame `{Runtime} (b : Broadcaster) (w : World) :
  let r := run (broadcastGames b) w in
  games (final r) = games w
  /\ gameAt (final r) = gameAt w
  /\ gamesAt (final r) = gamesAt w
  /\ onChange (final r) = onChange w
  /\ bytesAt w ⊆ bytesAt (final r)
  /\ steps (final r) = S (steps w)
  /\ bGames (result r) = bGames b
  /\ proxyPort (result r) = proxyPort b
  /\ broadcastAddr (result r) = broadcastAddr b.
Proof.
  cbv zeta. rewrite broadcastGames_run.
  set (gs := gamesOf w (bGames b)).
  destruct (announceLoop_run b gs ∅ w) as (_ & Hsteps & _).
  destruct (announceLoop_frame b gs ∅ w) as (Hb & Hc & Hs & Hg & Ho).
  destruct (run (announceLoop b gs ∅) w) as [[cur w1] e1].
  unfold result, final in *. cbn [fst snd tick games gameAt gamesAt onChange bytesAt steps] in *.
  by rewrite Hsteps.
Qed.

Lemma safeUint16_range (n : Z) : Go.is_uint16 (cmd.safeUint16 n).
Proof.
  unfold cmd.safeUint16, Go.is_uint16, Go.maxUint16.
  destruct (Z.ltb_spec n 0); [lia|]. destruct (Z.ltb_spec 65535 n); lia.
Qed.

(** X12. The broadcaster that [initServices] creates from the port of
    the proxy announces, whatever that port is, a port in the range of
    uint16: the port itself when it is in range, 0 when it is negative and
    65535 when it is larger. Every raw announcement goes to
    255.255.255.255:6112 and ends with that port in little-endian. *)
Theorem announced_port_clamped (port : Z) (gs : option loc) (g : Game) (w : World) :
  let b := OnGamesChanged gs (cmd.newBroadcaster port) in
  let r := run (sendRawGameInfo b g) w in
  Go.is_uint16 (proxyPort b)
  /\ proxyPort b = Z.max 0 (Z.min port 65535)
  /\ (events r = []
      \/ exists payload,
           events r = [WriteTo payload (mkUDPAddr (IPv4 255 255 255 255) 6112)]
           /\ Go.le_decode (drop (length payload - 2) payload) = Z.max 0 (Z.min port 65535)).
Proof.
  cbv zeta. cbn [OnGamesChanged cmd.newBroadcaster NewBroadcaster proxyPort broadcastAddr].
  assert (Hclamp : cmd.safeUint16 port = Z.max 0 (Z.min port 65535)).
  { unfold cmd.safeUint16, Go.maxUint16.
    destruct (Z.ltb_spec port 0); [lia|]. destruct (Z.ltb_spec 65535 port); lia. }
  split; [apply safeUint16_range|]. split; [exact Hclamp|].
  pose proof (sendRawGameInfo_run (OnGamesChanged gs (cmd.newBroadcaster port)) g w) as Hsend.
  cbn zeta in Hsend. rewrite Hsend. clear Hsend.
  cbn [OnGamesChanged cmd.newBroadcaster NewBroadcaster proxyPort broadcastAddr].
  destruct (length (bytesOf w (RawData g)) <? 4)%nat; [by left|]. right.
  eexists. split; [reflexivity|].
  rewrite length_app. cbn [length]. rewrite Nat.add_sub.
  rewrite drop_app_length. rewrite <- Hclamp. apply le_decode_uint16, safeUint16_range.
Qed.

Import sample.

Lemma tick_trace_witness :
  events (run (broadcastGames
                 (mkBroadcaster (result (run registry.Games world1)) {[ "gone" := 9 ]} 40000
                    (mkUDPAddr (IPv4 255 255 255 255) 6112)))
            (final (run registry.Games world1)))
  = [ WriteTo [247; 48; 12; 0; 7; 0; 0; 0; 1; 8; 64; 156] (mkUDPAddr (IPv4 255 255 255 255) 6112);
      WriteTo [247; 50; 16; 0; 7; 0; 0; 0; 1; 0; 0; 0; 7; 0; 0; 0]
        (mkUDPAddr (IPv4 255 255 255 255) 6112);
      WriteTo [247; 51; 8; 0; 9; 0; 0; 0] (mkUDPAddr (IPv4 255 255 255 255) 6112) ].
Proof.
  rewrite tick_trace.
  - vm_compute. reflexivity.
  - intros g a Hin Hraw. vm_compute in Hin.
    apply list_elem_of_singleton in Hin. subst g. injection Hraw as <-.
    vm_compute. reflexivity.
Defined.

End LanMore.

(** ** peer/manager.go: the receive loop *)

Module PeerMore.
Import netip w3gs game rt tailscale peer registry vocabulary RtFacts RegistryFacts RegistryMore.

Section with_runtime.
Context `{Runtime} `{Codec}.

(** One datagram: the bytes read are copied to a new array; a GameInfo
    goes to [Add] with that array, anything else is dropped. *)
Lemma receive_run (m : Manager) (data : list Z) (from : Addr) (w : World) :
  run (receive m data from) w =
  let a := fresh (dom (bytesAt w)) in
  let w1 := setBytesAt <[a := take udpBufferSize data]> w in
  match Deserialize (take udpBufferSize data) with
  | Some (PktGameInfo info) =>
      let g := if IsLoopback from
               then mkGame info (Some a) SourceLocal from "local" 0 0
               else mkGame info (Some a) SourceRemote from (findPeerName from (peers m)) 0 0 in
      (tt, final (run (Add g) w1), events (run (Add g) w1))
  | _ => (tt, w1, [])
  end.
Proof.
  unfold receive. rewrite run_bind. unfold makeBytes. cbv beta iota zeta.
  destruct (Deserialize (take udpBufferSize data)) as [[info| | |]|]; try reflexivity.
  unfold handleGameInfo.
  destruct (IsLoopback from); rewrite run_bind;
    match goal with |- context [Add ?g ?w1] => destruct (Add g w1) as [[b w2] e2] end;
    unfold final, events; cbn [fst snd mret M_ret]; by rewrite app_nil_r.
Qed.

(** X13. A GameInfo datagram puts a game under its key with the decoded
    packet as [Info], the sender as [PeerIP], source local and peer name
    [local] when the sender is a loopback address, source remote and the
    name of the first peer with that address (empty when there is none)
    otherwise. Its [RawData] is an array that did not exist before and
    holds the datagram as read, cut at the 512 bytes of the buffer. Other
    keys and every existing byte array stay as they were. *)
Theorem receive_stores (m : Manager) (data : list Z) (from : Addr) (info : GameInfo)
    (w : World) :
  Deserialize (take udpBufferSize data) = Some (PktGameInfo info) ->
  let r := run (receive m data from) w in
  exists g a,
    stored (final r) (Key g) = Some g
    /\ Info g = info /\ PeerIP g = from
    /\ Source g = (if IsLoopback from then SourceLocal else SourceRemote)
    /\ PeerName g = (if IsLoopback from then "local"%string
                     else findPeerName from (peers m))
    /\ RawData g = Some a /\ (a ∉ dom (bytesAt w))
    /\ bytesOf (final r) (RawData g) = take 512 data
    /\ bytesAt w ⊆ bytesAt (final r)
    /\ dom (games (final r)) = {[Key g]} ∪ dom (games w)
    /\ (forall k, k ≠ Key g -> games (final r) !! k = games w !! k).
Proof.
  intros Hdec. cbv zeta. rewrite receive_run, Hdec. cbv zeta.
  set (a := fresh (dom (bytesAt w))).
  set (w1 := setBytesAt <[a := take udpBufferSize data]> w).
  set (g0 := if IsLoopback from then _ else _).
  destruct (Add_final g0 w1) as (t1 & g' & Hg & Hc & Hb & Hg' & _).
  set (w2 := final (run (Add g0) w1)) in *.
  set (e2 := events (run (Add g0) w1)).
  change (final (tt, w2, e2)) with w2.
  assert (Hkey : Key g' = Key g0).
  { subst g'. by destruct (bool_decide (is_Some (games w1 !! Key g0))). }
  assert (Hfields : Info g' = Info g0 /\ PeerIP g' = PeerIP g0 /\ Source g' = Source g0
                    /\ PeerName g' = PeerName g0 /\ RawData g' = RawData g0).
  { subst g'. by destruct (bool_decide (is_Some (games w1 !! Key g0))). }
  destruct Hfields as (Hi & Hp & Hs & Hn & Hr).
  exists g', a. rewrite Hkey, Hi, Hp, Hs, Hn, Hr.
  split.
  { unfold stored, deref. rewrite Hg, Hc, lookup_insert_eq. cbn. by rewrite lookup_insert_eq. }
  split; [subst g0; by destruct (IsLoopback from)|].
  split; [subst g0; by destruct (IsLoopback from)|].
  split; [subst g0; by destruct (IsLoopback from)|].
  split; [subst g0; by destruct (IsLoopback from)|].
  split; [subst g0; by destruct (IsLoopback from)|].
  split; [apply is_fresh|].
  split.
  { replace (RawData g0) with (Some a) by (subst g0; by destruct (IsLoopback from)).
    cbn [bytesOf]. rewrite Hb. subst w1. cbn [setBytesAt bytesAt].
    by rewrite lookup_insert_eq. }
  split.
  { rewrite Hb. subst w1. cbn [setBytesAt bytesAt].
    apply insert_subseteq, not_elem_of_dom, is_fresh. }
  rewrite Hg. split; [apply dom_insert_L|].
  intros k Hk. by rewrite lookup_insert_ne.
Qed.

(** X14. A datagram that does not decode, or decodes to a packet that
    is not a GameInfo, changes nothing of the registry, notifies nobody
    and writes nothing: all it leaves is its copy of the bytes. *)
Theorem receive_ignores (m : Manager) (data : list Z) (from : Addr) (w : World) :
  (forall info, Deserialize (take udpBufferSize data) ≠ Some (PktGameInfo info)) ->
  let r := run (receive m data from) w in
  events r = []
  /\ games (final r) = games w
  /\ gameAt (final r) = gameAt w
  /\ gamesAt (final r) = gamesAt w
  /\ steps (final r) = steps w
  /\ bytesAt w ⊆ bytesAt (final r).
Proof.
  intros Hdec. cbv zeta. rewrite receive_run. cbv zeta.
  assert (Hsub : bytesAt w ⊆ <[fresh (dom (bytesAt w)) := take udpBufferSize data]> (bytesAt w)).
  { apply insert_subseteq, not_elem_of_dom, is_fresh. }
  destruct (Deserialize (take udpBufferSize data)) as [[info| | |]|]; try done.
  by destruct (Hdec info).
Qed.

End with_runtime.

Import sample.

Lemma receive_stores_witness :
  stored world1 "100.64.0.2:g1"
  = Some (mkGame (mkGameInfo "g1" 7 1 8 7 6112) (Some 1%positive) SourceRemote p1 "P1" 1000 1001)
  /\ bytesOf world1 (Some 1%positive) = gameInfoBytes.
Proof.
  assert (Hdec : Deserialize (take udpBufferSize gameInfoBytes)
                 = Some (PktGameInfo (mkGameInfo "g1" 7 1 8 7 6112)))
    by (vm_compute; reflexivity).
  destruct (receive_stores manager gameInfoBytes p1 _ world0 Hdec) as (g & a & _).
  vm_compute. split; reflexivity.
Defined.

Lemma receive_ignores_witness :
  events (run (peer.receive manager (joinBytes 7) p1) world1) = []
  /\ games (final (run (peer.receive manager (joinBytes 7) p1) world1)) = games world1.
Proof.
  assert (Hdec : forall info, Deserialize (take udpBufferSize (joinBytes 7))
                              ≠ Some (PktGameInfo info))
    by (intros info; vm_compute; discriminate).
  destruct (receive_ignores manager (joinBytes 7) p1 world1 Hdec) as (He & Hg & _).
  split; [exact He | exact Hg].
Defined.

End PeerMore.

(** ** peer/responder.go *)

Module ResponderFacts.
Import netip w3gs game rt registry responder vocabulary RtFacts RegistryFacts RegistryMore.

Section with_runtime.
Context `{Runtime}.

Lemma concat_singletons {A B} (f : A -> B) (l : list A) :
  concat ((fun x => [f x]) <$> l) = f <$> l.
Proof. induction l as [|x l IH]; [done|]. cbn. by rewrite IH. Qed.

Lemma LocalGames_run (w : World) :
  run LocalGames w =
  (Some (fresh (dom (gamesAt w))),
   setGamesAt <[fresh (dom (gamesAt w)) := filterSource w SourceLocal (range (steps w) (games w))]>
     (tick w),
   []).
Proof. reflexivity. Qed.

(** X15. A query whose sender is not a UDP address is not answered.
    Otherwise the responder goes through the local games of the registry,
    each once, and sends the querier the raw packet of each as it is
    stored; a game without raw packet gets a warning instead. Games that
    are not local are never sent, nothing goes to another address, and
    the registry stays as it was. *)
Theorem onSearchGame_replies (from : option UDPAddr) (w : World) :
  let r := run (onSearchGame from) w in
  games (final r) = games w /\ gameAt (final r) = gameAt w /\ bytesAt (final r) = bytesAt w
  /\ match from with
     | None => final r = w /\ events r = []
     | Some udpAddr =>
         exists gs,
           gs ≡ₚ filter (fun g => Source g = SourceLocal) (entries w)
           /\ events r
              = (fun g => if (length (bytesOf w (RawData g)) =? 0)%nat
                          then Log LevelWarn "game has no RawData, skipping"
                          else WriteTo (bytesOf w (RawData g)) udpAddr) <$> gs
     end.
Proof.
  cbv zeta. destruct from as [udpAddr|]; [|done].
  unfold onSearchGame. rewrite run_bind, LocalGames_run. cbv beta iota zeta.
  rewrite run_bind. unfold get. cbv beta iota zeta.
  set (gs := filterSource w SourceLocal (range (steps w) (games w))).
  set (a := fresh (dom (gamesAt w))).
  set (w1 := setGamesAt <[a := gs]> (tick w)).
  assert (Hread : gamesOf w1 (Some a) = gs).
  { subst w1. cbn [gamesOf setGamesAt gamesAt tick]. by rewrite lookup_insert_eq. }
  rewrite Hread.
  rewrite (forEach_emits
             (fun g => [if (length (bytesOf w1 (RawData g)) =? 0)%nat
                        then Log LevelWarn "game has no RawData, skipping"
                        else WriteTo (bytesOf w1 (RawData g)) udpAddr])).
  - unfold final, events. cbn [fst snd app].
    split; [done|]. split; [done|]. split; [done|].
    exists gs. split.
    + subst gs. unfold filterSource. by rewrite range_entries.
    + cbn [app].
      exact (concat_singletons
               (fun g => if (length (bytesOf w (RawData g)) =? 0)%nat
                         then Log LevelWarn "game has no RawData, skipping"
                         else WriteTo (bytesOf w (RawData g)) udpAddr) gs).
  - intros g w'. by destruct (length (bytesOf w1 (RawData g)) =? 0)%nat.
Qed.

End with_runtime.

End ResponderFacts.

(** ** proxy/tcp.go: every connection *)

Module ProxyMore.
Import netip w3gs game rt registry proxy strconv vocabulary RtFacts RegistryFacts ProxyFacts.

Lemma countEvents_app (p : Event -> bool) (l1 l2 : list Event) :
  countEvents p (l1 ++ l2) = (countEvents p l1 + countEvents p l2)%nat.
Proof. unfold countEvents. by rewrite List.filter_app, length_app. Qed.

Lemma countEvents_replicate (p : Event -> bool) (n : nat) (e : Event) :
  p e = false -> countEvents p (replicate n e) = 0%nat.
Proof.
  intros Hp. unfold countEvents. induction n as [|n IH]; [done|].
  cbn [replicate List.filter]. by rewrite Hp.
Qed.

Section with_runtime.
Context `{Runtime} `{Codec}.

(** [readJoinPacket] touches nothing but the client connection; when no
    Join arrives it fails after at most the three calls on it. *)
Lemma readJoinPacket_cases (env : ConnEnv) (w : World) :
  (exists data j, joinArrives env data j)
  \/ ((forall data j, ~ joinArrives env data j)
      /\ exists err reads,
           run (readJoinPacket env) w = (inr err, w, reads)
           /\ (reads = [SetReadDeadline true]
               \/ reads = [SetReadDeadline true; ConnRead maxJoinPacketSize]
               \/ reads = [SetReadDeadline true; ConnRead maxJoinPacketSize;
                           SetReadDeadline false])).
Proof.
  unfold joinArrives, readJoinPacket, mbind, M_bind, emit.
  destruct env as [arm inc clr dial wr]. cbn [armDeadlineFails incoming clearDeadlineFails].
  destruct arm.
  { right. split; [by intros data j (? & _)|]. eexists _, _. split; [reflexivity|]. by left. }
  destruct inc as [data|].
  2:{ right. split; [by intros data j (_ & ? & _)|]. eexists _, _.
      split; [reflexivity|]. right. by left. }
  destruct clr.
  { right. split; [by intros data' j (_ & _ & ? & _)|]. eexists _, _.
    split; [reflexivity|]. right. by right. }
  destruct (Deserialize (take maxJoinPacketSize data)) as [[info|q|j|]|] eqn:E.
  3:{ left. by exists data, j. }
  all: right; (split; [intros data' j (_ & [= <-] & _ & Hd); congruence|]);
    eexists _, _; (split; [reflexivity|]); right; by right.
Qed.

(** The run of a connection whose Join arrives. *)
Lemma handleConnection_join (env : ConnEnv) (w : World) (data : list Z) (j : Join) :
  joinArrives env data j ->
  exists w' evs,
    run (handleConnection env) w = (tt, w', evs)
    /\ games w' = games w /\ bytesAt w' = bytesAt w /\ gameAt w ⊆ gameAt w'
    /\ match findLoop w (jHostCounter j) (range (steps w) (games w)) with
       | None =>
           evs = joinRead
                   ++ replicate (size (games w)) (Log LevelInfo "registry game")
                   ++ [Log LevelWarn "no remote game found for HostCounter"; CloseClient]
       | Some g => evs = joinRead ++ forwarding env g (take maxJoinPacketSize data)
       end.
Proof.
  intros (Harm & Hin & Hclear & Hdec).
  assert (Hstart : forall k : Join * list Z + JoinError -> M unit,
             run (emit (Log LevelInfo "received TCP connection");; readJoinPacket env ≫= k) w
             = let '(b, w2, e2) := run (k (inl (j, take maxJoinPacketSize data))) w in
               (b, w2, [Log LevelInfo "received TCP connection"; SetReadDeadline true;
                        ConnRead maxJoinPacketSize; SetReadDeadline false] ++ e2)).
  { intros k. rewrite run_bind. unfold emit at 1. cbv beta iota zeta.
    rewrite run_bind, (readJoinPacket_run env w data j) by done. cbv beta iota zeta.
    by destruct (run (k (inl (j, take maxJoinPacketSize data))) w) as [[b w2] e2]. }
  unfold handleConnection. rewrite Hstart. clear Hstart.
  rewrite run_bind. unfold emit at 1. cbv beta iota zeta.
  rewrite run_bind, FindByHostCounter_run.
  destruct (findLoop w (jHostCounter j) (range (steps w) (games w))) as [g|].
  - cbv beta iota zeta. rewrite run_bind. unfold get at 1. cbv beta iota zeta.
    assert (Hq : deref (setGameAt <[fresh (dom (gameAt w)) := g]> (tick w))
                   (fresh (dom (gameAt w))) = g).
    { unfold deref at 1. cbn [setGameAt gameAt tick]. by rewrite lookup_insert_eq. }
    rewrite Hq.
    exists (setGameAt <[fresh (dom (gameAt w)) := g]> (tick w)),
      (joinRead ++ forwarding env g (take maxJoinPacketSize data)).
    split.
    + unfold forwarding, connectToRemote, mbind, M_bind, emit.
      destruct (dialFails env), (writeFails env); reflexivity.
    + split; [done|]. split; [done|]. split; [|done].
      cbn [setGameAt gameAt tick]. apply insert_subseteq, not_elem_of_dom, is_fresh.
  - cbv beta iota zeta. unfold Games. rewrite run_bind, snapshot_run. cbv beta iota zeta.
    rewrite run_bind. unfold get at 1. cbv beta iota zeta.
    rewrite run_bind.
    rewrite (forEach_emits (fun _ => [Log LevelInfo "registry game"]))
      by (intros; reflexivity).
    cbv beta iota zeta. rewrite concat_const.
    unfold gamesOf. cbn [setGamesAt gamesAt tick]. rewrite lookup_insert_eq. cbn [default].
    unfold id. cbn [games steps].
    rewrite length_fmap, (Permutation_length (range_perm _ _ _)), length_map_to_list.
    eexists _, _. split; [reflexivity|]. done.
Qed.

Lemma handleConnection_no_join (env : ConnEnv) (w : World) (err : JoinError)
    (reads : list Event) :
  run (readJoinPacket env) w = (inr err, w, reads) ->
  run (handleConnection env) w
  = (tt, w, Log LevelInfo "received TCP connection"
              :: reads ++ [Log LevelError "failed to read Join packet"; CloseClient]).
Proof.
  intros Hrun. unfold handleConnection. rewrite run_bind. unfold emit at 1.
  cbv beta iota zeta. rewrite run_bind, Hrun. reflexivity.
Qed.

(** X16. When the first read does not yield a Join (a deadline call
    fails, the read fails or times out, the bytes do not decode, or they
    decode to another packet), the handler logs an error and closes the
    client. It does not look into the registry, dials nothing and writes
    nothing; the deadline is cleared only after a read that succeeded. *)
Theorem failed_read_closes_client (env : ConnEnv) (w : World) :
  (forall data j, ~ joinArrives env data j) ->
  let r := run (handleConnection env) w in
  final r = w
  /\ Forall (fun e => reachesOrigin e = false) (events r)
  /\ exists reads,
       events r = Log LevelInfo "received TCP connection"
                    :: reads ++ [Log LevelError "failed to read Join packet"; CloseClient]
       /\ (reads = [SetReadDeadline true]
           \/ reads = [SetReadDeadline true; ConnRead 512]
           \/ (reads = [SetReadDeadline true; ConnRead 512; SetReadDeadline false]
               /\ is_Some (incoming env))).
Proof.
  intros Hno. cbv zeta.
  destruct (readJoinPacket_cases env w) as [(data & j & Hj)|(_ & err & reads & Hrun & Hreads)].
  { by destruct (Hno data j). }
  rewrite (handleConnection_no_join env w err reads Hrun).
  unfold final, events. cbn [fst snd].
  split; [done|]. split.
  - destruct Hreads as [-> | [-> | ->]]; by repeat constructor.
  - exists reads. split; [done|].
    destruct Hreads as [-> | [-> | ->]]; [by left | right; by left | right; right].
    split; [done|].
    unfold readJoinPacket, mbind, M_bind, emit in Hrun.
    destruct (armDeadlineFails env); [discriminate Hrun|].
    destruct (incoming env); [by eexists | discriminate Hrun].
Qed.

(** X17. Whatever the client sends and whatever fails, a connection
    starts with the log of its arrival and ends with the one close of the
    client; at most one origin is dialled; an origin connection exists
    exactly when a dial succeeded, gets exactly one write and exactly one
    close, just before the client is closed; the splice runs exactly when
    that write succeeded. The registry map, the stored games and every
    byte array are as before. *)
Theorem connection_shape (env : ConnEnv) (w : World) :
  let r := run (handleConnection env) w in
  let evs := events r in
  head evs = Some (Log LevelInfo "received TCP connection")
  /\ last evs = Some CloseClient
  /\ countEvents isCloseClient evs = 1%nat
  /\ (countEvents isDial evs <= 1)%nat
  /\ countEvents isCloseRemote evs = (if dialFails env then 0%nat else countEvents isDial evs)
  /\ countEvents isRemoteWrite evs = countEvents isCloseRemote evs
  /\ countEvents isRelay evs = (if writeFails env then 0%nat else countEvents isCloseRemote evs)
  /\ (countEvents isCloseRemote evs = 1%nat ->
      drop (length evs - 2) evs = [CloseRemote; CloseClient])
  /\ games (final r) = games w
  /\ bytesAt (final r) = bytesAt w
  /\ gameAt w ⊆ gameAt (final r).
Proof.
  cbv zeta.
  destruct (readJoinPacket_cases env w) as [(data & j & Hj)|(_ & err & reads & Hrun & Hreads)].
  - destruct (handleConnection_join env w data j Hj) as (w' & evs & -> & Hg & Hb & Hc & Hev).
    unfold final, events. cbn [fst snd]. rewrite Hg, Hb.
    destruct (findLoop w (jHostCounter j) (range (steps w) (games w))) as [g|];
      rewrite Hev; clear Hev.
    + unfold forwarding. destruct (dialFails env), (writeFails env);
        cbn; repeat split; try done; lia.
    + set (n := size (games w)).
      rewrite !countEvents_app, !countEvents_replicate by done.
      assert (Hlast : last (joinRead ++ replicate n (Log LevelInfo "registry game")
                              ++ [Log LevelWarn "no remote game found for HostCounter";
                                  CloseClient]) = Some CloseClient).
      { change [Log LevelWarn "no remote game found for HostCounter"; CloseClient]
          with ([Log LevelWarn "no remote game found for HostCounter"] ++ [CloseClient]).
        rewrite !app_assoc. apply last_snoc. }
      rewrite Hlast. cbn [countEvents joinRead List.filter isCloseClient isDial isCloseRemote
                            isRemoteWrite isRelay length Nat.add app head].
      destruct (dialFails env), (writeFails env); repeat split; try done; lia.
  - rewrite (handleConnection_no_join env w err reads Hrun).
    unfold final, events. cbn [fst snd].
    destruct Hreads as [-> | [-> | ->]];
      destruct (dialFails env), (writeFails env); cbn; repeat split; try done; lia.
Qed.

(** X18. The only address the proxy ever dials is the one the registry
    holds for a remote game whose host counter is that of the Join it
    read: the peer address of the game and its game port. *)
Theorem dial_target (env : ConnEnv) (w : World) (address : string) :
  Dial address ∈ events (run (handleConnection env) w) ->
  exists data j k p,
    joinArrives env data j
    /\ isMatch w (jHostCounter j) k p
    /\ address = AddrString (PeerIP (deref w p)) +:+ ":" +:+ utoa (GamePort (Info (deref w p))).
Proof.
  destruct (readJoinPacket_cases env w) as [(data & j & Hj)|(_ & err & reads & Hrun & Hreads)].
  - destruct (handleConnection_join env w data j Hj) as (w' & evs & -> & _ & _ & _ & Hev).
    unfold events. cbn [snd].
    destruct (findLoop w (jHostCounter j) (range (steps w) (games w))) as [g|] eqn:E;
      rewrite Hev; clear Hev; intros Hin.
    + apply findLoop_Some in E as (k' & p' & Hin' & -> & Hsrc & Hhc).
      apply range_lookup in Hin'.
      exists data, j, k', p'. split; [done|]. split; [done|].
      unfold joinRead, forwarding in Hin. cbn [app] in Hin.
      repeat (apply elem_of_cons in Hin as [Hin|Hin]; [discriminate Hin|]).
      apply elem_of_cons in Hin as [Hin|Hin]; [by injection Hin|].
      exfalso. destruct (dialFails env), (writeFails env); cbn [app] in Hin;
        repeat (apply elem_of_cons in Hin as [Hin|Hin]; [discriminate Hin|]);
        by apply elem_of_nil in Hin.
    + exfalso. unfold joinRead in Hin. cbn [app] in Hin.
      repeat (apply elem_of_cons in Hin as [Hin|Hin]; [discriminate Hin|]).
      apply elem_of_app in Hin as [Hin|Hin].
      * by apply elem_of_replicate in Hin as [? _].
      * repeat (apply elem_of_cons in Hin as [Hin|Hin]; [discriminate Hin|]).
        by apply elem_of_nil in Hin.
  - rewrite (handleConnection_no_join env w err reads Hrun).
    unfold events. cbn [snd].
    intros Hin. exfalso. apply elem_of_cons in Hin as [Hin|Hin]; [discriminate Hin|].
    destruct Hreads as [-> | [-> | ->]]; cbn [app] in Hin;
      repeat (apply elem_of_cons in Hin as [Hin|Hin]; [discriminate Hin|]);
      by apply elem_of_nil in Hin.
Qed.

End with_runtime.

Import sample.

Lemma failed_read_closes_client_witness :
  events (run (handleConnection (mkConnEnv false (Some gameInfoBytes) false false false)) world1)
  = [ Log LevelInfo "received TCP connection";
      SetReadDeadline true; ConnRead 512; SetReadDeadline false;
      Log LevelError "failed to read Join packet"; CloseClient ]
  /\ final (run (handleConnection (mkConnEnv false (Some gameInfoBytes) false false false)) world1)
     = world1.
Proof.
  assert (Hno : forall data j,
             ~ joinArrives (mkConnEnv false (Some gameInfoBytes) false false false) data j).
  { intros data j (_ & Hin & _ & Hdec). injection Hin as <-. vm_compute in Hdec.
    discriminate Hdec. }
  destruct (failed_read_closes_client _ world1 Hno) as (Hw & _ & _).
  split; [vm_compute; reflexivity | exact Hw].
Defined.

Lemma dial_target_witness :
  exists data j k p,
    joinArrives (mkConnEnv false (Some (joinBytes 7)) false false false) data j
    /\ isMatch world1 (jHostCounter j) k p
    /\ "100.64.0.2:6112"%string
       = AddrString (PeerIP (deref world1 p)) +:+ ":" +:+ utoa (GamePort (Info (deref world1 p))).
Proof.
  apply (dial_target (mkConnEnv false (Some (joinBytes 7)) false false false) world1).
  assert (Hev : events (run (handleConnection
                               (mkConnEnv false (Some (joinBytes 7)) false false false)) world1)
                = joinRead ++ [Log LevelInfo "found remote game"; Dial "100.64.0.2:6112";
                               Log LevelInfo "proxying connection"; RemoteWrite (joinBytes 7);
                               Relay; CloseRemote; CloseClient])
    by (vm_compute; reflexivity).
  rewrite Hev. unfold joinRead. cbn [app]. do 6 apply list_elem_of_further. apply list_elem_of_here.
Defined.

End ProxyMore.

(** ** lan/broadcaster.go: consecutive ticks *)

Module LanTicks.
Import netip w3gs game rt lan vocabulary GoFacts RtFacts LanFacts.

(** X19. Two ticks with a change of the slice in between: the second
    tick sends, after its announcements, one DecreateGame for every remote
    key of the first slice that is no remote key of the second, with the
    host counter the first tick saw last for that key, and no other. When
    every remote key is still there it sends none, and so does the first
    tick of a broadcaster that has not announced anything yet. *)
Theorem consecutive_ticks `{Runtime} (b : Broadcaster) (games2 : option loc) (w : World) :
  let gs1 := gamesOf w (bGames b) in
  let r1 := run (broadcastGames b) w in
  let b2 := OnGamesChanged games2 (result r1) in
  let gs2 := gamesOf (final r1) games2 in
  let r2 := run (broadcastGames b2) (final r1) in
  (exists announcements cancellations,
     events r2 = announcements ++ cancellations
     /\ Forall (isAnnouncement b2 gs2) announcements
     /\ cancellations
        ≡ₚ (fun kh => WriteTo (decreatePacket kh.2) (broadcastAddr b))
             <$> filter (isRemoved (remoteKeys gs2)) (map_to_list (lastHostCounters gs1))
     /\ (remoteKeys gs1 ⊆ remoteKeys gs2 -> cancellations = []))
  /\ (previousGameKeys b = ∅ -> Forall (isAnnouncement b gs1) (events r1)).
Proof.
  cbv zeta. split.
  - rewrite (broadcastGames_run b w).
    set (gs1 := gamesOf w (bGames b)).
    destruct (announceLoop_run b gs1 ∅ w) as (Hres1 & _ & _).
    destruct (run (announceLoop b gs1 ∅) w) as [[cur1 w1] e1].
    unfold result, final in *. cbn [fst snd] in *.
    rewrite (right_id_L ∅ (∪)) in Hres1. fold (lastHostCounters gs1) in Hres1. subst cur1.
    set (b2 := OnGamesChanged games2 _).
    rewrite (broadcastGames_run b2 (tick w1)).
    set (gs2 := gamesOf (tick w1) (bGames b2)).
    destruct (announceLoop_run b2 gs2 ∅ (tick w1)) as (Hres2 & _ & Hev2).
    destruct (run (announceLoop b2 gs2 ∅) (tick w1)) as [[cur2 w2] e2].
    unfold result, events in *. cbn [fst snd] in *.
    rewrite (right_id_L ∅ (∪)) in Hres2. fold (lastHostCounters gs2) in Hres2. subst cur2.
    rewrite lastHostCounters_dom.
    eexists e2, _. split; [reflexivity|]. split; [exact Hev2|]. split.
    + subst b2. cbn [OnGamesChanged previousGameKeys broadcastAddr]. by rewrite range_perm.
    + intros Hsub. subst b2. cbn [OnGamesChanged previousGameKeys broadcastAddr].
      set (it := range _ _).
      assert (Hit : forall kh, kh ∈ it -> kh.1 ∈ remoteKeys gs1).
      { intros [k h] Hin. subst it. rewrite range_perm in Hin.
        apply elem_of_map_to_list in Hin. rewrite <- lastHostCounters_dom.
        apply elem_of_dom. by eexists. }
      clearbody it. induction it as [|kh it IH]; [done|].
      rewrite filter_cons, decide_False.
      * apply IH. intros kh' Hin. apply Hit. by apply list_elem_of_further.
      * unfold isRemoved. intros Hn. apply Hn, Hsub, Hit. apply list_elem_of_here.
  - intros Hempty. rewrite (broadcastGames_run b w).
    set (gs1 := gamesOf w (bGames b)).
    destruct (announceLoop_run b gs1 ∅ w) as (_ & _ & Hev1).
    destruct (run (announceLoop b gs1 ∅) w) as [[cur1 w1] e1].
    unfold events in *. cbn [fst snd] in *.
    rewrite Hempty.
    assert (Hnil : range (steps w1) (∅ : gmap string Z) = []).
    { apply Permutation_nil_r. by rewrite range_perm, map_to_list_empty. }
    rewrite Hnil. cbn. by rewrite app_nil_r.
Qed.

End LanTicks.

(** ** config/config.go: what [ParseVersion] accepts *)

Module ConfigMore.
Import strconv config vocabulary GoFacts StrconvFacts.





End ConfigMore.

(** ** tui/update.go *)

Module TuiFacts.
Import netip w3gs game rt tailscale peer config tui cmd vocabulary RtFacts PeerFacts.

Lemma cycleVersion_cases (delta version : Z) :
  cycleVersion delta version = Some 26
  \/ cycleVersion delta version = Some 27
  \/ cycleVersion delta version = Some 28.
Proof.
  unfold cycleVersion, SupportedVersions. cbn [findVersion length].
  set (idx := if 26 =? version then 0 else _).
  assert (Hidx : idx = -1 \/ idx = 0 \/ idx = 1 \/ idx = 2).
  { subst idx. destruct (26 =? version); [tauto|]. destruct (27 =? version); [tauto|].
    destruct (28 =? version); tauto. }
  clearbody idx.
  destruct (Z.eqb_spec idx (-1)) as [->|Hne]; [by left|].
  set (i := wrapInt (idx + delta)). clearbody i.
  destruct (Z.ltb_spec i 0); [by (right; right)|].
  destruct (Z.leb_spec (Z.of_nat 3) i); [by left|].
  destruct (Z.ltb_spec i 0); [lia|].
  assert (Hi : i = 0 \/ i = 1 \/ i = 2) by lia.
  destruct Hi as [-> | [-> | ->]]; cbn; tauto.
Qed.

(** X21. Changing the version in the terminal never reads outside the
    list of supported versions and always lands on one of them, by
    whatever amount (an overflow of the index included); from a version
    that is not in the list it goes to the first one. *)
Theorem cycleVersion_supported (delta version : Z) :
  exists v, cycleVersion delta version = Some v
            /\ v ∈ SupportedVersions
            /\ v ≠ 0
            /\ (version ∉ SupportedVersions -> v = 26).
Proof.
  assert (Hout : version ∉ SupportedVersions -> cycleVersion delta version = Some 26).
  { intros Hnot. unfold cycleVersion, SupportedVersions in *. cbn [findVersion].
    destruct (Z.eqb_spec 26 version) as [<-|_]; [exfalso; apply Hnot; set_solver|].
    destruct (Z.eqb_spec 27 version) as [<-|_]; [exfalso; apply Hnot; set_solver|].
    destruct (Z.eqb_spec 28 version) as [<-|_]; [exfalso; apply Hnot; set_solver|].
    reflexivity. }
  destruct (cycleVersion_cases delta version) as [E | [E | E]]; rewrite E in *;
    eexists; (split; [reflexivity|]); (split; [unfold SupportedVersions; set_solver|]);
    (split; [done|]); intros Hnot; specialize (Hout Hnot); congruence.
Qed.

(** X22. On a supported version, one step forward and one step back
    cancel each other, in both orders, three steps forward come back to
    the start, and a step of zero changes nothing. *)
Theorem cycleVersion_round_trip (version : Z) :
  version ∈ SupportedVersions ->
  cycleVersion 0 version = Some version
  /\ cycleVersion 1 version ≫= cycleVersion (-1) = Some version
  /\ cycleVersion (-1) version ≫= cycleVersion 1 = Some version
  /\ (cycleVersion 1 version ≫= cycleVersion 1) ≫= cycleVersion 1 = Some version.
Proof.
  unfold SupportedVersions. intros Hin.
  repeat (apply elem_of_cons in Hin as [->|Hin]; [by vm_compute|]).
  by apply elem_of_nil in Hin.
Qed.

Lemma cycleVersion_round_trip_witness :
  cycleVersion 1 28 ≫= cycleVersion (-1) = Some 28.
Proof.
  apply (cycleVersion_round_trip 28). unfold SupportedVersions.
  do 2 apply list_elem_of_further. apply list_elem_of_here.
Defined.

(** X23. After any change of the version from the terminal the probe
    engine holds the chosen version with the configured product and the
    peers it had, and probing is not suppressed: the next cycle queries
    127.0.0.1:6112 and every online peer with that version. *)
Theorem version_change_keeps_probing (delta version : Z) (cfg : GameVersion) (m : Manager)
    (w : World) (v : Z) :
  cycleVersion delta version = Some v ->
  let r := run (versionCallback cfg v m) w in
  let m' := result r in
  final r = w
  /\ events r = [Log LevelInfo "version changed"]
  /\ peer.version m' = mkGameVersion (Product cfg) v
  /\ peers m' = peers m
  /\ events (run (refreshCallback m') (final r))
     = Send (mkUDPAddr (IPv4 127 0 0 1) 6112) (mkSearchGame (mkGameVersion (Product cfg) v) 0)
       :: ((fun p => Send (mkUDPAddr (IP p) 6112)
                       (mkSearchGame (mkGameVersion (Product cfg) v) 0))
             <$> List.filter Online (peers m)).
Proof.
  intros Hv. cbv zeta.
  unfold versionCallback, refreshCallback, Refresh.
  rewrite run_bind. unfold emit. cbv beta iota zeta.
  unfold result, final, events. cbn [fst snd mret M_ret app].
  split; [done|]. split; [done|]. split; [done|]. split; [done|].
  rewrite probeAllPeers_run. cbn [snd SetVersion peer.version peers Version].
  destruct (cycleVersion_cases delta version) as [E | [E | E]];
    rewrite E in Hv; injection Hv as <-; reflexivity.
Qed.

Lemma version_change_keeps_probing_witness :
  events (run (refreshCallback
                 (result (run (versionCallback (mkGameVersion 1462982736 26) 27 sample.manager)
                            sample.world0)))
            sample.world0)
  = [Send (mkUDPAddr (IPv4 127 0 0 1) 6112) (mkSearchGame (mkGameVersion 1462982736 27) 0);
     Send (mkUDPAddr (IPv4 100 64 0 2) 6112) (mkSearchGame (mkGameVersion 1462982736 27) 0)].
Proof.
  assert (Hv : cycleVersion 1 26 = Some 27) by reflexivity.
  destruct (version_change_keeps_probing 1 26 (mkGameVersion 1462982736 26) sample.manager
              sample.world0 27 Hv) as (_ & _ & _ & _ & Hev).
  exact Hev.
Defined.

Lemma updateLog_length (logs : list string) (message : string) :
  (length logs <= maxLogLines)%nat -> (length (updateLog logs message) <= maxLogLines)%nat.
Proof.
  intros Hlen. unfold updateLog.
  destruct (Nat.ltb_spec maxLogLines (length (logs ++ [message]))) as [Hlt|Hge]; [|done].
  rewrite length_drop. rewrite length_app in *. cbn [length] in *. unfold maxLogLines in *. lia.
Qed.

Lemma updateLog_foldl (messages : list string) :
  forall logs,
    (length logs <= maxLogLines)%nat ->
    foldl updateLog logs messages
    = drop (length (logs ++ messages) - maxLogLines) (logs ++ messages).
Proof.
  induction messages as [|m messages IH]; intros logs Hlen.
  - cbn [foldl]. rewrite app_nil_r.
    replace (length logs - maxLogLines)%nat with 0%nat by lia. done.
  - cbn [foldl]. rewrite (IH _ (updateLog_length logs m Hlen)). unfold updateLog.
    destruct (Nat.ltb_spec maxLogLines (length (logs ++ [m]))) as [Hlt|Hge].
    + assert (Hten : length logs = 10%nat).
      { rewrite length_app in Hlt. cbn [length] in Hlt. unfold maxLogLines in *. lia. }
      destruct logs as [|x logs]; [discriminate Hten|].
      replace (length ((x :: logs) ++ [m]) - maxLogLines)%nat with 1%nat
        by (rewrite length_app; cbn [length] in *; unfold maxLogLines; lia).
      change (drop 1 ((x :: logs) ++ [m])) with (logs ++ [m]).
      rewrite <- app_assoc.
      change ([m] ++ messages) with (m :: messages).
      change ((x :: logs) ++ m :: messages) with (x :: (logs ++ m :: messages)).
      replace (length (x :: (logs ++ m :: messages)) - maxLogLines)%nat
        with (S (length (logs ++ m :: messages) - maxLogLines))%nat
        by (cbn [length] in *; rewrite length_app; cbn [length]; unfold maxLogLines; lia).
      reflexivity.
    + rewrite (cons_middle m logs messages), (app_assoc logs [m] messages). done.
Qed.

(** X24. The log pane starts empty and after any sequence of log
    messages holds the last ten of them, in the order they came, and all
    of them while there are at most ten. *)
Theorem updateLog_keeps_last (messages : list string) :
  foldl updateLog [] messages = drop (length messages - 10) messages
  /\ (length (foldl updateLog [] messages) <= 10)%nat
  /\ ((length messages <= 10)%nat -> foldl updateLog [] messages = messages).
Proof.
  assert (E : foldl updateLog [] messages = drop (length messages - 10) messages).
  { rewrite updateLog_foldl by (cbn; unfold maxLogLines; lia). done. }
  rewrite E. split; [done|]. split.
  - rewrite length_drop. lia.
  - intros Hlen. replace (length messages - 10)%nat with 0%nat by lia. done.
Qed.

End TuiFacts.

(** ** From a datagram to the announcement and to the join *)

Module EndToEnd.
Import netip w3gs game rt tailscale peer registry lan proxy strconv vocabulary.
Import GoFacts RtFacts LanFacts RegistryFacts RegistryMore PeerMore ProxyFacts.

(** A remote game of the slice whose raw packet is in the store gets its
    announcement on the tick. *)
Lemma announceLoop_mem (b : Broadcaster) (g : Game) (gs : list Game) :
  forall (cur : gmap string Z) (w : World),
    g ∈ gs -> Source g = SourceRemote ->
    (forall a, RawData g = Some a -> a ∈ dom (bytesAt w)) ->
    forall e, e ∈ announcementOf b w g -> e ∈ events (run (announceLoop b gs cur) w).
Proof.
  induction gs as [|g1 rest IH]; intros cur w Hin Hrem Hal e He.
  - by apply elem_of_nil in Hin.
  - cbn [announceLoop].
    destruct (decide (Source g1 = SourceRemote)) as [Hrem1|Hloc1].
    + rewrite (bool_decide_eq_false_2 (Source g1 ≠ SourceRemote)) by tauto.
      rewrite run_bind.
      pose proof (sendRawGameInfo_run b g1 w) as Hsend. cbn zeta in Hsend. rewrite Hsend.
      clear Hsend.
      apply elem_of_cons in Hin as [->|Hin].
      * unfold announcementOf in He.
        destruct (length (bytesOf w (RawData g1)) <? 4)%nat;
          cbv beta iota zeta; rewrite run_bind; unfold sendRefreshGame, emit;
          cbv beta iota zeta;
          match goal with |- context [announceLoop b rest ?c ?w1] =>
            destruct (run (announceLoop b rest c) w1) as [[res w2] e2] end;
          unfold events; cbn [fst snd];
          rewrite app_assoc; apply elem_of_app; by left.
      * assert (Hstep : forall w1, bytesAt w ⊆ bytesAt w1 ->
                   e ∈ events (run (announceLoop b rest
                                      (<[Key g1 := HostCounter (Info g1)]> cur)) w1)).
        { intros w1 Hsub. apply (IH _ w1 Hin Hrem).
          - intros a Ha. apply (subseteq_dom _ _ Hsub). by apply Hal.
          - unfold announcementOf in *.
            replace (bytesOf w1 (RawData g)) with (bytesOf w (RawData g)); [done|].
            destruct (RawData g) as [a|]; [|done]. cbn [bytesOf].
            pose proof (Hal a eq_refl) as Hd. apply elem_of_dom in Hd as [bs Hbs].
            by rewrite (lookup_weaken _ _ _ _ Hbs Hsub), Hbs. }
        destruct (length (bytesOf w (RawData g1)) <? 4)%nat;
          cbv beta iota zeta; rewrite run_bind; unfold sendRefreshGame, emit;
          cbv beta iota zeta;
          match goal with |- context [announceLoop b rest ?c ?w1] =>
            specialize (Hstep w1);
            destruct (run (announceLoop b rest c) w1) as [[res w2] e2] end;
          unfold events in *; cbn [fst snd] in *;
          apply elem_of_app; right; apply elem_of_app; right; apply Hstep.
        -- done.
        -- cbn [setBytesAt bytesAt]. apply insert_subseteq, not_elem_of_dom, is_fresh.
    + rewrite (bool_decide_eq_true_2 (Source g1 ≠ SourceRemote)) by done.
      apply elem_of_cons in Hin as [->|Hin]; [done|]. by apply IH.
Qed.

Section with_runtime.
Context `{Runtime} `{Codec}.

(** The registry after a GameInfo datagram from a peer that is not a
    loopback address. *)
Lemma receive_remote (m : Manager) (data : list Z) (from : Addr) (info : GameInfo)
    (w : World) :
  Deserialize (take udpBufferSize data) = Some (PktGameInfo info) ->
  IsLoopback from = false ->
  let r := run (receive m data from) w in
  let key := AddrString from +:+ ":" +:+ GameName info in
  let a := fresh (dom (bytesAt w)) in
  let p := fresh (dom (gameAt w)) in
  exists g,
    games (final r) = <[key := p]> (games w)
    /\ gameAt (final r) = <[p := g]> (gameAt w)
    /\ bytesAt (final r) = <[a := take udpBufferSize data]> (bytesAt w)
    /\ Info g = info /\ Source g = SourceRemote /\ PeerIP g = from /\ RawData g = Some a
    /\ (onChange w = true ->
        exists s, events r = [OnChange (Some s)] /\ g ∈ gamesOf (final r) (Some s)).
Proof.
  intros Hdec Hlb. cbv zeta. rewrite receive_run, Hdec, Hlb. cbv zeta.
  set (a := fresh (dom (bytesAt w))).
  set (w1 := setBytesAt <[a := take udpBufferSize data]> w).
  set (g0 := mkGame info (Some a) SourceRemote from (findPeerName from (peers m)) 0 0).
  assert (Hkey : Key g0 = AddrString from +:+ ":" +:+ GameName info) by reflexivity.
  destruct (Add_final g0 w1) as (t1 & g' & Hg & Hc & Hb & Hg' & _).
  pose proof (Add_run g0 w1) as E. cbn zeta in E.
  set (w2 := final (run (Add g0) w1)) in *.
  set (e2 := events (run (Add g0) w1)).
  change (final (tt, w2, e2)) with w2. change (events (tt, w2, e2)) with e2.
  exists g'. rewrite <- Hkey.
  split; [exact Hg|]. split; [exact Hc|]. split; [exact Hb|].
  assert (Hf : Info g' = info /\ Source g' = SourceRemote /\ PeerIP g' = from
               /\ RawData g' = Some a).
  { subst g'. by destruct (bool_decide (is_Some (games w1 !! Key g0))). }
  destruct Hf as (Hi & Hs & Hp & Hr).
  split; [done|]. split; [done|]. split; [done|]. split; [done|].
  intros Hon. subst e2 w2. rewrite E in *. clear E.
  match goal with |- context [notify ?w3] =>
    pose proof (notify_spec w3) as (_ & _ & _ & Hnot & _); set (w3' := w3) in * end.
  assert (Hoc : onChange w3' = true).
  { subst w3'. by destruct (bool_decide (is_Some (games w1 !! Key g0))). }
  destruct (Hnot Hoc) as (s & He & _ & Hperm).
  unfold final, events in *. cbn [fst snd] in *.
  exists s. split; [exact He|]. rewrite Hperm. unfold entries.
  apply list_elem_of_fmap. exists (fresh (dom (gameAt w1))). split.
  - unfold deref. rewrite Hc, lookup_insert_eq. done.
  - apply list_elem_of_fmap. exists (Key g0, fresh (dom (gameAt w1))). split; [done|].
    apply elem_of_map_to_list. rewrite Hg. apply lookup_insert_eq.
Qed.

(** X25. A GameInfo datagram from a peer that is not loopback reaches
    the LAN: the registry hands the new slice to its callback, and the
    tick of a broadcaster given that slice sends the RefreshGame of the
    game and, when the datagram has at least four bytes, the datagram
    itself with its last two bytes replaced by the proxy port. *)
Theorem received_game_is_announced (m : Manager) (b : Broadcaster) (data : list Z)
    (from : Addr) (info : GameInfo) (w : World) :
  Deserialize (take udpBufferSize data) = Some (PktGameInfo info) ->
  IsLoopback from = false ->
  onChange w = true ->
  let r := run (receive m data from) w in
  let raw := take 512 data in
  exists s,
    events r = [OnChange (Some s)]
    /\ let evs := events (run (broadcastGames (OnGamesChanged (Some s) b)) (final r)) in
       WriteTo (refreshPacket (HostCounter info) (SlotsUsed info) (SlotsAvailable info))
         (broadcastAddr b) ∈ evs
       /\ ((4 <= length raw)%nat ->
           WriteTo (take (length raw - 2) raw
                      ++ [Go.byte (proxyPort b); Go.byte (Z.shiftr (proxyPort b) 8)])
             (broadcastAddr b) ∈ evs).
Proof.
  intros Hdec Hlb Hon. cbv zeta.
  destruct (receive_remote m data from info w Hdec Hlb)
    as (g & Hg & Hc & Hb & Hi & Hs & Hp & Hr & Hnot).
  destruct (Hnot Hon) as (s & He & Hin). exists s. split; [exact He|].
  set (w1 := final (run (receive m data from) w)) in *.
  set (b' := OnGamesChanged (Some s) b).
  assert (Hraw : bytesOf w1 (RawData g) = take 512 data).
  { rewrite Hr. cbn [bytesOf]. rewrite Hb, lookup_insert_eq. done. }
  assert (Hmem : forall e, e ∈ announcementOf b' w1 g ->
                           e ∈ events (run (broadcastGames b') w1)).
  { intros e Hin'. rewrite broadcastGames_run.
    pose proof (announceLoop_mem b' g (gamesOf w1 (bGames b')) ∅ w1 Hin Hs) as Hloop.
    destruct (run (announceLoop b' (gamesOf w1 (bGames b')) ∅) w1) as [[cur w2] e2].
    unfold events in *. cbn [fst snd] in *. apply elem_of_app. left.
    apply Hloop; [|done]. intros a0 Ha0. rewrite Hr in Ha0. injection Ha0 as <-.
    rewrite Hb. apply elem_of_dom. rewrite lookup_insert_eq. by eexists. }
  unfold announcementOf in Hmem. rewrite Hraw, Hi in Hmem.
  split.
  - apply Hmem. apply elem_of_app. right. apply list_elem_of_here.
  - intros Hlen. apply Hmem. apply elem_of_app. left.
    destruct (Nat.ltb_spec (length (take 512 data)) 4) as [?|_]; [lia|].
    apply list_elem_of_here.
Qed.

(** X26. After a GameInfo datagram from a peer that is not loopback,
    a Join that carries the host counter of that game is never refused:
    the proxy finds a remote game with that host counter and dials it.
    When no game under another key carried that host counter, the proxy
    dials the sender of the datagram at the game port the datagram
    announced. *)
Theorem received_game_is_joinable (m : Manager) (data : list Z) (from : Addr)
    (info : GameInfo) (env : ConnEnv) (joinData : list Z) (j : Join) (w : World) :
  Deserialize (take udpBufferSize data) = Some (PktGameInfo info) ->
  IsLoopback from = false ->
  joinArrives env joinData j ->
  jHostCounter j = HostCounter info ->
  let w1 := final (run (receive m data from) w) in
  let evs := events (run (handleConnection env) w1) in
  (exists g, g ∈ entries w1 /\ Source g = SourceRemote
             /\ HostCounter (Info g) = HostCounter info
             /\ evs = joinRead ++ forwarding env g (take 512 joinData))
  /\ ((forall k p, isMatch w (HostCounter info) k p ->
                   k = AddrString from +:+ ":" +:+ GameName info) ->
      evs = joinRead
              ++ forwarding env
                   (mkGame info (Some (fresh (dom (bytesAt w)))) SourceRemote from
                      (findPeerName from (peers m)) 0 0)
                   (take 512 joinData)
      /\ Dial (AddrString from +:+ ":" +:+ utoa (GamePort info)) ∈ evs).
Proof.
  intros Hdec Hlb (Harm & Hinc & Hclear & Hjdec) Hhc. cbv zeta.
  destruct (receive_remote m data from info w Hdec Hlb)
    as (g & Hg & Hc & Hb & Hi & Hs & Hp & Hr & _).
  set (w1 := final (run (receive m data from) w)) in *.
  set (key := AddrString from +:+ ":" +:+ GameName info) in *.
  set (p := fresh (dom (gameAt w))) in *.
  assert (Hderef : deref w1 p = g).
  { unfold deref. by rewrite Hc, lookup_insert_eq. }
  assert (Hm : isMatch w1 (jHostCounter j) key p).
  { unfold isMatch. rewrite Hg, lookup_insert_eq, Hderef, Hi. done. }
  destruct (handleConnection_found env w1 joinData j key p Harm Hinc Hclear Hjdec Hm)
    as (k' & p' & (Hk' & Hs' & Hh') & Hev).
  change maxJoinPacketSize with 512%nat in Hev.
  split.
  - exists (deref w1 p'). split; [|split; [done|split; [congruence|exact Hev]]].
    unfold entries. apply list_elem_of_fmap. exists p'. split; [done|].
    apply list_elem_of_fmap. exists (k', p'). split; [done|]. by apply elem_of_map_to_list.
  - intros Huniq.
    assert (Hsame : forwarding env (deref w1 p') (take 512 joinData)
                    = forwarding env
                        (mkGame info (Some (fresh (dom (bytesAt w)))) SourceRemote from
                           (findPeerName from (peers m)) 0 0)
                        (take 512 joinData)).
    { assert (Hpp : p' = p).
      { destruct (decide (p' = p)) as [|Hne]; [done|]. exfalso.
        destruct (decide (k' = key)) as [->|Hk].
        - rewrite Hg, lookup_insert_eq in Hk'. by injection Hk'.
        - apply Hk, (Huniq k' p'). unfold isMatch.
          rewrite Hg, lookup_insert_ne in Hk' by done.
          assert (Hd : deref w1 p' = deref w p').
          { unfold deref. by rewrite Hc, lookup_insert_ne. }
          rewrite <- Hd, <- Hhc. done. }
      rewrite Hpp, Hderef. unfold forwarding. by rewrite Hp, Hi. }
    rewrite Hev, Hsame. split; [done|].
    unfold joinRead, forwarding, JoinHostPort. cbn [app PeerIP Info].
    do 6 apply list_elem_of_further. apply list_elem_of_here.
Qed.

End with_runtime.

Import sample.

Lemma received_game_is_announced_witness :
  exists s,
    events (run (receive manager gameInfoBytes p1) world0) = [OnChange (Some s)]
    /\ WriteTo [247; 48; 12; 0; 7; 0; 0; 0; 1; 8; 64; 156] (mkUDPAddr (IPv4 255 255 255 255) 6112)
       ∈ events (run (broadcastGames (OnGamesChanged (Some s) (NewBroadcaster 40000))) world1).
Proof.
  assert (Hdec : Deserialize (take udpBufferSize gameInfoBytes)
                 = Some (PktGameInfo (mkGameInfo "g1" 7 1 8 7 6112)))
    by (vm_compute; reflexivity).
  destruct (received_game_is_announced manager (NewBroadcaster 40000) gameInfoBytes p1 _ world0
              Hdec eq_refl eq_refl) as (s & He & _ & Hraw).
  exists s. split; [exact He|]. apply Hraw. vm_compute. lia.
Defined.

Lemma received_game_is_joinable_witness :
  Dial "100.64.0.2:6112"
  ∈ events (run (handleConnection (mkConnEnv false (Some (joinBytes 7)) false false false))
              world1).
Proof.
  assert (Hdec : Deserialize (take udpBufferSize gameInfoBytes)
                 = Some (PktGameInfo (mkGameInfo "g1" 7 1 8 7 6112)))
    by (vm_compute; reflexivity).
  assert (Hj : joinArrives (mkConnEnv false (Some (joinBytes 7)) false false false)
                 (joinBytes 7) (mkJoin 7 "p")).
  { by repeat split. }
  destruct (received_game_is_joinable manager gameInfoBytes p1 _ _ _ _ world0
              Hdec eq_refl Hj eq_refl) as (_ & Hdial).
  apply Hdial. intros k p (Hk & _). vm_compute in Hk. discriminate Hk.
Defined.

End EndToEnd.

(** ** tui: the log pane and the games per peer *)

Module TuiMore.
Import netip w3gs game config tui vocabulary TuiFacts.

(** X27. The log pane never slices out of range. Whatever the height
    of the window, it shows the placeholder while no message has come,
    and afterwards the last messages received, in order: as many as the
    height of the pane when that is between 1 and 10, else ten, or all
    of them when there are fewer. *)
Theorem viewLogs_shows_last (logHeight : Z) (messages : list string) :
  let shown := if (logHeight <=? 0) || (10 <? logHeight) then 10%nat else Z.to_nat logHeight in
  viewLogs logHeight (foldl updateLog [] messages)
  = match messages with
    | [] => NoLogsYet
    | _ => LogLines (drop (length messages - shown) messages)
    end
  /\ forall logs, viewLogs logHeight logs ≠ SliceOutOfRange.
Proof.
  cbv zeta. split.
  - rewrite (updateLog_foldl messages []) by (cbn; lia). cbn [app].
    destruct messages as [|m0 rest]; [reflexivity|].
    set (messages := m0 :: rest).
    assert (Hpos : (0 < length messages)%nat) by (cbn; lia). clearbody messages.
    unfold viewLogs, maxLogLines. rewrite length_drop.
    destruct (Nat.eqb_spec (length messages - (length messages - 10)) 0) as [?|_]; [lia|].
    set (d := if (logHeight <=? 0) || (Z.of_nat 10 <? logHeight) then Z.of_nat 10
              else logHeight).
    assert (Hd : 1 <= d <= 10
                 /\ (if (logHeight <=? 0) || (10 <? logHeight) then 10%nat
                     else Z.to_nat logHeight) = Z.to_nat d).
    { subst d. change (Z.of_nat 10) with 10.
      destruct (Z.leb_spec logHeight 0), (Z.ltb_spec 10 logHeight); cbn [orb]; lia. }
    destruct Hd as [Hd ->]. clearbody d.
    set (n := (length messages - (length messages - 10))%nat).
    destruct (Z.ltb_spec d (Z.of_nat n)) as [Hlt|Hge].
    + destruct (Z.ltb_spec (Z.of_nat n - d) 0) as [?|_]; [lia|].
      destruct (Z.ltb_spec (Z.of_nat n) (Z.of_nat n - d)) as [?|_]; [lia|]. cbn [orb].
      rewrite drop_drop. f_equal. f_equal. subst n. lia.
    + destruct (Z.ltb_spec (Z.of_nat n) 0) as [?|_]; [lia|].
      change (0 <? 0) with false. cbn [orb]. change (Z.to_nat 0) with 0%nat.
      rewrite drop_0. f_equal. f_equal. subst n. lia.
  - intros logs. unfold viewLogs. destruct (length logs =? 0)%nat; [done|].
    set (d := if (logHeight <=? 0) || (Z.of_nat maxLogLines <? logHeight)
              then Z.of_nat maxLogLines else logHeight).
    assert (Hd : 1 <= d).
    { subst d. unfold maxLogLines. destruct (Z.leb_spec logHeight 0); cbn [orb]; [lia|].
      destruct (Z.ltb_spec (Z.of_nat 10) logHeight); lia. }
    clearbody d.
    destruct (Z.ltb_spec d (Z.of_nat (length logs))).
    + destruct (Z.ltb_spec (Z.of_nat (length logs) - d) 0); [lia|].
      destruct (Z.ltb_spec (Z.of_nat (length logs)) (Z.of_nat (length logs) - d)); [lia|].
      done.
    + destruct (Z.ltb_spec (Z.of_nat (length logs)) 0); [lia|]. done.
Qed.

Lemma clear_all (it : list string) :
  forall m : gmap string Z,
    dom (foldl (fun m k => delete k m) m it) = dom m ∖ list_to_set it.
Proof.
  induction it as [|k it IH]; intros m; cbn [foldl list_to_set].
  - by rewrite difference_empty_L.
  - rewrite IH, dom_delete_L. apply set_eq. intros x.
    rewrite !elem_of_difference, elem_of_union, elem_of_singleton. tauto.
Qed.

Lemma count_fold (ip : string) (games : list Game) :
  forall acc : gmap string Z,
    0 <= default 0 (acc !! ip) ->
    default 0 (acc !! ip) + Z.of_nat (length games) < 2 ^ 63 ->
    let n := length (filter (fun g => Source g = SourceRemote /\ AddrString (PeerIP g) = ip)
                       games) in
    foldl (fun m g =>
             if bool_decide (Source g = SourceRemote) then
               <[AddrString (PeerIP g) := wrapInt (default 0 (m !! AddrString (PeerIP g)) + 1)]> m
             else m) acc games !! ip
    = if (n =? 0)%nat then acc !! ip else Some (default 0 (acc !! ip) + Z.of_nat n).
Proof.
  induction games as [|g games IH]; intros acc Hlo Hhi; cbv zeta; [done|].
  cbn [foldl length] in *. rewrite filter_cons.
  destruct (decide (Source g = SourceRemote)) as [Hrem|Hloc].
  - rewrite (bool_decide_eq_true_2 _ Hrem).
    destruct (decide (AddrString (PeerIP g) = ip)) as [Hip|Hip].
    + rewrite decide_True by done. rewrite Hip.
      assert (Hw : wrapInt (default 0 (acc !! ip) + 1) = default 0 (acc !! ip) + 1).
      { unfold wrapInt. rewrite Z.mod_small; lia. }
      rewrite Hw. rewrite IH.
      * rewrite lookup_insert_eq.
        change (default 0 (Some ?x)) with x. cbn [length].
        destruct (Nat.eqb_spec (length (filter (fun g0 => Source g0 = SourceRemote
                                                  /\ AddrString (PeerIP g0) = ip) games)) 0)
          as [->|_]; [f_equal; lia|].
        replace (S _ =? 0)%nat with false by done. f_equal. lia.
      * rewrite lookup_insert_eq. change (default 0 (Some ?x)) with x. lia.
      * rewrite lookup_insert_eq. change (default 0 (Some ?x)) with x. lia.
    + rewrite decide_False by tauto.
      rewrite IH; rewrite ?lookup_insert_ne by done; [done | done | lia].
  - rewrite (bool_decide_eq_false_2 _ Hloc). rewrite decide_False by tauto.
    apply IH; [done | lia].
Qed.

(** X28. After [updatePeerGameCounts] the map holds, for every peer
    address, the number of remote games from that address, and no entry
    for an address without one; local games are not counted and what the
    map held before has no influence. *)
Theorem updatePeerGameCounts_counts (it : list string) (peerGames : gmap string Z)
    (games : list Game) (ip : string) :
  it ≡ₚ (map_to_list peerGames).*1 ->
  Z.of_nat (length games) < 2 ^ 63 ->
  let n := length (filter (fun g => Source g = SourceRemote /\ AddrString (PeerIP g) = ip)
                     games) in
  updatePeerGameCounts it peerGames games !! ip
  = if (n =? 0)%nat then None else Some (Z.of_nat n).
Proof.
  intros Hit Hlen. cbv zeta. unfold updatePeerGameCounts.
  assert (Hclear : foldl (fun m k => delete k m) peerGames it = ∅).
  { apply dom_empty_iff_L. rewrite clear_all.
    apply set_eq. intros k. rewrite elem_of_difference, elem_of_list_to_set, Hit.
    split; [|set_solver]. intros [Hk Hn]. exfalso. apply Hn.
    apply elem_of_dom in Hk as [v Hv]. apply list_elem_of_fmap. exists (k, v).
    split; [done|]. by apply elem_of_map_to_list. }
  rewrite Hclear.
  pose proof (count_fold ip games ∅) as Hc. cbv zeta in Hc.
  rewrite lookup_empty in Hc. cbn [default] in Hc.
  rewrite Hc by lia. by rewrite Z.add_0_l.
Qed.

Lemma updatePeerGameCounts_counts_witness :
  updatePeerGameCounts ["old"%string] {[ "old"%string := 5 ]}
    [mkGame (mkGameInfo "g1" 7 1 8 7 6112) None SourceRemote (IPv4 100 64 0 2) "P1" 0 0;
     mkGame (mkGameInfo "g2" 8 1 8 7 6112) None SourceRemote (IPv4 100 64 0 2) "P1" 0 0;
     mkGame (mkGameInfo "g3" 9 1 8 7 6112) None SourceLocal (IPv4 127 0 0 1) "local" 0 0]
  !! "100.64.0.2"%string = Some 2.
Proof.
  rewrite updatePeerGameCounts_counts.
  - vm_compute. reflexivity.
  - vm_compute. reflexivity.
  - vm_compute. reflexivity.
Defined.

End TuiMore.
